(** * extract_csv: PostgreSQL dump scanner and export comparator

    A shallow embedding of [commands/extract_csv.py].

    - Text is modelled over the code points U+0000..U+00FF, one [ascii]
      per code point; Python's character predicates ([str.isspace], the
      [\s], [\w] and [.] classes of [re], [str.lower]) are the
      restrictions of the Unicode ones to that range.
    - The dump file is given to [process_dump] by its decoded text,
      [None] when it cannot be opened; [main] distinguishes a source
      that is absent from one that exists but cannot be opened.  An
      export directory is a flat map from file names to stored contents.
      Other I/O failures are outside the model.
    - An output file object has the two layers of Python's text I/O: the
      text layer collects what is written until it has [CHUNK_SIZE]
      bytes, the buffer below it holds up to [buffer_size] bytes, and
      only what leaves the buffer, or [close], reaches the stored file.
    - Log output is kept as a list of structured entries, one
      constructor per call site of the [log_*] helpers. *)

From Stdlib Require Import ZArith Ascii String List Lia.
From stdpp Require Import base option list strings gmap sorting.

Local Open Scope string_scope.
Local Open Scope Z_scope.
Local Open Scope list_scope.

(** ** Characters *)

Module Char.

Definition tab : ascii := "009"%char.
Definition lf : ascii := "010"%char.
Definition cr : ascii := "013"%char.
Definition dquote : ascii := "034"%char.
Definition comma : ascii := ","%char.

Definition code (c : ascii) : N := N_of_ascii c.

Definition between (lo hi : N) (c : ascii) : bool :=
  ((lo <=? code c) && (code c <=? hi))%N.

(** [str.isspace] on one character: TAB..CR, FS..US, SPACE, NEL, NBSP. *)
Definition isspace (c : ascii) : bool :=
  between 9 13 c || between 28 32 c
  || (code c =? 133)%N || (code c =? 160)%N.

Definition isupper_ascii (c : ascii) : bool := between 65 90 c.
Definition islower_ascii (c : ascii) : bool := between 97 122 c.
Definition isdigit_ascii (c : ascii) : bool := between 48 57 c.

(** [str.isalnum] on one character. *)
Definition isalnum (c : ascii) : bool :=
  isdigit_ascii c || isupper_ascii c || islower_ascii c
  || (code c =? 170)%N || between 178 179 c || (code c =? 181)%N
  || between 185 186 c || between 188 190 c
  || between 192 214 c || between 216 246 c || between 248 255 c.

(** The [\w] class of [re] on [str] patterns. *)
Definition isword (c : ascii) : bool :=
  isalnum c || (code c =? 95)%N.

(** [str.lower] on one character: A..Z, and the Latin-1 capitals
    U+00C0..U+00DE except the multiplication sign. *)
Definition lower (c : ascii) : ascii :=
  if isupper_ascii c || between 192 214 c || between 216 222 c
  then ascii_of_N (code c + 32)
  else c.

End Char.

(** ** Strings: the [str] methods used by the script *)

Fixpoint lower (s : string) : string :=
  match s with
  | EmptyString => EmptyString
  | String c s' => String (Char.lower c) (lower s')
  end.

Definition startswith (s p : string) : bool := String.prefix p s.

Definition endswith (s p : string) : bool :=
  String.prefix (String.rev p) (String.rev s).

Fixpoint lstrip (s : string) : string :=
  match s with
  | EmptyString => EmptyString
  | String c s' => if Char.isspace c then lstrip s' else s
  end.

(** [rstrip_chars p s] drops the longest suffix of [s] made of characters
    satisfying [p]. *)
Fixpoint rstrip_chars (p : ascii -> bool) (s : string) : string :=
  match s with
  | EmptyString => EmptyString
  | String c s' =>
      match rstrip_chars p s' with
      | EmptyString => if p c then EmptyString else String c EmptyString
      | r => String c r
      end
  end.

(** [s.strip()] *)
Definition strip (s : string) : string :=
  lstrip (rstrip_chars Char.isspace s).

(** [s.rstrip('\n')] *)
Definition rstrip_newline (s : string) : string :=
  rstrip_chars (fun c => bool_decide (c = Char.lf)) s.

(** [s.split(sep)] for a one-character separator: never the empty list. *)
Fixpoint split (sep : ascii) (s : string) : list string :=
  match s with
  | EmptyString => [EmptyString]
  | String c s' =>
      if bool_decide (c = sep) then EmptyString :: split sep s'
      else match split sep s' with
           | f :: fs => String c f :: fs
           | [] => [String c EmptyString]
           end
  end.

(** [sep.join(l)] *)
Fixpoint join (sep : string) (l : list string) : string :=
  match l with
  | [] => EmptyString
  | [x] => x
  | x :: rest => x +:+ sep +:+ join sep rest
  end.

(** [s[1:-1]] *)
Definition slice_1_m1 (s : string) : string :=
  String.substring 1 (String.length s - 2) s.

Definition contains_char (p : ascii -> bool) (s : string) : bool :=
  existsb p (list_ascii_of_string s).

Definition string_all (p : ascii -> bool) (s : string) : bool :=
  forallb p (list_ascii_of_string s).

(** ** A backtracking matcher for the fragment of [re] the script uses *)

Module Re.

Inductive char_class := Space | Word | AnyChar.

Definition in_class (cl : char_class) (c : ascii) : bool :=
  match cl with
  | Space => Char.isspace c
  | Word => Char.isword c
  | AnyChar => negb (bool_decide (c = Char.lf))
  end.

(** Quantifiers only ever apply to a character class in the pattern of
    the script, so repetition is defined on classes. *)
Inductive regex :=
| Lit (c : ascii)              (* a literal character *)
| Plus (cl : char_class)       (* cl+   greedy *)
| Star (cl : char_class)       (* cl*   greedy *)
| LazyStar (cl : char_class)   (* cl*?  lazy *)
| Cat (r1 r2 : regex)
| Opt (r : regex)              (* (?:r)? greedy *)
| Group (n : nat) (r : regex). (* capturing group number n *)

(** Under [re.IGNORECASE] a literal matches either letter case. *)
Definition lit_matches (ignorecase : bool) (p c : ascii) : bool :=
  if ignorecase then bool_decide (Char.lower c = Char.lower p)
  else bool_decide (c = p).

Abbreviation captures := (gmap nat string).

Section matcher.
Context {R : Type}.

Definition orelse (a : option R) (b : option R) : option R :=
  match a with Some r => Some r | None => b end.

Fixpoint star_greedy (p : ascii -> bool) (k : string -> option R)
    (s : string) : option R :=
  match s with
  | String c s' =>
      if p c then orelse (star_greedy p k s') (k s) else k s
  | EmptyString => k s
  end.

Definition plus_greedy (p : ascii -> bool) (k : string -> option R)
    (s : string) : option R :=
  match s with
  | String c s' => if p c then star_greedy p k s' else None
  | EmptyString => None
  end.

Fixpoint star_lazy (p : ascii -> bool) (k : string -> option R)
    (s : string) : option R :=
  orelse (k s)
    match s with
    | String c s' => if p c then star_lazy p k s' else None
    | EmptyString => None
    end.

(** The text consumed between input [s] and its suffix [s']. *)
Definition consumed (s s' : string) : string :=
  String.substring 0 (String.length s - String.length s') s.

(** [run ic r s caps k]: match [r] at the start of [s], then continue
    with [k] on the rest; alternatives are tried in [re]'s priority
    order and the first complete success wins. *)
Fixpoint run (ic : bool) (r : regex) (s : string) (caps : captures)
    (k : string -> captures -> option R) : option R :=
  match r with
  | Lit p =>
      match s with
      | String c s' => if lit_matches ic p c then k s' caps else None
      | EmptyString => None
      end
  | Plus cl => plus_greedy (in_class cl) (fun s' => k s' caps) s
  | Star cl => star_greedy (in_class cl) (fun s' => k s' caps) s
  | LazyStar cl => star_lazy (in_class cl) (fun s' => k s' caps) s
  | Cat r1 r2 => run ic r1 s caps (fun s' caps' => run ic r2 s' caps' k)
  | Opt r1 => orelse (run ic r1 s caps k) (k s caps)
  | Group n r1 =>
      run ic r1 s caps (fun s' caps' => k s' (<[n := consumed s s']> caps'))
  end.
End matcher.

(** [re.match(pattern, s, flags)]: anchored at the start only. *)
Definition rmatch (ic : bool) (r : regex) (s : string) : option captures :=
  run ic r s ∅ (fun _ caps => Some caps).

Fixpoint lits (s : string) : regex -> regex :=
  match s with
  | EmptyString => fun r => r
  | String c s' => fun r => Cat (Lit c) (lits s' r)
  end.

End Re.

(** ** The parser *)

(** [r'COPY\s+(?:(\w+)\.)?(\w+)\s*\((.*?)\)\s+FROM\s+stdin'] *)
Definition COPY_PATTERN : Re.regex :=
  Re.lits "COPY"
   (Re.Cat (Re.Plus Re.Space)
   (Re.Cat (Re.Opt (Re.Cat (Re.Group 1 (Re.Plus Re.Word)) (Re.Lit "."%char)))
   (Re.Cat (Re.Group 2 (Re.Plus Re.Word))
   (Re.Cat (Re.Star Re.Space)
   (Re.Cat (Re.Lit "("%char)
   (Re.Cat (Re.Group 3 (Re.LazyStar Re.AnyChar))
   (Re.Cat (Re.Lit ")"%char)
   (Re.Cat (Re.Plus Re.Space)
   (Re.lits "FROM"
   (Re.Cat (Re.Plus Re.Space)
   (Re.lits "stdi" (Re.Lit "n"%char)))))))))))).

(** One column of the list: stripped, surrounding double quotes removed. *)
Definition parse_column (col : string) : string :=
  let col := strip col in
  if startswith col (String Char.dquote EmptyString)
     && endswith col (String Char.dquote EmptyString)
  then slice_1_m1 col else col.

(** The derived table name, from the schema group (absent: [None]) and
    the table group. *)
Definition full_table_name (schema : option string) (table_name : string)
    : string :=
  match schema with
  | Some sch =>
      if negb (bool_decide (sch = "")) && negb (bool_decide (lower sch = "public"))
      then sch +:+ "_" +:+ table_name
      else table_name
  | None => table_name
  end.

(** [PostgreSQLDumpParser.parse_copy_statement].  Groups 2 and 3 take part
    in every match of the pattern. *)
Definition parse_copy_statement (line : string)
    : option (string * list string) :=
  match Re.rmatch true COPY_PATTERN line with
  | Some m =>
      match m !! 2%nat, m !! 3%nat with
      | Some table_name, Some columns_str =>
          Some (full_table_name (m !! 1%nat) table_name,
                parse_column <$> split Char.comma columns_str)
      | _, _ => None
      end
  | None => None
  end.

(** [PostgreSQLDumpParser.parse_data_row] *)
Definition parse_data_row (line : string) : option (list string) :=
  if bool_decide (line = "\." +:+ String Char.lf EmptyString)
     || bool_decide (line = "\.")
  then None
  else Some ((fun f => if bool_decide (f = "\N") then "" else f)
               <$> split Char.tab (rstrip_newline line)).

(** ** The [csv] writer (dialect [excel], [QUOTE_MINIMAL]) *)

Module Csv.

Definition special (c : ascii) : bool :=
  bool_decide (c = Char.comma) || bool_decide (c = Char.dquote)
  || bool_decide (c = Char.cr) || bool_decide (c = Char.lf).

(** Every quote character is doubled. *)
Fixpoint escape (s : string) : string :=
  match s with
  | EmptyString => EmptyString
  | String c s' =>
      if bool_decide (c = Char.dquote)
      then String c (String c (escape s'))
      else String c (escape s')
  end.

Definition quote (s : string) : string :=
  String Char.dquote (s +:+ String Char.dquote EmptyString).

(** A field is quoted when it holds the delimiter, the quote character
    or a character of the line terminator. *)
Definition field (f : string) : string :=
  if contains_char special f then quote (escape f) else f.

Definition lineterminator : string :=
  String Char.cr (String Char.lf EmptyString).

(** A record whose text would be empty (one empty field) is written as
    a pair of quotes. *)
Definition record (fields : list string) : string :=
  let body := join "," (field <$> fields) in
  if bool_decide (body = "") && negb (bool_decide (fields = []))
  then quote "" else body.

(** The text one [writerow] call hands to the file object. *)
Definition row (fields : list string) : string :=
  record fields +:+ lineterminator.




End Csv.

(** ** Text files *)

(** Iterating a file opened in text mode with universal newlines: the
    lines, each terminator ([\n], [\r] or [\r\n]) read as [\n]. *)
Fixpoint readlines (s : string) : list string :=
  match s with
  | EmptyString => []
  | String c s' =>
      if bool_decide (c = Char.lf) then String Char.lf EmptyString :: readlines s'
      else if bool_decide (c = Char.cr) then
        match s' with
        | String c2 s'' =>
            if bool_decide (c2 = Char.lf)
            then String Char.lf EmptyString :: readlines s''
            else String Char.lf EmptyString :: readlines s'
        | EmptyString => [String Char.lf EmptyString]
        end
      else
        match readlines s' with
        | l :: ls => String c l :: ls
        | [] => [String c EmptyString]
        end
  end.

(** [sum(1 for _ in open(path))] *)
Definition count_lines (content : string) : Z :=
  Z.of_nat (length (readlines content)).

(** A directory: file name to stored content. *)
Abbreviation directory := (gmap string string).

(** The number of bytes of the UTF-8 encoding of a text. *)
Fixpoint encoded_length (s : string) : N :=
  match s with
  | EmptyString => 0
  | String c s' =>
      ((if Char.code c <? 128 then 1 else 2) + encoded_length s')%N
  end.

(** [TextIOWrapper._CHUNK_SIZE]: how many bytes of pending text a text
    file object collects before it hands them on. *)
Definition CHUNK_SIZE : N := 8192.

(** An output file object as [open(path, 'w')] builds it: a
    [TextIOWrapper] over a [BufferedWriter] over the file.  Text handed
    to [write] first waits in the wrapper ([h_pending]), is handed on
    from there to the buffer ([h_buffer]), and only from the buffer does
    it reach the stored file.  Closing hands everything on. *)
Record csv_handle := {
  h_name : string;
  h_pending : string;
  h_buffer : string;
  h_closed : bool
}.

(** ** Log output *)

Inductive level := INFO | SUCCESS | WARNING | ERROR | SECTION.

Inductive message :=
| ProcessingDump                         (* "Processing PostgreSQL Dump" *)
| Source (dump_file : string)            (* "Source: {}" *)
| Output (output_dir : string)           (* "Output: {}" *)
| Scanning                               (* "Scanning for table data..." *)
| ProcessingLine (line_num : Z)          (* "Processing line {:,}..." *)
| ExtractingTable (table_name : string)  (* "Extracting table: {}" *)
| RowsExported (rows_in_table : Z)       (* "  -> {:,} rows exported" *)
| SkippingMalformedRow (table : string)  (* "  Skipping malformed row in {}" *)
| ErrorProcessingDump (e : string)       (* "Error processing dump: {}" *)
| ExportComplete                         (* "Export Complete" *)
| TablesExported (tables_found : Z)      (* "Tables exported: {}" *)
| TotalRows (total_rows : Z)             (* "Total rows: {:,}" *)
| LastExportNotFound (dir : string)      (* "Last export directory not found: {}" *)
| Comparing                              (* "Comparing with Last Export" *)
| NewFile (filename : string)            (* "{}: NEW FILE" *)
| MissingFile (filename : string)        (* "{}: MISSING (was in last export)" *)
| Unchanged (filename : string) (new_count : Z)      (* "{}: {:,} rows (unchanged)" *)
| Increased (filename : string) (new_count diff : Z) (* "{}: {:,} rows (+{:,})" *)
| Decreased (filename : string) (new_count diff : Z) (* "{}: {:,} rows ({:,})" *)
| SourceNotFound (path : string)         (* "Source file not found: {}" *)
| Banner                                 (* "LazyGourmet CSV Extraction" *)
| StartedAt (now : string)               (* "Started at: {}" *)
| Completed                              (* "Extraction completed successfully!" *)
| Failed.                                (* "Extraction failed!" *)

Abbreviation entry := (level * message)%type.

(** ** The scanner *)

Record scanner := {
  out_files : directory;              (* the output directory, as stored *)
  current_csv : option csv_handle;    (* [current_writer] wraps it *)
  current_table : option string;      (* [self.current_table] *)
  current_columns : list string;      (* [self.current_columns] *)
  in_copy_data : bool;
  tables_found : Z;
  total_rows : Z;
  log : list entry
}.

Definition init_scanner (out : directory) (lg : list entry) : scanner :=
  {| out_files := out; current_csv := None; current_table := None;
     current_columns := []; in_copy_data := false;
     tables_found := 0; total_rows := 0; log := lg |}.

Definition add_log (e : entry) (st : scanner) : scanner :=
  {| out_files := out_files st; current_csv := current_csv st;
     current_table := current_table st;
     current_columns := current_columns st;
     in_copy_data := in_copy_data st; tables_found := tables_found st;
     total_rows := total_rows st; log := log st ++ [e] |}.

(** How an f-string prints [self.current_table]. *)
Definition fmt_table (t : option string) : string := default "None" t.

Definition csv_name (table_name : string) : string := table_name +:+ ".csv".

(** The result of one loop iteration: go on, or an exception escaped. *)
Inductive outcome :=
| Continue (st : scanner)
| Raised (e : string) (st : scanner).

Section Scanner.

(** Capacity in bytes of the [BufferedWriter] of an output file: the
    block size of the file system it is on ([st_blksize], often 4096),
    [io.DEFAULT_BUFFER_SIZE] = 8192 where that is not known. *)
Variable buffer_size : N.

(** [FileIO.write]: the bytes reach the stored file. *)
Definition raw_write (name data : string) (out : directory) : directory :=
  <[name := default "" (out !! name) +:+ data]> out.

(** [BufferedWriter.write(data)]: data that fits in what is left of the
    buffer waits there.  Otherwise the buffer is written out first, and
    the data follows it at once when it is larger than the whole buffer,
    else it waits in the emptied buffer. *)
Definition buffer_write (h : csv_handle) (data : string) (out : directory)
    : csv_handle * directory :=
  if (encoded_length data
      <=? buffer_size - encoded_length (h_buffer h))%N
  then ({| h_name := h_name h; h_pending := h_pending h;
           h_buffer := h_buffer h +:+ data; h_closed := h_closed h |},
        out)
  else
    let out' := raw_write (h_name h) (h_buffer h) out in
    if (buffer_size <? encoded_length data)%N
    then ({| h_name := h_name h; h_pending := h_pending h;
             h_buffer := ""; h_closed := h_closed h |},
          raw_write (h_name h) data out')
    else ({| h_name := h_name h; h_pending := h_pending h;
             h_buffer := data; h_closed := h_closed h |},
          out').

(** The wrapper hands its pending text on to the buffer. *)
Definition text_flush (h : csv_handle) (out : directory)
    : csv_handle * directory :=
  buffer_write
    {| h_name := h_name h; h_pending := ""; h_buffer := h_buffer h;
       h_closed := h_closed h |}
    (h_pending h) out.

(** Move all the waiting text of a handle to the stored file. *)
Definition flush (h : csv_handle) (out : directory) : directory :=
  <[h_name h := default "" (out !! h_name h) +:+ h_buffer h +:+ h_pending h]>
    out.

(** [f.close()]: flushes; closing twice is allowed. *)
Definition close (h : csv_handle) (out : directory)
    : csv_handle * directory :=
  if h_closed h then (h, out)
  else ({| h_name := h_name h; h_pending := ""; h_buffer := "";
           h_closed := true |},
        flush h out).

(** [open(path, 'w')]: creates or truncates. *)
Definition open_w (name : string) (out : directory)
    : csv_handle * directory :=
  ({| h_name := name; h_pending := ""; h_buffer := ""; h_closed := false |},
   <[name := ""]> out).

(** [f.write(data)] on a text file ([TextIOWrapper.write], CPython
    3.11): pending text that the new data would take past the chunk size
    is handed on first; the data is then added to the pending text, and
    all of it is handed on when it has reached the chunk size.  [None]
    stands for the [ValueError] of a closed file. *)
Definition write (h : csv_handle) (data : string) (out : directory)
    : option (csv_handle * directory) :=
  if h_closed h then None
  else
    let '(h1, out1) :=
      if (CHUNK_SIZE
          <? encoded_length (h_pending h) + encoded_length data)%N
      then text_flush h out else (h, out) in
    let h2 := {| h_name := h_name h1; h_pending := h_pending h1 +:+ data;
                 h_buffer := h_buffer h1; h_closed := h_closed h1 |} in
    if (CHUNK_SIZE <=? encoded_length (h_pending h2))%N
    then Some (text_flush h2 out1)
    else Some (h2, out1).

Definition writerow (h : csv_handle) (fields : list string)
    (out : directory) : option (csv_handle * directory) :=
  write h (Csv.row fields) out.

(** Lines 130-148: a header was recognised. *)
Definition start_table (table_name : string) (columns : list string)
    (st : scanner) : outcome :=
  let out1 :=
    match current_csv st with
    | Some h => (close h (out_files st)).2
    | None => out_files st
    end in
  let lg := log st ++ [(INFO, ExtractingTable table_name)] in
  let '(h, out2) := open_w (csv_name table_name) out1 in
  match writerow h columns out2 with
  | Some (h', out3) =>
      Continue
        {| out_files := out3; current_csv := Some h';
           current_table := Some table_name; current_columns := columns;
           in_copy_data := true; tables_found := tables_found st + 1;
           total_rows := total_rows st; log := lg |}
  | None =>
      Raised "I/O operation on closed file."
        {| out_files := out2; current_csv := Some h;
           current_table := current_table st;
           current_columns := current_columns st;
           in_copy_data := in_copy_data st;
           tables_found := tables_found st;
           total_rows := total_rows st; log := lg |}
  end.

(** Lines 153-158: the end-of-data line.  The row count is read back
    from the stored file while the output handle is still open. *)
Definition end_table (st : scanner) : outcome :=
  let st1 :=
    {| out_files := out_files st; current_csv := current_csv st;
       current_table := current_table st;
       current_columns := current_columns st;
       in_copy_data := false; tables_found := tables_found st;
       total_rows := total_rows st; log := log st |} in
  match out_files st !! csv_name (fmt_table (current_table st)) with
  | Some content =>
      let rows_in_table := count_lines content - 1 in
      Continue
        {| out_files := out_files st; current_csv := current_csv st;
           current_table := current_table st;
           current_columns := current_columns st;
           in_copy_data := false; tables_found := tables_found st;
           total_rows := total_rows st + rows_in_table;
           log := log st ++ [(SUCCESS, RowsExported rows_in_table)] |}
  | None => Raised "No such file or directory" st1
  end.

(** Lines 161-167: a data row. *)
Definition data_row (line : string) (st : scanner) : outcome :=
  match parse_data_row line, current_csv st with
  | Some (f :: fs), Some h =>
      let fields := f :: fs in
      if bool_decide (length fields = length (current_columns st))
      then
        match writerow h fields (out_files st) with
        | Some (h', out') =>
            Continue
              {| out_files := out'; current_csv := Some h';
                 current_table := current_table st;
                 current_columns := current_columns st;
                 in_copy_data := in_copy_data st;
                 tables_found := tables_found st;
                 total_rows := total_rows st; log := log st |}
        | None => Raised "I/O operation on closed file." st
        end
      else
        Continue
          (add_log (WARNING,
                    SkippingMalformedRow (fmt_table (current_table st))) st)
  | _, _ => Continue st
  end.

(** Lines 120-122: the progress notice. *)
Definition progress (line_num : Z) (st : scanner) : scanner :=
  if line_num mod 100000 =? 0
  then add_log (INFO, ProcessingLine line_num) st else st.

(** Lines 125-127: the header the line is recognised as, if any. *)
Definition header_of (line : string) : option (string * list string) :=
  if startswith line "COPY " then parse_copy_statement line else None.

(** The body of the [for] loop, lines 120-167. *)
Definition step (line_num : Z) (line : string) (st : scanner) : outcome :=
  let st := progress line_num st in
  match header_of line with
  | Some (table_name, columns) => start_table table_name columns st
  | None =>
      if in_copy_data st then
        if bool_decide (strip line = "\.") then end_table st
        else data_row line st
      else Continue st
  end.

(** [for line_num, line in enumerate(f, 1)] *)
Fixpoint scan (line_num : Z) (lines : list string) (st : scanner)
    : outcome :=
  match lines with
  | [] => Continue st
  | line :: rest =>
      match step line_num line st with
      | Continue st' => scan (line_num + 1) rest st'
      | Raised e st' => Raised e st'
      end
  end.

(** [if current_csv: current_csv.close()] *)
Definition close_current (st : scanner) : scanner :=
  match current_csv st with
  | Some h =>
      let '(h', out') := close h (out_files st) in
      {| out_files := out'; current_csv := Some h';
         current_table := current_table st;
         current_columns := current_columns st;
         in_copy_data := in_copy_data st;
         tables_found := tables_found st;
         total_rows := total_rows st; log := log st |}
  | None => st
  end.

(** [process_dump], from the scan on: [dump] is the decoded text of the
    dump file, [None] when it cannot be opened. *)
Definition run_scan (dump : option string) (st : scanner)
    : bool * scanner :=
  match dump with
  | None =>
      (false,
       close_current
         (add_log (ERROR, ErrorProcessingDump "No such file or directory")
            st))
  | Some text =>
      match scan 1 (readlines text) (add_log (INFO, Scanning) st) with
      | Continue st' =>
          let st1 := close_current st' in
          (true,
           add_log (SUCCESS, TotalRows (total_rows st1))
             (add_log (SUCCESS, TablesExported (tables_found st1))
                (add_log (SECTION, ExportComplete) st1)))
      | Raised e st' =>
          (false, close_current (add_log (ERROR, ErrorProcessingDump e) st'))
      end
  end.

End Scanner.

(** ** The file system and [process_dump] *)

(** Directory path to directory; every export directory is flat. *)
Abbreviation filesystem := (gmap string directory).

(** [Path(output_dir).mkdir(exist_ok=True)] *)
Definition mkdir_exist_ok (d : string) (fs : filesystem) : filesystem :=
  match fs !! d with
  | Some _ => fs
  | None => <[d := ∅]> fs
  end.

Record run_result := {
  ok : bool;
  final : scanner;
  fs_after : filesystem
}.

(** Lines 100-112: the state [process_dump] enters the [try] block with. *)
Definition start_state (dump_file output_dir : string) (fs : filesystem)
    : scanner :=
  init_scanner (default ∅ (mkdir_exist_ok output_dir fs !! output_dir))
    [(SECTION, ProcessingDump); (INFO, Source dump_file);
     (INFO, Output output_dir)].

(** [PostgreSQLDumpParser(dump_file).process_dump(output_dir)] *)
Definition process_dump (buffer_size : N) (dump_file : string)
    (dump : option string) (output_dir : string) (fs : filesystem)
    : run_result :=
  let r := run_scan buffer_size dump (start_state dump_file output_dir fs) in
  {| ok := r.1; final := r.2;
     fs_after := <[output_dir := out_files r.2]>
                   (mkdir_exist_ok output_dir fs) |}.

(** ** The comparator *)

(** [set(f.name for f in d.glob("*.csv"))] *)
Definition glob_csv (d : directory) : gset string :=
  filter (fun name => endswith name ".csv" = true) (dom d).

(** The body of the loop of [compare_with_last_export] for one name. *)
Definition classify (new_dir old_dir : directory) (filename : string)
    : entry :=
  match old_dir !! filename with
  | None => (INFO, NewFile filename)
  | Some old_content =>
      match new_dir !! filename with
      | None => (WARNING, MissingFile filename)
      | Some new_content =>
          let new_count := count_lines new_content - 1 in
          let old_count := count_lines old_content - 1 in
          if new_count =? old_count
          then (SUCCESS, Unchanged filename new_count)
          else
            let diff := new_count - old_count in
            if diff >? 0
            then (WARNING, Increased filename new_count diff)
            else (WARNING, Decreased filename new_count diff)
      end
  end.

(** [sorted(new_files | old_files)] *)
Definition sorted_names (new_dir old_dir : directory) : list string :=
  merge_sort String.le (elements (glob_csv new_dir ∪ glob_csv old_dir)).

(** [PostgreSQLDumpParser.compare_with_last_export]; the result is what
    it logs. *)
Definition compare_with_last_export (output_dir last_export_dir : string)
    (fs : filesystem) : list entry :=
  match fs !! last_export_dir with
  | None => [(WARNING, LastExportNotFound last_export_dir)]
  | Some old_dir =>
      let new_dir := default ∅ (fs !! output_dir) in
      (SECTION, Comparing)
        :: (classify new_dir old_dir <$> sorted_names new_dir old_dir)
  end.

(** ** [main], after the paths are built *)

(** What is found at the source path: nothing; something that exists
    but cannot be opened for reading (a directory, a file the user may
    not read); or a file, with its decoded text. *)
Inductive source :=
| Absent
| Unreadable
| Readable (text : string).

(** [source_path.exists()] *)
Definition source_exists (src : source) : bool :=
  match src with
  | Absent => false
  | Unreadable | Readable _ => true
  end.

(** What [open(self.dump_file, 'r', ...)] gives: [None] when it raises. *)
Definition opened (src : source) : option string :=
  match src with
  | Readable text => Some text
  | Absent | Unreadable => None
  end.

Record main_result := {
  exit_status : Z;
  console : list entry;
  fs_final : filesystem
}.

Definition main (buffer_size : N) (now : string)
    (source_path output_path compare_path : string) (no_compare : bool)
    (src : source) (fs : filesystem) : main_result :=
  if negb (source_exists src) then
    {| exit_status := 1;
       console := [(ERROR, SourceNotFound source_path)];
       fs_final := fs |}
  else
    let r :=
      process_dump buffer_size source_path (opened src) output_path fs in
    let lg := [(SECTION, Banner); (INFO, StartedAt now)] ++ log (final r) in
    if ok r then
      let cmp :=
        if negb no_compare
           && bool_decide (is_Some (fs_after r !! compare_path))
        then compare_with_last_export output_path compare_path (fs_after r)
        else [] in
      {| exit_status := 0;
         console := lg ++ cmp ++ [(SUCCESS, Completed)];
         fs_final := fs_after r |}
    else
      {| exit_status := 1;
         console := lg ++ [(ERROR, Failed)];
         fs_final := fs_after r |}.

(** ** The scanner's invariant *)

(** An output handle, once set, is open on a stored file, and inside a
    data block it is the file of the current table. *)
Definition wf (st : scanner) : Prop :=
  (forall h, current_csv st = Some h ->
     h_closed h = false /\ is_Some (out_files st !! h_name h))
  /\ (in_copy_data st = true ->
      exists t h, current_table st = Some t /\ current_csv st = Some h
                  /\ h_name h = csv_name t).

(** All the text handed so far to a handle: stored, in the buffer and
    pending. *)
Definition handle_text (h : csv_handle) (out : directory) : string :=
  default "" (out !! h_name h) +:+ h_buffer h +:+ h_pending h.

(** ** Devices for stating the results *)

(** The records a run of data lines adds to the file of a table with
    columns [cols]: one per line whose field count fits. *)
Fixpoint rows_text (cols : list string) (lines : list string) : string :=
  match lines with
  | [] => ""
  | line :: rest =>
      match parse_data_row line with
      | Some fields =>
          if bool_decide (length fields = length cols)
          then Csv.row fields +:+ rows_text cols rest
          else rows_text cols rest
      | None => rows_text cols rest
      end
  end.

(** A line the loop handles as a data row when inside a data block. *)
Definition data_line (line : string) : Prop :=
  header_of line = None /\ strip line <> "\.".

(** The sum of the per-table row counts a log reports. *)
Fixpoint reported (lg : list entry) : Z :=
  match lg with
  | [] => 0
  | (_, RowsExported k) :: rest => k + reported rest
  | _ :: rest => reported rest
  end.

Definition no_error (lg : list entry) : Prop :=
  Forall (fun e : entry => e.1 <> ERROR) lg.

(** The messages only [compare_with_last_export] writes. *)
Definition from_comparator (e : entry) : bool :=
  match e.2 with
  | LastExportNotFound _ | Comparing | NewFile _ | MissingFile _
  | Unchanged _ _ | Increased _ _ _ | Decreased _ _ _ => true
  | _ => false
  end.

(** No entry of the log reports the row count of a table. *)
Definition no_count (lg : list entry) : Prop :=
  Forall (fun e : entry => forall k, e.2 <> RowsExported k) lg.

(** Nothing waits in the output handle. *)
Definition flushed (st : scanner) : Prop :=
  forall h, current_csv st = Some h -> h_pending h = "" /\ h_buffer h = "".

(** ** Inputs of the examples *)

Definition nl : string := String Char.lf EmptyString.
Definition tb : string := String Char.tab EmptyString.

Definition orders_dump : string :=
  "COPY public.orders (id, total) FROM stdin;" +:+ nl +:+
  "1" +:+ tb +:+ "9.99" +:+ nl +:+
  "2" +:+ tb +:+ "\N" +:+ nl +:+
  "\." +:+ nl.

Definition orders_header : string :=
  "COPY public.orders (id, total) FROM stdin;" +:+ nl.

(** The state of the loop after [lines], starting from an empty output
    directory. *)
Definition scanned (buffer_size : N) (lines : list string) : scanner :=
  match scan buffer_size 1 lines (init_scanner ∅ []) with
  | Continue st => st
  | Raised _ st => st
  end.

(** Inside the data block of [orders], nothing stored yet. *)
Definition in_orders : scanner := scanned 8192 [orders_header].

(** Inside the data block of a one-column table [a]. *)
Definition in_table_a : scanner :=
  scanned 8192 ["COPY a (x) FROM stdin;" +:+ nl].

Definition header_b : string := "COPY b (y) FROM stdin;" +:+ nl.

(** A dump that stops in the middle of the data of [orders]. *)
Definition truncated_dump : string :=
  orders_header +:+ "1" +:+ tb +:+ "9.99" +:+ nl +:+ "2" +:+ tb +:+ "\N".

(** One table [t] with one column and [n] rows, each [width] times the
    character [c]. *)
Fixpoint repeat_string (n : nat) (s : string) : string :=
  match n with
  | O => ""
  | S k => s +:+ repeat_string k s
  end.

Definition table_dump (n width : nat) (c : ascii) : string :=
  "COPY t (a) FROM stdin;" +:+ nl
  +:+ repeat_string n (repeat_string width (String c "") +:+ nl)
  +:+ "\." +:+ nl.

(** An export file with a header line and [n] data lines. *)
Fixpoint data_lines (n : nat) : string :=
  match n with
  | O => ""
  | S k => "x" +:+ nl +:+ data_lines k
  end.

Definition csv_with_rows (n : nat) : string := "id" +:+ nl +:+ data_lines n.

(** A new export next to a previous one. *)
Definition two_exports : filesystem :=
  {[ "csv_export" :=
       {[ "orders.csv" := csv_with_rows 10; "new.csv" := csv_with_rows 1;
          "same.csv" := csv_with_rows 2; "notes.txt" := "n" ]};
     "Last CSV Export" :=
       {[ "orders.csv" := csv_with_rows 7; "gone.csv" := csv_with_rows 4;
          "same.csv" := csv_with_rows 2 ]} ]}.

(** ** What a match of the header pattern looks like *)

Module Shape.

Definition all_of (p : ascii -> bool) (w : string) : Prop :=
  string_all p w = true.

Definition some_of (p : ascii -> bool) (w : string) : Prop :=
  w <> "" /\ string_all p w = true.

(** The text a regex consumes, and how it extends the captures. *)
Inductive matches (ic : bool)
  : Re.regex -> string -> Re.captures -> Re.captures -> Prop :=
| m_lit p c caps :
    Re.lit_matches ic p c = true ->
    matches ic (Re.Lit p) (String c "") caps caps
| m_plus cl w caps :
    some_of (Re.in_class cl) w -> matches ic (Re.Plus cl) w caps caps
| m_star cl w caps :
    all_of (Re.in_class cl) w -> matches ic (Re.Star cl) w caps caps
| m_lazy cl w caps :
    all_of (Re.in_class cl) w -> matches ic (Re.LazyStar cl) w caps caps
| m_cat r1 r2 w1 w2 c0 c1 c2 :
    matches ic r1 w1 c0 c1 -> matches ic r2 w2 c1 c2 ->
    matches ic (Re.Cat r1 r2) (w1 +:+ w2) c0 c2
| m_opt_some r w c0 c1 :
    matches ic r w c0 c1 -> matches ic (Re.Opt r) w c0 c1
| m_opt_none r c : matches ic (Re.Opt r) "" c c
| m_group n r w c0 c1 :
    matches ic r w c0 c1 -> matches ic (Re.Group n r) w c0 (<[n := w]> c1).

Definition qualifier (schema : option string) : string :=
  match schema with
  | Some sch => sch +:+ "."
  | None => ""
  end.

(** A header line, read off the pattern: the introducer keyword, the
    optional qualifier, the table identifier, the parenthesised column
    text and the stdin-source marker. *)
Definition header (line : string) (schema : option string)
    (table cols : string) : Prop :=
  exists kw ws1 ws2 ws3 kw_from ws4 kw_stdin rest,
    line = kw +:+ ws1 +:+ qualifier schema +:+ table +:+ ws2 +:+ "("
           +:+ cols +:+ ")" +:+ ws3 +:+ kw_from +:+ ws4 +:+ kw_stdin
           +:+ rest
    /\ lower kw = "copy" /\ lower kw_from = "from"
    /\ lower kw_stdin = "stdin"
    /\ some_of Char.isspace ws1 /\ all_of Char.isspace ws2
    /\ some_of Char.isspace ws3 /\ some_of Char.isspace ws4
    /\ some_of Char.isword table
    /\ (forall sch, schema = Some sch -> some_of Char.isword sch)
    /\ all_of (fun c => negb (bool_decide (c = Char.lf))) cols.

End Shape.

(** ** The files a state stands for *)

(** The output directory as it would be stored if the current handle
    were closed now. *)
Definition stored (st : scanner) : directory := out_files (close_current st).

(** Appending text to a stored file. *)
Definition append_file (name data : string) (d : directory) : directory :=
  <[name := default "" (d !! name) +:+ data]> d.

(** What a state of the loop determines about the run, leaving out
    what waits in the output handle, the log and the row total. *)
Record view := {
  v_files : directory;
  v_table : option string;
  v_columns : list string;
  v_in_copy : bool;
  v_found : Z
}.

Definition view_of (st : scanner) : view :=
  {| v_files := stored st; v_table := current_table st;
     v_columns := current_columns st; v_in_copy := in_copy_data st;
     v_found := tables_found st |}.

(** The effect of one line on a view. *)
Definition view_step (v : view) (line : string) : view :=
  match header_of line with
  | Some (t, cols) =>
      {| v_files := <[csv_name t := Csv.row cols]> (v_files v);
         v_table := Some t; v_columns := cols; v_in_copy := true;
         v_found := v_found v + 1 |}
  | None =>
      if v_in_copy v then
        if bool_decide (strip line = "\.") then
          {| v_files := v_files v; v_table := v_table v;
             v_columns := v_columns v; v_in_copy := false;
             v_found := v_found v |}
        else
          match parse_data_row line with
          | Some fields =>
              if bool_decide (length fields = length (v_columns v))
              then
                {| v_files := append_file (csv_name (fmt_table (v_table v)))
                                (Csv.row fields) (v_files v);
                   v_table := v_table v; v_columns := v_columns v;
                   v_in_copy := true; v_found := v_found v |}
              else v
          | None => v
          end
      else v
  end.

(** The lines of a dump that the loop recognises as headers. *)
Definition is_header (line : string) : bool :=
  match header_of line with Some _ => true | None => false end.

(** The file names of the tables whose headers occur in [lines]. *)
Fixpoint table_files (lines : list string) : list string :=
  match lines with
  | [] => []
  | line :: rest =>
      match header_of line with
      | Some (t, _) => csv_name t :: table_files rest
      | None => table_files rest
      end
  end.

(** A dump in which table [t] is loaded twice. *)
Definition twice_dump : string :=
  "COPY t (a) FROM stdin;" +:+ nl +:+ "1" +:+ nl +:+ "\." +:+ nl +:+
  "COPY public.t (a) FROM stdin;" +:+ nl +:+ "2" +:+ nl +:+ "3" +:+ nl +:+
  "\." +:+ nl.

(** No character of [s] satisfies [p]. *)
Definition free_of (p : ascii -> bool) (s : string) : Prop :=
  contains_char p s = false.

Definition is_char (c : ascii) : ascii -> bool :=
  fun x => bool_decide (x = c).

(** How many times [c] occurs in [s]. *)
Fixpoint count_char (c : ascii) (s : string) : nat :=
  match s with
  | EmptyString => O
  | String x s' => (if bool_decide (x = c) then 1 else 0) + count_char c s'
  end.

(** The next character, if any, is outside [p]. *)
Definition stops (p : ascii -> bool) (s : string) : Prop :=
  forall c s', s = String c s' -> p c = false.

Definition is_eol (c : ascii) : bool :=
  is_char Char.cr c || is_char Char.lf c.

(** A line as text-mode iteration yields it: not empty, free of line
    breaks but for one line feed at its end. *)
Definition clean_line (l : string) : Prop :=
  exists body,
    free_of is_eol body
    /\ (l = body +:+ String Char.lf "" \/ (l = body /\ body <> "")).

(** Whether a data line has as many fields as there are columns. *)
Definition accepted (cols : list string) (line : string) : bool :=
  match parse_data_row line with
  | Some fields => bool_decide (length fields = length cols)
  | None => false
  end.

(** A column name as a header writes it: bare, or between double
    quotes. *)
Definition render_column (c : bool * string) : string :=
  if c.1 then String Char.dquote (c.2 +:+ String Char.dquote "") else c.2.

(** ** Facts about strings *)

Lemma string_app_cons (x : ascii) (a b : string) :
  String x a +:+ b = String x (a +:+ b).
Proof. reflexivity. Qed.

Lemma string_app_nil_l (a : string) : "" +:+ a = a.
Proof. reflexivity. Qed.

Lemma string_app_assoc (a b c : string) : (a +:+ b) +:+ c = a +:+ b +:+ c.
Proof.
  induction a as [|x a IH]; [reflexivity |].
  rewrite !string_app_cons. now f_equal.
Qed.

Lemma string_app_nil_r (a : string) : a +:+ "" = a.
Proof.
  induction a as [|x a IH]; [reflexivity |].
  rewrite string_app_cons. now f_equal.
Qed.

Lemma string_length_app (a b : string) :
  String.length (a +:+ b) = (String.length a + String.length b)%nat.
Proof.
  induction a as [|x a IH]; [reflexivity |].
  rewrite string_app_cons. simpl. now f_equal.
Qed.

Lemma substring_app_l (w s : string) :
  String.substring 0 (String.length w) (w +:+ s) = w.
Proof.
  induction w as [|x w IH].
  - now destruct s.
  - rewrite string_app_cons. simpl. now f_equal.
Qed.

Lemma consumed_app (w s : string) : Re.consumed (w +:+ s) s = w.
Proof.
  unfold Re.consumed. rewrite string_length_app.
  replace (String.length w + String.length s - String.length s)%nat
    with (String.length w) by lia.
  apply substring_app_l.
Qed.

Lemma string_all_cons p c w :
  string_all p (String c w) = p c && string_all p w.
Proof. reflexivity. Qed.

Lemma string_all_app p a b :
  string_all p (a +:+ b) = string_all p a && string_all p b.
Proof.
  induction a as [|x a IH]; [reflexivity |].
  rewrite string_app_cons, !string_all_cons, IH. now rewrite andb_assoc.
Qed.

(** ** Soundness of the matcher *)

Section run_sound.
Context {R : Type}.
Implicit Types (k : string -> option R) (s w : string).

Lemma star_greedy_sound p k s res :
  Re.star_greedy p k s = Some res ->
  exists w s', s = w +:+ s' /\ string_all p w = true /\ k s' = Some res.
Proof.
  induction s as [|c s IH]; simpl; intros H.
  - exists "", "". auto.
  - destruct (p c) eqn:Hp.
    + destruct (Re.star_greedy p k s) as [r|] eqn:Hs; simpl in H.
      * inversion H; subst r. destruct (IH eq_refl) as (w & s' & -> & Hw & Hk).
        exists (String c w), s'. rewrite string_all_cons, Hp, Hw. auto.
      * exists "", (String c s). auto.
    + exists "", (String c s). auto.
Qed.

Lemma plus_greedy_sound p k s res :
  Re.plus_greedy p k s = Some res ->
  exists w s', s = w +:+ s' /\ Shape.some_of p w /\ k s' = Some res.
Proof.
  destruct s as [|c s]; simpl; [discriminate |].
  destruct (p c) eqn:Hp; [| discriminate]. intros H.
  destruct (star_greedy_sound _ _ _ _ H) as (w & s' & -> & Hw & Hk).
  exists (String c w), s'. split; [reflexivity |]. split; [| exact Hk].
  split; [discriminate |]. now rewrite string_all_cons, Hp, Hw.
Qed.

Lemma star_lazy_sound p k s res :
  Re.star_lazy p k s = Some res ->
  exists w s', s = w +:+ s' /\ string_all p w = true /\ k s' = Some res.
Proof.
  induction s as [|c s IH]; simpl; intros H.
  - destruct (k "") eqn:Hk; simpl in H; [| discriminate].
    exists "", "". inversion H; subst. auto.
  - destruct (k (String c s)) eqn:Hk; simpl in H.
    + exists "", (String c s). inversion H; subst. auto.
    + destruct (p c) eqn:Hp; [| discriminate].
      destruct (IH H) as (w & s' & -> & Hw & Hk').
      exists (String c w), s'. rewrite string_all_cons, Hp, Hw. auto.
Qed.

Lemma run_sound ic r : forall s caps (k : string -> Re.captures -> option R) res,
  Re.run ic r s caps k = Some res ->
  exists w s' caps',
    s = w +:+ s' /\ Shape.matches ic r w caps caps' /\ k s' caps' = Some res.
Proof.
  induction r as [p | cl | cl | cl | r1 IH1 r2 IH2 | r IH | n r IH];
    intros s caps k res H; simpl in H.
  - destruct s as [|c s]; [discriminate |].
    destruct (Re.lit_matches ic p c) eqn:Hm; [| discriminate].
    exists (String c ""), s, caps.
    split; [reflexivity |]. split; [now constructor | exact H].
  - destruct (plus_greedy_sound _ _ _ _ H) as (w & s' & -> & Hw & Hk).
    exists w, s', caps.
    split; [reflexivity |]. split; [now constructor | exact Hk].
  - destruct (star_greedy_sound _ _ _ _ H) as (w & s' & -> & Hw & Hk).
    exists w, s', caps.
    split; [reflexivity |]. split; [now constructor | exact Hk].
  - destruct (star_lazy_sound _ _ _ _ H) as (w & s' & -> & Hw & Hk).
    exists w, s', caps.
    split; [reflexivity |]. split; [now constructor | exact Hk].
  - destruct (IH1 _ _ _ _ H) as (w1 & s1 & c1 & -> & M1 & H1).
    destruct (IH2 _ _ _ _ H1) as (w2 & s2 & c2 & -> & M2 & H2).
    exists (w1 +:+ w2), s2, c2. rewrite string_app_assoc.
    split; [reflexivity |]. split; [econstructor; eauto | exact H2].
  - destruct (Re.run ic r s caps k) as [x|] eqn:Hr; simpl in H.
    + inversion H; subst x.
      destruct (IH _ _ _ _ Hr) as (w & s' & c' & -> & M & Hk).
      exists w, s', c'.
      split; [reflexivity |]. split; [now apply Shape.m_opt_some | exact Hk].
    + exists "", s, caps.
      split; [reflexivity |]. split; [apply Shape.m_opt_none | exact H].
  - destruct (IH _ _ _ _ H) as (w & s' & c' & -> & M & Hk).
    rewrite consumed_app in Hk.
    exists w, s', (<[n := w]> c').
    split; [reflexivity |]. split; [now constructor | exact Hk].
Qed.
End run_sound.

Lemma rmatch_sound ic r line m :
  Re.rmatch ic r line = Some m ->
  exists w rest, line = w +:+ rest /\ Shape.matches ic r w ∅ m.
Proof.
  intros H. destruct (run_sound _ _ _ _ _ _ H) as (w & s' & c' & -> & M & Hk).
  inversion Hk; subst. eauto.
Qed.

(** Inversion of [Shape.matches], one lemma per constructor of [regex]. *)
Section matches_inv.
Variable ic : bool.
Implicit Types (w : string) (ca cb : Re.captures).

Lemma matches_lit_inv p w ca cb :
  Shape.matches ic (Re.Lit p) w ca cb ->
  exists c, w = String c "" /\ Re.lit_matches ic p c = true /\ cb = ca.
Proof. inversion 1; subst; eauto. Qed.

Lemma matches_plus_inv cl w ca cb :
  Shape.matches ic (Re.Plus cl) w ca cb ->
  Shape.some_of (Re.in_class cl) w /\ cb = ca.
Proof. inversion 1; subst; eauto. Qed.

Lemma matches_star_inv cl w ca cb :
  Shape.matches ic (Re.Star cl) w ca cb ->
  Shape.all_of (Re.in_class cl) w /\ cb = ca.
Proof. inversion 1; subst; eauto. Qed.

Lemma matches_lazy_inv cl w ca cb :
  Shape.matches ic (Re.LazyStar cl) w ca cb ->
  Shape.all_of (Re.in_class cl) w /\ cb = ca.
Proof. inversion 1; subst; eauto. Qed.

Lemma matches_cat_inv r1 r2 w ca cd :
  Shape.matches ic (Re.Cat r1 r2) w ca cd ->
  exists w1 w2 cm,
    w = w1 +:+ w2 /\ Shape.matches ic r1 w1 ca cm
    /\ Shape.matches ic r2 w2 cm cd.
Proof. inversion 1; subst; eauto 7. Qed.

Lemma matches_opt_inv r w ca cb :
  Shape.matches ic (Re.Opt r) w ca cb ->
  Shape.matches ic r w ca cb \/ (w = "" /\ cb = ca).
Proof. inversion 1; subst; eauto. Qed.

Lemma matches_group_inv n r w ca cb :
  Shape.matches ic (Re.Group n r) w ca cb ->
  exists c', Shape.matches ic r w ca c' /\ cb = <[n := w]> c'.
Proof. inversion 1; subst; eauto. Qed.
End matches_inv.

Lemma lit_matches_lower p c :
  Re.lit_matches true p c = true -> Char.lower c = Char.lower p.
Proof. unfold Re.lit_matches. intros H. now apply bool_decide_eq_true in H. Qed.

Lemma lower_app (a b : string) : lower (a +:+ b) = lower a +:+ lower b.
Proof.
  induction a as [|x a IH]; [reflexivity |].
  rewrite string_app_cons. simpl. rewrite string_app_cons. now f_equal.
Qed.

Lemma matches_lits kw : forall r w c0 c1,
  Shape.matches true (Re.lits kw r) w c0 c1 ->
  exists w1 w2,
    w = w1 +:+ w2 /\ lower w1 = lower kw /\ Shape.matches true r w2 c0 c1.
Proof.
  induction kw as [|p kw IH]; intros r w c0 c1 H; simpl in H.
  - exists "", w. auto.
  - apply matches_cat_inv in H as (w1 & w2 & c' & -> & H1 & H2).
    apply matches_lit_inv in H1 as (c & -> & Hc & ->).
    apply IH in H2 as (w3 & w4 & -> & Hl & H2).
    exists (String c w3), w4. split; [reflexivity |]. split; [| exact H2].
    simpl. f_equal; [now apply lit_matches_lower | exact Hl].
Qed.

(** A match of the header pattern fixes the three groups and the shape
    of the line. *)
Lemma copy_pattern_shape line m :
  Re.rmatch true COPY_PATTERN line = Some m ->
  exists table cols,
    m !! 2%nat = Some table /\ m !! 3%nat = Some cols
    /\ Shape.header line (m !! 1%nat) table cols.
Proof.
  intros H. apply rmatch_sound in H as (w & rest & -> & H).
  unfold COPY_PATTERN in H.
  apply matches_lits in H as (kw & w1 & -> & Hkw & H).
  apply matches_cat_inv in H as (ws1 & w2 & c1 & -> & Hws1 & H).
  apply matches_plus_inv in Hws1 as (Hws1 & ->).
  apply matches_cat_inv in H as (q & w3 & c2 & -> & Hq & H).
  apply matches_cat_inv in H as (table & w4 & c3 & -> & Ht & H).
  apply matches_group_inv in Ht as (c3' & Ht & ->).
  apply matches_plus_inv in Ht as (Ht & ->).
  apply matches_cat_inv in H as (ws2 & w5 & c4 & -> & Hws2 & H).
  apply matches_star_inv in Hws2 as (Hws2 & ->).
  apply matches_cat_inv in H as (lp & w6 & c5 & -> & Hlp & H).
  apply matches_lit_inv in Hlp as (clp & -> & Hlp & ->).
  apply matches_cat_inv in H as (cols & w7 & c6 & -> & Hc & H).
  apply matches_group_inv in Hc as (c6' & Hc & ->).
  apply matches_lazy_inv in Hc as (Hc & ->).
  apply matches_cat_inv in H as (rp & w8 & c7 & -> & Hrp & H).
  apply matches_lit_inv in Hrp as (crp & -> & Hrp & ->).
  apply matches_cat_inv in H as (ws3 & w9 & c8 & -> & Hws3 & H).
  apply matches_plus_inv in Hws3 as (Hws3 & ->).
  apply matches_lits in H as (kwf & w10 & -> & Hkwf & H).
  apply matches_cat_inv in H as (ws4 & w11 & c9 & -> & Hws4 & H).
  apply matches_plus_inv in Hws4 as (Hws4 & ->).
  apply matches_lits in H as (kws & w12 & -> & Hkws & H).
  apply matches_lit_inv in H as (cn & -> & Hcn & ->).
  apply lit_matches_lower in Hlp, Hrp, Hcn.
  assert (clp = "("%char) as ->.
  { revert Hlp. clear. destruct clp as [[] [] [] [] [] [] [] []]; now vm_compute. }
  assert (crp = ")"%char) as ->.
  { revert Hrp. clear. destruct crp as [[] [] [] [] [] [] [] []]; now vm_compute. }
  assert (Hq' : exists schema, q = Shape.qualifier schema
            /\ c2 = match schema with Some s => <[1%nat := s]> ∅ | None => ∅ end
            /\ (forall sch, schema = Some sch -> Shape.some_of Char.isword sch)).
  { apply matches_opt_inv in Hq as [Hq | [-> ->]].
    - apply matches_cat_inv in Hq as (sch & dot & c' & -> & Hs & Hd).
      apply matches_group_inv in Hs as (c'' & Hs & ->).
      apply matches_plus_inv in Hs as (Hs & ->).
      apply matches_lit_inv in Hd as (cd & -> & Hd & ->).
      apply lit_matches_lower in Hd.
      assert (cd = "."%char) as ->.
      { revert Hd. clear. destruct cd as [[] [] [] [] [] [] [] []]; now vm_compute. }
      exists (Some sch). split; [reflexivity |]. split; [reflexivity |].
      intros ? [= <-]. exact Hs.
    - exists None. split; [reflexivity |]. split; [reflexivity |]. discriminate. }
  destruct Hq' as (schema & -> & -> & Hsch).
  exists table, cols.
  assert (Hl1 : (<[3%nat := cols]> (<[2%nat := table]>
            (match schema with Some s => <[1%nat := s]> ∅ | None => ∅ end)) : Re.captures)
            !! 1%nat = schema).
  { destruct schema; now simplify_map_eq. }
  split; [now simplify_map_eq |]. split; [now simplify_map_eq |].
  rewrite Hl1.
  exists kw, ws1, ws2, ws3, kwf, ws4, (kws +:+ String cn ""), rest.
  split.
  { rewrite !string_app_assoc. reflexivity. }
  split; [exact Hkw |]. split; [exact Hkwf |].
  split. { rewrite lower_app, Hkws. simpl. now rewrite Hcn. }
  split; [exact Hws1 |]. split; [exact Hws2 |]. split; [exact Hws3 |].
  split; [exact Hws4 |]. split; [exact Ht |]. split; [exact Hsch | exact Hc].
Qed.

(** ** Claim C1: the derived table name *)

(** C1, as stated, fails: the schema qualifier [PUBLIC] is not the string
    [public], yet the derived table name is the bare table identifier,
    not [PUBLIC_orders]. *)
Lemma table_name_uppercase_public_counterexample :
  exists m,
    Re.rmatch true COPY_PATTERN "COPY PUBLIC.orders (id) FROM stdin;" = Some m
    /\ m !! 1%nat = Some "PUBLIC" /\ m !! 2%nat = Some "orders"
    /\ "PUBLIC" <> "public"
    /\ parse_copy_statement "COPY PUBLIC.orders (id) FROM stdin;"
       = Some ("orders", ["id"])
    /\ "orders" <> "PUBLIC" +:+ "_" +:+ "orders".
Proof.
  eexists. split; [vm_compute; reflexivity |].
  repeat split; try discriminate; now vm_compute.
Qed.

(** C1 (amended): for every line that matches the header pattern, with
    schema group [m !! 1], table group [table] and the shape
    [Shape.header], [parse_copy_statement] returns as table name the bare
    table identifier when the schema qualifier is absent or equals
    [public] ignoring letter case, and the schema and table identifiers
    joined by an underscore otherwise. *)
Theorem parse_copy_statement_table_name line m :
  Re.rmatch true COPY_PATTERN line = Some m ->
  exists table cols,
    m !! 2%nat = Some table /\ m !! 3%nat = Some cols
    /\ Shape.header line (m !! 1%nat) table cols
    /\ parse_copy_statement line
       = Some (match m !! 1%nat with
               | None => table
               | Some sch =>
                   if bool_decide (lower sch = "public") then table
                   else sch +:+ "_" +:+ table
               end,
               parse_column <$> split Char.comma cols).
Proof.
  intros H. destruct (copy_pattern_shape _ _ H) as (table & cols & H2 & H3 & Hs).
  exists table, cols. repeat (split; [assumption |]).
  unfold parse_copy_statement. rewrite H, H2, H3. do 2 f_equal.
  unfold full_table_name. destruct (m !! 1%nat) as [sch|] eqn:H1; [| reflexivity].
  destruct Hs as (? & ? & ? & ? & ? & ? & ? & ? & _ & _ & _ & _ & _ & _ & _ & _ & _ & Hsch & _).
  destruct (Hsch sch eq_refl) as [Hne _].
  rewrite (bool_decide_eq_false_2 _ Hne). simpl.
  now destruct (bool_decide (lower sch = "public")).
Qed.

Lemma parse_copy_statement_table_name_witness :
  exists table cols,
    ({[1%nat := "ar"; 2%nat := "items"; 3%nat := "sku"]} : gmap nat string)
      !! 2%nat = Some table
    /\ ({[1%nat := "ar"; 2%nat := "items"; 3%nat := "sku"]} : gmap nat string)
      !! 3%nat = Some cols
    /\ Shape.header "COPY ar.items (sku) FROM stdin;"
         (({[1%nat := "ar"; 2%nat := "items"; 3%nat := "sku"]}
            : gmap nat string) !! 1%nat) table cols
    /\ parse_copy_statement "COPY ar.items (sku) FROM stdin;"
       = Some (match ({[1%nat := "ar"; 2%nat := "items"; 3%nat := "sku"]}
                        : gmap nat string) !! 1%nat with
               | None => table
               | Some sch =>
                   if bool_decide (lower sch = "public") then table
                   else sch +:+ "_" +:+ table
               end,
               parse_column <$> split Char.comma cols).
Proof.
  apply (parse_copy_statement_table_name "COPY ar.items (sku) FROM stdin;").
  vm_compute. reflexivity.
Defined.

(** ** Facts about the file objects and the loop body *)

Section ScannerFacts.
Variable buffer_size : N.

Lemma handle_text_fresh name out :
  handle_text (open_w name out).1 (open_w name out).2 = "".
Proof. unfold handle_text, open_w. simpl. now rewrite lookup_insert_eq. Qed.

(** Handing data to the buffer keeps the text of the file and touches
    no other file. *)
Lemma buffer_write_spec h data out :
  h_name (buffer_write buffer_size h data out).1 = h_name h
  /\ h_closed (buffer_write buffer_size h data out).1 = h_closed h
  /\ h_pending (buffer_write buffer_size h data out).1 = h_pending h
  /\ default "" ((buffer_write buffer_size h data out).2 !! h_name h)
       +:+ h_buffer (buffer_write buffer_size h data out).1
     = default "" (out !! h_name h) +:+ h_buffer h +:+ data
  /\ (is_Some (out !! h_name h) ->
      is_Some ((buffer_write buffer_size h data out).2 !! h_name h))
  /\ (forall name, name <> h_name h ->
        (buffer_write buffer_size h data out).2 !! name = out !! name)
  /\ (forall text,
        <[h_name h := text]> (buffer_write buffer_size h data out).2
        = <[h_name h := text]> out).
Proof.
  unfold buffer_write, raw_write.
  destruct (_ <=? _)%N; [| destruct (_ <? _)%N]; simpl.
  - repeat split; auto.
  - rewrite !lookup_insert_eq. simpl.
    rewrite string_app_nil_r, string_app_assoc.
    repeat split; auto.
    + intros name Hn. now rewrite !lookup_insert_ne.
    + intros text. now rewrite !insert_insert_eq.
  - rewrite lookup_insert_eq. simpl. rewrite string_app_assoc.
    repeat split; auto.
    + intros name Hn. now rewrite lookup_insert_ne.
    + intros text. now rewrite insert_insert_eq.
Qed.

Lemma text_flush_spec h out :
  h_name (text_flush buffer_size h out).1 = h_name h
  /\ h_closed (text_flush buffer_size h out).1 = h_closed h
  /\ h_pending (text_flush buffer_size h out).1 = ""
  /\ handle_text (text_flush buffer_size h out).1
       (text_flush buffer_size h out).2
     = handle_text h out
  /\ (is_Some (out !! h_name h) ->
      is_Some ((text_flush buffer_size h out).2 !! h_name h))
  /\ (forall name, name <> h_name h ->
        (text_flush buffer_size h out).2 !! name = out !! name)
  /\ (forall text,
        <[h_name h := text]> (text_flush buffer_size h out).2
        = <[h_name h := text]> out).
Proof.
  unfold text_flush.
  destruct (buffer_write_spec
              {| h_name := h_name h; h_pending := ""; h_buffer := h_buffer h;
                 h_closed := h_closed h |} (h_pending h) out)
    as (Hn & Hc & Hp & Ht & Hs & Ho & Hi).
  destruct (buffer_write buffer_size _ (h_pending h) out) as [h1 out1].
  simpl in *. repeat split; auto.
  unfold handle_text. rewrite Hn, Hp, string_app_nil_r. exact Ht.
Qed.

(** Writing to an open handle succeeds, appends to the text of the
    file and touches no other file. *)
Lemma write_open h data out :
  h_closed h = false ->
  exists h' out',
    write buffer_size h data out = Some (h', out')
    /\ h_name h' = h_name h /\ h_closed h' = false
    /\ handle_text h' out' = handle_text h out +:+ data
    /\ (is_Some (out !! h_name h) -> is_Some (out' !! h_name h))
    /\ (forall name, name <> h_name h -> out' !! name = out !! name)
    /\ (forall text,
          <[h_name h := text]> out' = <[h_name h := text]> out).
Proof.
  intros Hc. unfold write. rewrite Hc.
  assert (H1 : exists h1 out1,
            (if (CHUNK_SIZE
                 <? encoded_length (h_pending h) + encoded_length data)%N
             then text_flush buffer_size h out else (h, out)) = (h1, out1)
            /\ h_name h1 = h_name h /\ h_closed h1 = false
            /\ handle_text h1 out1 = handle_text h out
            /\ (is_Some (out !! h_name h) -> is_Some (out1 !! h_name h))
            /\ (forall name, name <> h_name h -> out1 !! name = out !! name)
            /\ (forall text,
                  <[h_name h := text]> out1 = <[h_name h := text]> out)).
  { destruct (_ <? _)%N.
    - destruct (text_flush_spec h out) as (Hn & Hcl & _ & Ht & Hs & Ho & Hi).
      destruct (text_flush buffer_size h out) as [h1 out1]. simpl in *.
      exists h1, out1. rewrite Hcl. auto 10.
    - exists h, out. auto 10. }
  destruct H1 as (h1 & out1 & -> & Hn1 & Hc1 & Ht1 & Hs1 & Ho1 & Hi1).
  set (h2 := {| h_name := h_name h1; h_pending := h_pending h1 +:+ data;
                h_buffer := h_buffer h1; h_closed := h_closed h1 |}).
  assert (Ht2 : handle_text h2 out1 = handle_text h out +:+ data).
  { rewrite <- Ht1. unfold handle_text. simpl.
    now rewrite !string_app_assoc. }
  destruct (_ <=? _)%N.
  - destruct (text_flush_spec h2 out1) as (Hn & Hcl & _ & Ht & Hs & Ho & Hi).
    destruct (text_flush buffer_size h2 out1) as [h3 out3]. simpl in *.
    exists h3, out3. split; [reflexivity |].
    rewrite Hn, Hcl, Ht, Ht2, Hn1, Hc1. repeat split; auto.
    + rewrite Hn1 in Hs. auto.
    + intros name Hne. rewrite Ho by congruence. auto.
    + intros text. rewrite Hn1 in Hi. rewrite Hi. auto.
  - exists h2, out1. split; [reflexivity |]. simpl.
    rewrite Hn1, Hc1. repeat split; auto.
Qed.

(** Closing stores all the text of the file. *)
Lemma close_open h out :
  h_closed h = false ->
  close h out
  = ({| h_name := h_name h; h_pending := ""; h_buffer := "";
        h_closed := true |},
     <[h_name h := handle_text h out]> out).
Proof. intros Hc. unfold close. now rewrite Hc. Qed.

Lemma progress_fields n st :
  out_files (progress n st) = out_files st
  /\ current_csv (progress n st) = current_csv st
  /\ current_table (progress n st) = current_table st
  /\ current_columns (progress n st) = current_columns st
  /\ in_copy_data (progress n st) = in_copy_data st
  /\ tables_found (progress n st) = tables_found st
  /\ total_rows (progress n st) = total_rows st.
Proof. unfold progress. destruct (_ =? _); simpl; auto 10. Qed.

Lemma wf_add_log e st : wf st -> wf (add_log e st).
Proof. intros H. exact H. Qed.

Lemma wf_progress n st : wf st -> wf (progress n st).
Proof. unfold progress. destruct (_ =? _); auto using wf_add_log. Qed.

Lemma wf_init out lg : wf (init_scanner out lg).
Proof. split; simpl; intros; discriminate. Qed.

(** The four cases of the loop body. *)
Lemma step_header n line st t cols :
  header_of line = Some (t, cols) ->
  step buffer_size n line st = start_table buffer_size t cols (progress n st).
Proof. intros H. unfold step. now rewrite H. Qed.

Lemma step_sentinel n line st :
  header_of line = None -> in_copy_data st = true -> strip line = "\." ->
  step buffer_size n line st = end_table (progress n st).
Proof.
  intros H Hi Hs. unfold step. rewrite H.
  destruct (progress_fields n st) as (_ & _ & _ & _ & -> & _). rewrite Hi.
  now rewrite bool_decide_eq_true_2.
Qed.

Lemma step_data n line st :
  header_of line = None -> in_copy_data st = true -> strip line <> "\." ->
  step buffer_size n line st = data_row buffer_size line (progress n st).
Proof.
  intros H Hi Hs. unfold step. rewrite H.
  destruct (progress_fields n st) as (_ & _ & _ & _ & -> & _). rewrite Hi.
  now rewrite bool_decide_eq_false_2.
Qed.

Lemma step_idle n line st :
  header_of line = None -> in_copy_data st = false ->
  step buffer_size n line st = Continue (progress n st).
Proof.
  intros H Hi. unfold step. rewrite H.
  destruct (progress_fields n st) as (_ & _ & _ & _ & -> & _). now rewrite Hi.
Qed.

(** A recognised header always opens its table. *)
Lemma start_table_spec t cols st :
  exists st' h,
    start_table buffer_size t cols st = Continue st'
    /\ current_csv st' = Some h /\ h_name h = csv_name t
    /\ handle_text h (out_files st') = Csv.row cols
    /\ current_table st' = Some t /\ current_columns st' = cols
    /\ in_copy_data st' = true
    /\ tables_found st' = tables_found st + 1
    /\ total_rows st' = total_rows st
    /\ log st' = log st ++ [(INFO, ExtractingTable t)]
    /\ wf st'.
Proof.
  unfold start_table, writerow.
  set (out1 := match current_csv st with
               | Some h => (close h (out_files st)).2
               | None => out_files st
               end).
  pose proof (handle_text_fresh (csv_name t) out1) as Hfresh.
  destruct (open_w (csv_name t) out1) as [h out2] eqn:Ho.
  assert (Hh : h_closed h = false /\ h_name h = csv_name t
               /\ is_Some (out2 !! h_name h)).
  { unfold open_w in Ho. inversion Ho; subst; simpl.
    rewrite lookup_insert_eq. eauto. }
  destruct Hh as (Hc & Hn & Hs). simpl in Hfresh.
  destruct (write_open h (Csv.row cols) out2 Hc)
    as (h' & out3 & -> & Hn' & Hc' & Ht & Hs' & _ & _).
  eexists _, h'. split; [reflexivity |]. simpl.
  rewrite Ht, Hfresh, Hn', Hn. repeat (split; [reflexivity |]).
  split; simpl.
  - intros hx [= <-]. rewrite Hn', Hc'. split; [reflexivity | auto].
  - intros _. exists t, h'. rewrite Hn', Hn. auto.
Qed.

(** Inside a data block the end-of-data line always succeeds. *)
Lemma end_table_spec st :
  wf st -> in_copy_data st = true ->
  exists t content,
    current_table st = Some t
    /\ out_files st !! csv_name t = Some content
    /\ end_table st
       = Continue
           {| out_files := out_files st; current_csv := current_csv st;
              current_table := current_table st;
              current_columns := current_columns st;
              in_copy_data := false; tables_found := tables_found st;
              total_rows := total_rows st + (count_lines content - 1);
              log := log st
                     ++ [(SUCCESS, RowsExported (count_lines content - 1))] |}.
Proof.
  intros [Hh Hi] Hin. destruct (Hi Hin) as (t & h & Ht & Hcur & Hn).
  destruct (Hh h Hcur) as [_ [content Hc]]. rewrite Hn in Hc.
  exists t, content. repeat split; auto.
  unfold end_table. rewrite Ht. simpl. now rewrite Hc.
Qed.

(** A data row either appends one record to the file of the current
    table or logs a warning. *)
Lemma data_row_spec line st :
  wf st -> in_copy_data st = true ->
  parse_data_row line <> None ->
  exists t h fields,
    current_table st = Some t /\ current_csv st = Some h
    /\ parse_data_row line = Some fields
    /\ ((length fields = length (current_columns st)
         /\ exists h' out',
              writerow buffer_size h fields (out_files st) = Some (h', out')
              /\ data_row buffer_size line st
                 = Continue
                     {| out_files := out'; current_csv := Some h';
                        current_table := current_table st;
                        current_columns := current_columns st;
                        in_copy_data := in_copy_data st;
                        tables_found := tables_found st;
                        total_rows := total_rows st; log := log st |}
              /\ h_name h' = h_name h /\ h_closed h' = false
              /\ handle_text h' out'
                 = handle_text h (out_files st) +:+ Csv.row fields
              /\ is_Some (out' !! h_name h)
              /\ (forall name, name <> h_name h ->
                    out' !! name = out_files st !! name))
        \/ (length fields <> length (current_columns st)
            /\ data_row buffer_size line st
               = Continue (add_log (WARNING, SkippingMalformedRow t) st))).
Proof.
  intros [Hh Hi] Hin Hp. destruct (Hi Hin) as (t & h & Ht & Hcur & Hn).
  destruct (Hh h Hcur) as [Hc Hs].
  destruct (parse_data_row line) as [fields|] eqn:Hparse; [| congruence].
  exists t, h, fields. repeat (split; [reflexivity || assumption |]).
  assert (Hne : fields <> []).
  { unfold parse_data_row in Hparse. destruct (_ || _); [discriminate |].
    inversion Hparse. destruct (split Char.tab (rstrip_newline line)) eqn:E.
    - exfalso. clear -E. revert E. generalize (rstrip_newline line).
      intros s. destruct s as [|c s]; simpl; [discriminate |].
      destruct (bool_decide _); [discriminate |].
      destruct (split Char.tab s); discriminate.
    - discriminate. }
  unfold data_row. rewrite Hparse, Hcur.
  destruct fields as [|f fs]; [congruence |].
  destruct (decide (length (f :: fs) = length (current_columns st))) as [Hl|Hl].
  - left. split; [exact Hl |]. rewrite (bool_decide_eq_true_2 _ Hl).
    unfold writerow.
    destruct (write_open h (Csv.row (f :: fs)) (out_files st) Hc)
      as (h' & out' & Hw & Hn' & Hc' & Htx & Hs' & Ho & _).
    exists h', out'. rewrite Hw. repeat split; auto.
  - right. split; [exact Hl |]. rewrite (bool_decide_eq_false_2 _ Hl).
    now rewrite Ht.
Qed.

End ScannerFacts.

(** ** The loop never raises *)

Lemma strip_sentinel_of_no_row line :
  parse_data_row line = None -> strip line = "\.".
Proof.
  unfold parse_data_row.
  destruct (bool_decide (line = _)) eqn:E1; simpl.
  - apply bool_decide_eq_true in E1. now subst.
  - destruct (bool_decide (line = "\.")) eqn:E2; [| discriminate].
    apply bool_decide_eq_true in E2. now subst.
Qed.

Lemma rstrip_chars_keep p c s :
  p c = false -> rstrip_chars p (String c s) = String c (rstrip_chars p s).
Proof. intros H. simpl. rewrite H. now destruct (rstrip_chars p s). Qed.

Lemma startswith_cons s c p a :
  startswith (String c s) (String a p)
  = if ascii_dec a c then startswith s p else false.
Proof. reflexivity. Qed.

Lemma startswith_copy_strip line :
  startswith line "COPY " = true -> exists s, strip line = String "C" s.
Proof.
  destruct line as [|c rest]; [discriminate |].
  rewrite startswith_cons. destruct (ascii_dec "C" c) as [<-|]; [| discriminate].
  intros _. unfold strip. rewrite rstrip_chars_keep by reflexivity.
  simpl. eauto.
Qed.

Lemma header_not_sentinel line hd :
  header_of line = Some hd -> strip line <> "\.".
Proof.
  unfold header_of. destruct (startswith line "COPY ") eqn:E; [| discriminate].
  intros _. destruct (startswith_copy_strip _ E) as [s ->]. discriminate.
Qed.

Section Totality.
Variable buffer_size : N.

Lemma step_total n line st :
  wf st ->
  exists st', step buffer_size n line st = Continue st' /\ wf st'.
Proof.
  intros Hwf. pose proof (wf_progress n st Hwf) as Hwp.
  destruct (progress_fields n st) as (_ & _ & _ & _ & Hin & _).
  destruct (header_of line) as [[t cols]|] eqn:Hh.
  - rewrite (step_header _ _ _ _ _ _ Hh).
    destruct (start_table_spec buffer_size t cols (progress n st))
      as (st' & h & -> & _ & _ & _ & _ & _ & _ & _ & _ & _ & Hw). eauto.
  - revert Hin. destruct (in_copy_data st) eqn:Hi; intros Hin.
    + destruct (decide (strip line = "\.")) as [Hs|Hs].
      * rewrite step_sentinel by assumption.
        destruct (end_table_spec _ Hwp Hin) as (t & content & _ & _ & ->).
        eexists. split; [reflexivity |].
        destruct Hwp as [Ha Hb]. split; simpl; [exact Ha | discriminate].
      * rewrite step_data by assumption.
        assert (Hp : parse_data_row line <> None).
        { intros E. now apply strip_sentinel_of_no_row in E. }
        destruct (data_row_spec buffer_size line _ Hwp Hin Hp)
          as (t & h & fields & Ht & Hc & _ & [(_ & h' & out' & _ & -> & Hn & Hcl & _ & Hs' & _) | (_ & ->)]).
        -- eexists. split; [reflexivity |].
           destruct Hwp as [Ha Hb]. split; simpl.
           ++ intros hx [= <-]. rewrite Hn. auto.
           ++ intros _. exists t, h'. rewrite Hn.
              destruct (Hb Hin) as (t' & h0 & Ht' & Hc' & Hn').
              rewrite Hc in Hc'. inversion Hc'; subst h0.
              rewrite Ht in Ht'. inversion Ht'; subst t'. auto.
        -- eexists. split; [reflexivity |]. now apply wf_add_log.
    + rewrite step_idle by assumption. eauto.
Qed.

Lemma scan_total lines : forall n st,
  wf st ->
  exists st', scan buffer_size n lines st = Continue st' /\ wf st'.
Proof.
  induction lines as [|line rest IH]; intros n st Hwf; simpl.
  - eauto.
  - destruct (step_total n line st Hwf) as (st1 & -> & Hwf1). now apply IH.
Qed.

(** Once the dump file can be opened, [process_dump] returns [True]. *)
Lemma process_dump_ok dump_file text output_dir fs :
  ok (process_dump buffer_size dump_file (Some text) output_dir fs) = true.
Proof.
  unfold process_dump, run_scan. simpl.
  destruct (scan_total (readlines text) 1
              (add_log (INFO, Scanning) (start_state dump_file output_dir fs)))
    as (st' & -> & _); [apply wf_add_log, wf_init | reflexivity].
Qed.

End Totality.

(** ** Quoting loses no text *)




Lemma parse_data_row_fields line :
  strip line <> "\." ->
  parse_data_row line
  = Some ((fun f => if bool_decide (f = "\N") then "" else f)
            <$> split Char.tab (rstrip_newline line)).
Proof.
  intros Hs. unfold parse_data_row.
  destruct (_ || _) eqn:E; [| reflexivity].
  exfalso. apply Hs. apply strip_sentinel_of_no_row.
  unfold parse_data_row. now rewrite E.
Qed.

(** ** Claim C2: null fields *)


Lemma wf_scanned buffer_size lines : wf (scanned buffer_size lines).
Proof.
  unfold scanned.
  destruct (scan_total buffer_size lines 1 (init_scanner ∅ []))
    as (st & -> & H); [apply wf_init | exact H].
Qed.


(** ** Claim C3: rows with the wrong field count *)

(** C3: a line processed as a data row whose tab-split field count
    differs from the column count of the active header is not written:
    the state after it is the state before it with one warning naming
    the table added to the log.  The stored files, the open handle with
    its pending text, the table and row counters are the same, the data
    block stays open and no exception is raised. *)
Theorem malformed_row_skipped (buffer_size : N) n line st :
  wf st -> in_copy_data st = true ->
  header_of line = None -> strip line <> "\." ->
  length (split Char.tab (rstrip_newline line))
    <> length (current_columns st) ->
  exists t st',
    current_table st = Some t
    /\ step buffer_size n line st = Continue st'
    /\ st' = add_log (WARNING, SkippingMalformedRow t) (progress n st)
    /\ out_files st' = out_files st
    /\ current_csv st' = current_csv st
    /\ total_rows st' = total_rows st
    /\ tables_found st' = tables_found st
    /\ in_copy_data st' = true.
Proof.
  intros Hwf Hin Hh Hs Hlen.
  pose proof (parse_data_row_fields line Hs) as Hp.
  pose proof (wf_progress n st Hwf) as Hwp.
  destruct (progress_fields n st) as (Ho & Hc & Ht & Hcols & Hin' & Htf & Htr).
  assert (Hp' : parse_data_row line <> None) by (rewrite Hp; discriminate).
  assert (Hin2 : in_copy_data (progress n st) = true) by congruence.
  destruct (data_row_spec buffer_size line _ Hwp Hin2 Hp')
    as (t & h & fields' & Ht' & Hcur & Hpf & [(Hgood & _) | (_ & Hd)]).
  - rewrite Hp in Hpf. inversion Hpf; subst fields'.
    rewrite length_fmap in Hgood. congruence.
  - exists t, (add_log (WARNING, SkippingMalformedRow t) (progress n st)).
    rewrite step_data by assumption.
    split; [congruence |]. split; [exact Hd |]. split; [reflexivity |].
    simpl. auto.
Qed.

Lemma malformed_row_skipped_witness :
  wf in_orders /\ in_copy_data in_orders = true
  /\ header_of ("7" +:+ nl) = None /\ strip ("7" +:+ nl) <> "\."
  /\ length (split Char.tab (rstrip_newline ("7" +:+ nl)))
     <> length (current_columns in_orders)
  /\ exists st',
       step 8192 2 ("7" +:+ nl) in_orders = Continue st'
       /\ log st' = log in_orders ++ [(WARNING, SkippingMalformedRow "orders")]
       /\ out_files st' = out_files in_orders
       /\ total_rows st' = 0.
Proof.
  assert (H1 : wf in_orders) by apply wf_scanned.
  assert (H2 : in_copy_data in_orders = true) by (vm_compute; reflexivity).
  assert (H3 : header_of ("7" +:+ nl) = None) by (vm_compute; reflexivity).
  assert (H4 : strip ("7" +:+ nl) <> "\.") by (vm_compute; discriminate).
  assert (H5 : length (split Char.tab (rstrip_newline ("7" +:+ nl)))
               <> length (current_columns in_orders))
    by (vm_compute; discriminate).
  repeat (split; [assumption |]).
  destruct (malformed_row_skipped 8192 2 _ _ H1 H2 H3 H4 H5)
    as (t & st' & Ht & Hstep & -> & Ho & _ & Htr & _).
  eexists. split; [exact Hstep |].
  assert (t = "orders") as -> by (vm_compute in Ht; congruence).
  split; [reflexivity |]. split; [exact Ho |]. rewrite Htr. reflexivity.
Defined.

(** ** Claim C4: the end of a data block *)

(** C4, as stated, fails: a line that still differs from the sentinel
    once its trailing newline is removed (it has a leading space) ends
    the data block. *)
Lemma sentinel_with_blanks_counterexample :
  in_copy_data in_orders = true
  /\ rstrip_newline (" \." +:+ nl) <> "\."
  /\ exists st',
       step 8192 2 (" \." +:+ nl) in_orders = Continue st'
       /\ in_copy_data st' = false.
Proof.
  split; [vm_compute; reflexivity |]. split; [vm_compute; discriminate |].
  eexists. split; [vm_compute; reflexivity | reflexivity].
Qed.

(** C4 (amended): while the scanner is inside a data block, the loop
    body leaves the data block exactly when the line, with all leading
    and trailing whitespace removed, equals the two-character sentinel
    [\.]; on any other line the scanner stays inside a data block. *)
Theorem end_of_block_iff_stripped_sentinel (buffer_size : N) n line st :
  wf st -> in_copy_data st = true ->
  exists st',
    step buffer_size n line st = Continue st'
    /\ (in_copy_data st' = false <-> strip line = "\.").
Proof.
  intros Hwf Hin. pose proof (wf_progress n st Hwf) as Hwp.
  destruct (progress_fields n st) as (_ & _ & _ & _ & Hin' & _).
  assert (Hin2 : in_copy_data (progress n st) = true) by congruence.
  destruct (header_of line) as [[t cols]|] eqn:Hh.
  - rewrite (step_header _ _ _ _ _ _ Hh).
    destruct (start_table_spec buffer_size t cols (progress n st))
      as (st' & h & -> & _ & _ & _ & _ & _ & Hi & _).
    exists st'. split; [reflexivity |]. rewrite Hi.
    split; [discriminate |]. intros Hs.
    now apply header_not_sentinel in Hh.
  - destruct (decide (strip line = "\.")) as [Hs|Hs].
    + rewrite step_sentinel by assumption.
      destruct (end_table_spec _ Hwp Hin2) as (t & content & _ & _ & ->).
      eexists. split; [reflexivity |]. simpl. tauto.
    + pose proof (parse_data_row_fields line Hs) as Hp.
      rewrite step_data by assumption.
      assert (Hp' : parse_data_row line <> None) by (rewrite Hp; discriminate).
      destruct (data_row_spec buffer_size line _ Hwp Hin2 Hp')
        as (t & h & fields' & _ & _ & _
            & [(_ & h' & out' & _ & -> & _) | (_ & ->)]).
      * eexists. split; [reflexivity |]. simpl. rewrite Hin2.
        split; [discriminate | contradiction].
      * eexists. split; [reflexivity |]. simpl. rewrite Hin2.
        split; [discriminate | contradiction].
Qed.

Lemma end_of_block_iff_stripped_sentinel_witness :
  wf in_orders /\ in_copy_data in_orders = true
  /\ exists st',
       step 8192 2 ("\." +:+ nl) in_orders = Continue st'
       /\ in_copy_data st' = false.
Proof.
  assert (H1 : wf in_orders) by apply wf_scanned.
  assert (H2 : in_copy_data in_orders = true) by (vm_compute; reflexivity).
  repeat (split; [assumption |]).
  destruct (end_of_block_iff_stripped_sentinel 8192 2 ("\." +:+ nl) _ H1 H2)
    as (st' & Hstep & Hiff).
  exists st'. split; [exact Hstep |]. apply Hiff. vm_compute. reflexivity.
Defined.

(** ** Claim C5: headers inside a data block *)

(** C5, as stated, fails: inside the data block of table [a], a line
    that matches the header pattern is not handled as a data row of [a]
    (which would leave [a] the current table); it starts table [b]. *)
Lemma header_inside_block_counterexample :
  in_copy_data in_table_a = true
  /\ current_table in_table_a = Some "a"
  /\ strip header_b <> "\."
  /\ (exists st'',
        data_row 8192 header_b (progress 2 in_table_a) = Continue st''
        /\ current_table st'' = Some "a" /\ tables_found st'' = 1)
  /\ exists st',
       step 8192 2 header_b in_table_a = Continue st'
       /\ current_table st' = Some "b" /\ tables_found st' = 2.
Proof.
  split; [vm_compute; reflexivity |]. split; [vm_compute; reflexivity |].
  split; [vm_compute; discriminate |].
  split; eexists; (split; [vm_compute; reflexivity |]); split; reflexivity.
Qed.

(** C5 (amended): header recognition is attempted on every line that
    begins with [COPY ], inside a data block or not: a recognised header
    opens its table whatever the state.  A line processed inside a data
    block that is neither a recognised header nor the end-of-data line
    is handled as a data row of the active table. *)
Theorem header_recognised_in_any_state (buffer_size : N) n line st :
  (forall t cols,
     header_of line = Some (t, cols) ->
     exists st' h,
       step buffer_size n line st = Continue st'
       /\ current_table st' = Some t /\ current_columns st' = cols
       /\ in_copy_data st' = true
       /\ tables_found st' = tables_found st + 1
       /\ current_csv st' = Some h /\ h_name h = csv_name t
       /\ handle_text h (out_files st') = Csv.row cols)
  /\ (in_copy_data st = true -> header_of line = None ->
      strip line <> "\." ->
      step buffer_size n line st
      = data_row buffer_size line (progress n st)).
Proof.
  split.
  - intros t cols Hh. rewrite (step_header _ _ _ _ _ _ Hh).
    destruct (start_table_spec buffer_size t cols (progress n st))
      as (st' & h & -> & Hc & Hn & Htx & Ht & Hcols & Hi & Htf & _).
    destruct (progress_fields n st) as (_ & _ & _ & _ & _ & Htf' & _).
    exists st', h. rewrite Htf, Htf'. auto 10.
  - intros Hi Hh Hs. now apply step_data.
Qed.

Lemma header_recognised_in_any_state_witness :
  header_of header_b = Some ("b", ["y"])
  /\ in_copy_data in_table_a = true
  /\ exists st',
       step 8192 2 header_b in_table_a = Continue st'
       /\ current_table st' = Some "b" /\ in_copy_data st' = true.
Proof.
  assert (H1 : header_of header_b = Some ("b", ["y"]))
    by (vm_compute; reflexivity).
  split; [exact H1 |]. split; [vm_compute; reflexivity |].
  destruct (header_recognised_in_any_state 8192 2 header_b in_table_a)
    as [Hhdr _].
  destruct (Hhdr _ _ H1) as (st' & h & Hs & Ht & _ & Hi & _).
  exists st'. auto.
Defined.

(** ** Claim C10: the introducer must be upper case *)

Lemma run_lit_cat {R} ic p r c s caps (k : string -> Re.captures -> option R) :
  Re.run ic (Re.Cat (Re.Lit p) r) (String c s) caps k
  = if Re.lit_matches ic p c then Re.run ic r s caps k else None.
Proof. reflexivity. Qed.

(** The pattern accepts the introducer keyword in any letter case. *)
Lemma copy_keyword_any_case c o p y rest :
  lower (String c (String o (String p (String y "")))) = "copy" ->
  parse_copy_statement (String c (String o (String p (String y rest))))
  = parse_copy_statement ("COPY" +:+ rest).
Proof.
  intros H. simpl in H. inversion H as [[Hc Ho Hp Hy]].
  unfold parse_copy_statement, Re.rmatch, COPY_PATTERN.
  change (Re.lits "COPY" ?r)
    with (Re.Cat (Re.Lit "C") (Re.Cat (Re.Lit "O")
            (Re.Cat (Re.Lit "P") (Re.Cat (Re.Lit "Y") r)))).
  change ("COPY" +:+ rest)
    with (String "C" (String "O" (String "P" (String "Y" rest)))).
  rewrite !run_lit_cat. unfold Re.lit_matches.
  rewrite Hc, Ho, Hp, Hy. reflexivity.
Qed.

(** C10: a line is recognised as a header only if it begins with the
    exact upper-case prefix [COPY ].  Any other line opens no table:
    outside a data block it changes nothing but the progress notice, and
    inside one it takes the data-block branch.  This holds although the
    pattern itself accepts the keyword in any letter case. *)
Theorem header_needs_uppercase_copy_prefix (buffer_size : N) n line st :
  (forall hd, header_of line = Some hd -> startswith line "COPY " = true)
  /\ (startswith line "COPY " = false ->
      header_of line = None
      /\ step buffer_size n line st
         = (if in_copy_data st then
              if bool_decide (strip line = "\.")
              then end_table (progress n st)
              else data_row buffer_size line (progress n st)
            else Continue (progress n st))
      /\ (forall st', step buffer_size n line st = Continue st' ->
            tables_found st' = tables_found st
            /\ current_table st' = current_table st
            /\ current_columns st' = current_columns st))
  /\ (forall c o p y rest,
        lower (String c (String o (String p (String y "")))) = "copy" ->
        String c (String o (String p (String y ""))) <> "COPY" ->
        parse_copy_statement (String c (String o (String p (String y rest))))
        = parse_copy_statement ("COPY" +:+ rest)
        /\ header_of (String c (String o (String p (String y rest)))) = None).
Proof.
  split; [| split].
  - unfold header_of. destruct (startswith line "COPY "); [auto | discriminate].
  - intros Hp.
    assert (Hh : header_of line = None) by (unfold header_of; now rewrite Hp).
    split; [exact Hh |].
    destruct (progress_fields n st)
      as (Ho & Hc & Ht & Hcols & Hin & Htf & Htr).
    assert (Hstep : step buffer_size n line st
         = (if in_copy_data st then
              if bool_decide (strip line = "\.")
              then end_table (progress n st)
              else data_row buffer_size line (progress n st)
            else Continue (progress n st))).
    { unfold step. now rewrite Hh, Hin. }
    split; [exact Hstep |].
    intros st' Hs. rewrite Hstep in Hs.
    rewrite <- Ht, <- Hcols, <- Htf.
    generalize dependent (progress n st). intros s _ _ _ _ _ _ _ _.
    destruct (in_copy_data st); [| inversion 1; auto].
    destruct (bool_decide _).
    + unfold end_table. destruct (_ !! _); inversion 1; auto.
    + unfold data_row.
      destruct (parse_data_row line) as [[|f fs]|]; try (inversion 1; auto; fail).
      destruct (current_csv s) as [h|]; [| inversion 1; auto].
      destruct (bool_decide _); [| inversion 1; auto].
      destruct (writerow _ _ _ _) as [[h' out']|]; inversion 1; auto.
  - intros c o p y rest Hl Hne.
    split; [now apply copy_keyword_any_case |].
    unfold header_of.
    destruct (startswith _ "COPY ") eqn:E; [| reflexivity].
    exfalso. apply Hne. revert E. rewrite !startswith_cons.
    destruct (ascii_dec "C" c) as [<-|]; [| discriminate].
    destruct (ascii_dec "O" o) as [<-|]; [| discriminate].
    destruct (ascii_dec "P" p) as [<-|]; [| discriminate].
    destruct (ascii_dec "Y" y) as [<-|]; [| discriminate]. reflexivity.
Qed.

Lemma header_needs_uppercase_copy_prefix_witness :
  startswith ("copy ar.items (sku) from stdin;" +:+ nl) "COPY " = false
  /\ parse_copy_statement ("copy ar.items (sku) from stdin;" +:+ nl)
     = Some ("ar_items", ["sku"])
  /\ step 8192 1 ("copy ar.items (sku) from stdin;" +:+ nl) (init_scanner ∅ [])
     = Continue (init_scanner ∅ []).
Proof.
  assert (H1 : startswith ("copy ar.items (sku) from stdin;" +:+ nl) "COPY "
               = false) by (vm_compute; reflexivity).
  split; [exact H1 |]. split; [vm_compute; reflexivity |].
  destruct (header_needs_uppercase_copy_prefix 8192 1
              ("copy ar.items (sku) from stdin;" +:+ nl) (init_scanner ∅ []))
    as (_ & H & _).
  destruct (H H1) as (_ & -> & _). reflexivity.
Defined.

(** ** Claim C6: reported row counts *)

(** C6 at the [orders] scenario: the row count is read back from the
    stored file while the header and both data rows still wait in the
    output handle, so the run reports -1 rows for the table and in
    total, although the file it leaves behind holds two data lines.
    This holds whatever the size of the buffer. *)
Theorem orders_count_read_before_flush (buffer_size : N) :
  ok (process_dump buffer_size "Source Data" (Some orders_dump)
        "csv_export" ∅)
  = true
  /\ log (final (process_dump buffer_size "Source Data" (Some orders_dump)
                   "csv_export" ∅))
     = [(SECTION, ProcessingDump); (INFO, Source "Source Data");
        (INFO, Output "csv_export"); (INFO, Scanning);
        (INFO, ExtractingTable "orders"); (SUCCESS, RowsExported (-1));
        (SECTION, ExportComplete); (SUCCESS, TablesExported 1);
        (SUCCESS, TotalRows (-1))]
  /\ exists content,
       fs_after (process_dump buffer_size "Source Data" (Some orders_dump)
                   "csv_export" ∅) !! "csv_export"
         ≫= (fun d => d !! "orders.csv") = Some content
       /\ readlines content = ["id,total" +:+ nl; "1,9.99" +:+ nl; "2," +:+ nl]
       /\ count_lines content - 1 = 2.
Proof.
  split; [vm_compute; reflexivity |]. split; [vm_compute; reflexivity |].
  eexists. split; [vm_compute; reflexivity |].
  split; vm_compute; reflexivity.
Qed.

(** ** Data blocks *)

Lemma progress_no_count n st :
  exists extra, log (progress n st) = log st ++ extra /\ no_count extra.
Proof.
  unfold progress. destruct (_ =? _); simpl.
  - eexists. split; [reflexivity |]. repeat constructor. discriminate.
  - exists []. rewrite app_nil_r. split; [reflexivity | constructor].
Qed.

Section Truncated.
Variable buffer_size : N.

(** Data lines inside a data block only append records to the file of
    the current table. *)
Lemma scan_data_lines lines : forall n st h,
  wf st -> in_copy_data st = true -> current_csv st = Some h ->
  Forall data_line lines ->
  exists st' h',
    scan buffer_size n lines st = Continue st'
    /\ wf st' /\ in_copy_data st' = true
    /\ current_csv st' = Some h' /\ h_name h' = h_name h
    /\ handle_text h' (out_files st')
       = handle_text h (out_files st) +:+ rows_text (current_columns st) lines
    /\ current_table st' = current_table st
    /\ current_columns st' = current_columns st
    /\ total_rows st' = total_rows st
    /\ tables_found st' = tables_found st
    /\ exists tail, log st' = log st ++ tail /\ no_count tail.
Proof.
  induction lines as [|line rest IH]; intros n st h Hwf Hin Hcur Hall.
  - exists st, h. simpl. rewrite string_app_nil_r.
    repeat (split; [reflexivity || assumption |]).
    exists []. rewrite app_nil_r. split; [reflexivity | constructor].
  - inversion Hall as [|? ? [Hh Hs] Hrest]; subst. simpl.
    rewrite step_data by assumption.
    pose proof (wf_progress n st Hwf) as Hwp.
    destruct (progress_fields n st) as (Ho & Hc & Ht & Hcols & Hin' & Htf & Htr).
    assert (Hin2 : in_copy_data (progress n st) = true) by congruence.
    pose proof (parse_data_row_fields line Hs) as Hp.
    assert (Hp' : parse_data_row line <> None) by (rewrite Hp; discriminate).
    destruct (progress_no_count n st) as (pl & Hpl & Hpc).
    destruct (data_row_spec buffer_size line _ Hwp Hin2 Hp')
      as (t & h0 & fields & Ht0 & Hcur0 & Hpf
          & [(Hlen & h' & out' & _ & Hd & Hn & Hcl & Htx & Hs' & _)
            | (Hlen & Hd)]).
    + rewrite Hd. rewrite Hc, Hcur in Hcur0. inversion Hcur0; subst h0.
      set (st1 := {| out_files := out'; current_csv := Some h';
                     current_table := current_table (progress n st);
                     current_columns := current_columns (progress n st);
                     in_copy_data := in_copy_data (progress n st);
                     tables_found := tables_found (progress n st);
                     total_rows := total_rows (progress n st);
                     log := log (progress n st) |}).
      assert (Hwf1 : wf st1).
      { destruct Hwp as [Ha Hb]. split; simpl.
        - intros hx [= <-]. rewrite Hn. auto.
        - intros _. destruct (Hb Hin2) as (t' & hx & Ht' & Hc' & Hn').
          exists t', h'. rewrite Hc, Hcur in Hc'. inversion Hc'; subst hx.
          rewrite Hn. auto. }
      destruct (IH (n + 1) st1 h' Hwf1 Hin2 eq_refl Hrest)
        as (st' & h'' & -> & Hwf' & Hin'' & Hcur'' & Hn'' & Htx'' & Ht''
            & Hcols'' & Htr'' & Htf'' & tail & Hlog & Hnc).
      exists st', h''. split; [reflexivity |]. split; [exact Hwf' |].
      split; [exact Hin'' |]. split; [exact Hcur'' |].
      split; [congruence |].
      split.
      { rewrite Htx''. simpl. rewrite Htx, Ho, Hcols, Hpf.
        rewrite Hcols in Hlen. rewrite (bool_decide_eq_true_2 _ Hlen).
        now rewrite string_app_assoc. }
      simpl in *. repeat (split; [congruence |]).
      exists (pl ++ tail). split; [now rewrite Hlog, Hpl, app_assoc |].
      now apply Forall_app.
    + rewrite Hd. rewrite Hc, Hcur in Hcur0. inversion Hcur0; subst h0.
      set (st1 := add_log (WARNING, SkippingMalformedRow t) (progress n st)).
      assert (Hwf1 : wf st1) by now apply wf_add_log.
      assert (Hcur1 : current_csv st1 = Some h) by (simpl; congruence).
      destruct (IH (n + 1) st1 h Hwf1 Hin2 Hcur1 Hrest)
        as (st' & h'' & -> & Hwf' & Hin'' & Hcur'' & Hn'' & Htx'' & Ht''
            & Hcols'' & Htr'' & Htf'' & tail & Hlog & Hnc).
      exists st', h''. split; [reflexivity |]. split; [exact Hwf' |].
      split; [exact Hin'' |]. split; [exact Hcur'' |].
      split; [exact Hn'' |].
      split.
      { rewrite Htx''. simpl. rewrite Ho, Hcols, Hpf.
        rewrite Hcols in Hlen. now rewrite (bool_decide_eq_false_2 _ Hlen). }
      simpl in *. repeat (split; [congruence |]).
      exists (pl ++ (WARNING, SkippingMalformedRow t) :: tail).
      split.
      { rewrite Hlog. simpl. rewrite Hpl. now rewrite <- !app_assoc. }
      apply Forall_app. split; [exact Hpc |].
      apply Forall_cons. split; [discriminate | exact Hnc].
Qed.

Lemma scan_app l1 : forall l2 n st,
  scan buffer_size n (l1 ++ l2) st
  = match scan buffer_size n l1 st with
    | Continue st' => scan buffer_size (n + Z.of_nat (length l1)) l2 st'
    | Raised e st' => Raised e st'
    end.
Proof.
  induction l1 as [|line rest IH]; intros l2 n st; simpl.
  - now rewrite Z.add_0_r.
  - destruct (step buffer_size n line st); [| reflexivity].
    rewrite IH. now replace (n + 1 + Z.of_nat (length rest))
                  with (n + Z.pos (Pos.of_succ_nat (length rest))) by lia.
Qed.

(** At the end of the loop an open data block is closed like any other
    output file. *)
Lemma process_dump_open_block dump_file text output_dir fs st :
  scan buffer_size 1 (readlines text)
    (add_log (INFO, Scanning) (start_state dump_file output_dir fs))
  = Continue st ->
  wf st -> in_copy_data st = true ->
  ok (process_dump buffer_size dump_file (Some text) output_dir fs) = true
  /\ exists t h,
       current_table st = Some t /\ current_csv st = Some h
       /\ current_csv (final (process_dump buffer_size dump_file
                                (Some text) output_dir fs))
          = Some {| h_name := csv_name t; h_pending := ""; h_buffer := "";
                    h_closed := true |}
       /\ fs_after (process_dump buffer_size dump_file (Some text)
                      output_dir fs) !! output_dir
            ≫= (fun d => d !! csv_name t)
          = Some (handle_text h (out_files st))
       /\ log (final (process_dump buffer_size dump_file (Some text)
                        output_dir fs))
          = log st
            ++ [(SECTION, ExportComplete);
                (SUCCESS, TablesExported (tables_found st));
                (SUCCESS, TotalRows (total_rows st))]
       /\ in_copy_data (final (process_dump buffer_size dump_file
                                 (Some text) output_dir fs)) = true
       /\ total_rows (final (process_dump buffer_size dump_file
                               (Some text) output_dir fs)) = total_rows st
       /\ tables_found (final (process_dump buffer_size dump_file
                                 (Some text) output_dir fs))
          = tables_found st.
Proof.
  intros Hscan [Ha Hb] Hin.
  destruct (Hb Hin) as (t & h & Ht & Hcur & Hn).
  destruct (Ha h Hcur) as [Hcl _].
  unfold process_dump, run_scan. rewrite Hscan. simpl.
  split; [reflexivity |]. exists t, h.
  split; [exact Ht |]. split; [exact Hcur |].
  unfold close_current. rewrite Hcur, (close_open h _ Hcl). simpl.
  rewrite lookup_insert_eq. simpl. rewrite Hn, lookup_insert_eq.
  split; [reflexivity |]. split; [reflexivity |].
  split; [now rewrite <- !app_assoc |]. auto.
Qed.

(** A dump whose last header is followed by data lines only: the file
    of that table ends up holding its header record and the record of
    every line with the right field count. *)
Lemma truncated_block_file dump_file text output_dir fs pre hdr t cols rows :
  readlines text = pre ++ hdr :: rows ->
  header_of hdr = Some (t, cols) -> Forall data_line rows ->
  ok (process_dump buffer_size dump_file (Some text) output_dir fs) = true
  /\ fs_after (process_dump buffer_size dump_file (Some text)
                 output_dir fs) !! output_dir
       ≫= (fun d => d !! csv_name t)
     = Some (Csv.row cols +:+ rows_text cols rows).
Proof.
  intros Hlines Hh Hrows.
  assert (Hwf0 : wf (add_log (INFO, Scanning)
                       (start_state dump_file output_dir fs)))
    by apply wf_add_log, wf_init.
  destruct (scan_total buffer_size pre 1 _ Hwf0) as (st0 & Hpre & Hwf1).
  destruct (start_table_spec buffer_size t cols
              (progress (1 + Z.of_nat (length pre)) st0))
    as (st1 & h1 & Hst & Hcur1 & Hn1 & Htx1 & Ht1 & Hcols1 & Hin1 & _ & _ & _ & Hwf2).
  destruct (scan_data_lines rows (1 + Z.of_nat (length pre) + 1) st1 h1
              Hwf2 Hin1 Hcur1 Hrows)
    as (st2 & h2 & Hscan2 & Hwf3 & Hin2 & Hcur2 & Hn2 & Htx2 & Ht2 & _).
  assert (Hscan : scan buffer_size 1 (readlines text)
                    (add_log (INFO, Scanning)
                       (start_state dump_file output_dir fs))
                  = Continue st2).
  { rewrite Hlines, scan_app, Hpre. simpl.
    rewrite (step_header _ _ _ _ _ _ Hh), Hst. exact Hscan2. }
  destruct (process_dump_open_block _ _ _ _ _ Hscan Hwf3 Hin2)
    as (Hok & t' & h' & Ht' & Hcur' & _ & Hfile & _).
  split; [exact Hok |].
  assert (t' = t) as -> by congruence.
  assert (h' = h2) as -> by congruence.
  rewrite Hfile, Htx2, Htx1, Hcols1. reflexivity.
Qed.

End Truncated.

(** ** When nothing waits in the handle, the count read back is right *)

Section Flushed.
Variable buffer_size : N.

(** A table whose data block ends with the end-of-data line at the end
    of the dump: if nothing waits in the output handle when that line
    is reached, the table is reported with the number of data lines of
    the file the run leaves behind. *)
Lemma flushed_count_matches_file dump_file text output_dir fs
    pre hdr t cols rows last st :
  readlines text = pre ++ hdr :: rows ++ [last] ->
  header_of hdr = Some (t, cols) -> Forall data_line rows ->
  strip last = "\." ->
  scan buffer_size 1 (pre ++ hdr :: rows)
    (add_log (INFO, Scanning) (start_state dump_file output_dir fs))
  = Continue st ->
  flushed st ->
  exists before found total,
    fs_after (process_dump buffer_size dump_file (Some text) output_dir fs)
      !! output_dir ≫= (fun d => d !! csv_name t)
    = Some (Csv.row cols +:+ rows_text cols rows)
    /\ log (final (process_dump buffer_size dump_file (Some text)
                     output_dir fs))
       = before
         ++ [(SUCCESS,
              RowsExported
                (count_lines (Csv.row cols +:+ rows_text cols rows) - 1));
             (SECTION, ExportComplete); (SUCCESS, TablesExported found);
             (SUCCESS, TotalRows total)].
Proof.
  intros Hlines Hh Hrows Hlast Hst2 Hfl2.
  assert (Hwf0 : wf (add_log (INFO, Scanning)
                       (start_state dump_file output_dir fs)))
    by apply wf_add_log, wf_init.
  destruct (scan_total buffer_size pre 1 _ Hwf0) as (st0 & Hpre & Hwf1).
  destruct (start_table_spec buffer_size t cols
              (progress (1 + Z.of_nat (length pre)) st0))
    as (st1 & h1 & Hst & Hcur1 & Hn1 & Htx1 & Ht1 & Hcols1 & Hin1 & _ & _ & _ & Hwf2).
  destruct (scan_data_lines buffer_size rows
              (1 + Z.of_nat (length pre) + 1) st1 h1
              Hwf2 Hin1 Hcur1 Hrows)
    as (st2 & h2 & Hscan2 & Hwf3 & Hin2 & Hcur2 & Hn2 & Htx2 & Ht2 & _).
  assert (st = st2) as ->.
  { rewrite scan_app, Hpre in Hst2. simpl in Hst2.
    rewrite (step_header _ _ _ _ _ _ Hh), Hst, Hscan2 in Hst2.
    now inversion Hst2. }
  destruct (Hfl2 h2 Hcur2) as [Hpend Hbuf].
  assert (Hnh : header_of last = None).
  { destruct (header_of last) eqn:E; [| reflexivity].
    now apply header_not_sentinel in E. }
  set (n2 := 1 + Z.of_nat (length pre) + 1 + Z.of_nat (length rows)).
  pose proof (wf_progress n2 st2 Hwf3) as Hwp.
  destruct (progress_fields n2 st2) as (Ho & Hc & Htp & _ & Hinp & _).
  assert (Hin3 : in_copy_data (progress n2 st2) = true) by congruence.
  destruct (end_table_spec _ Hwp Hin3) as (t' & content & Ht' & Hcont & He).
  assert (t' = t) as -> by congruence.
  assert (Hcontent : content = Csv.row cols +:+ rows_text cols rows).
  { rewrite Hcols1, Htx1 in Htx2. rewrite <- Htx2. unfold handle_text.
    rewrite Hpend, Hbuf, !string_app_nil_r, Hn2, Hn1, <- Ho, Hcont.
    reflexivity. }
  assert (Hscan : scan buffer_size 1 (readlines text)
                    (add_log (INFO, Scanning)
                       (start_state dump_file output_dir fs))
                  = end_table (progress n2 st2)).
  { rewrite Hlines, scan_app, Hpre. simpl.
    rewrite (step_header _ _ _ _ _ _ Hh), Hst.
    rewrite scan_app, Hscan2. simpl.
    rewrite step_sentinel by assumption. fold n2. rewrite He. reflexivity. }
  rewrite He in Hscan.
  unfold process_dump, run_scan. rewrite Hscan. simpl.
  unfold close_current. simpl. rewrite Hc, Hcur2.
  destruct Hwf3 as [Ha _]. destruct (Ha h2 Hcur2) as [Hcl _].
  rewrite (close_open h2 _ Hcl). simpl.
  rewrite lookup_insert_eq. simpl.
  eexists (log (progress n2 st2)), _, _.
  split.
  - rewrite Hn2, Hn1, lookup_insert_eq. f_equal.
    unfold handle_text. rewrite Hpend, Hbuf, !string_app_nil_r.
    rewrite Hn2, Hn1, Hcont. simpl. exact Hcontent.
  - rewrite Hcontent, <- !app_assoc. reflexivity.
Qed.

End Flushed.

(** ** Claim C8: the comparator *)

Lemma elem_of_glob_csv (d : directory) name :
  name ∈ glob_csv d <-> endswith name ".csv" = true /\ is_Some (d !! name).
Proof. unfold glob_csv. rewrite elem_of_filter, elem_of_dom. tauto. Qed.

Lemma sorted_names_spec (new_dir old_dir : directory) :
  StronglySorted String.le (sorted_names new_dir old_dir)
  /\ NoDup (sorted_names new_dir old_dir)
  /\ forall name, name ∈ sorted_names new_dir old_dir
                  <-> name ∈ glob_csv new_dir ∪ glob_csv old_dir.
Proof.
  unfold sorted_names. split; [| split].
  - apply StronglySorted_merge_sort; apply _.
  - rewrite merge_sort_Permutation. apply NoDup_elements.
  - intros name. rewrite merge_sort_Permutation. apply elem_of_elements.
Qed.

(** Names that end with [.csv]. *)
Lemma prefix_iff p : forall s,
  String.prefix p s = true <-> exists r, s = p +:+ r.
Proof.
  induction p as [|a p IH]; intros s.
  - split; [intros _; now exists s | intros _; now destruct s].
  - destruct s as [|c s].
    + split; [discriminate |]. intros [r Hr].
      rewrite string_app_cons in Hr. discriminate.
    + change (String.prefix (String a p) (String c s))
        with (if ascii_dec a c then String.prefix p s else false).
      destruct (ascii_dec a c) as [<-|Hne].
      * rewrite IH. split; intros [r Hr]; exists r.
        -- rewrite string_app_cons. congruence.
        -- rewrite string_app_cons in Hr. congruence.
      * split; [discriminate |]. intros [r Hr].
        rewrite string_app_cons in Hr. congruence.
Qed.

Lemma rev_app_acc s : forall acc,
  String.rev_app s acc = String.rev_app s "" +:+ acc.
Proof.
  induction s as [|a s IH]; intros acc; [reflexivity |]. simpl.
  rewrite (IH (String a acc)), (IH (String a "")), string_app_assoc.
  reflexivity.
Qed.

Lemma rev_app_app a : forall b acc,
  String.rev_app (a +:+ b) acc = String.rev_app b (String.rev_app a acc).
Proof.
  induction a as [|x a IH]; intros b acc; [reflexivity |].
  rewrite string_app_cons. simpl. apply IH.
Qed.

Lemma rev_app_rev_app s : forall t u,
  String.rev_app (String.rev_app s t) u = String.rev_app t (s +:+ u).
Proof.
  induction s as [|a s IH]; intros t u; [reflexivity |]. simpl.
  rewrite IH, string_app_cons. reflexivity.
Qed.

Lemma string_rev_app a b :
  String.rev (a +:+ b) = String.rev b +:+ String.rev a.
Proof. unfold String.rev. now rewrite rev_app_app, rev_app_acc. Qed.

Lemma string_rev_rev s : String.rev (String.rev s) = s.
Proof.
  unfold String.rev. rewrite rev_app_rev_app. simpl.
  apply string_app_nil_r.
Qed.

Lemma endswith_iff s p :
  endswith s p = true <-> exists stem, s = stem +:+ p.
Proof.
  unfold endswith. rewrite prefix_iff. split.
  - intros [r Hr]. exists (String.rev r).
    rewrite <- (string_rev_rev s), Hr, string_rev_app, string_rev_rev.
    reflexivity.
  - intros [stem ->]. exists (String.rev stem). apply string_rev_app.
Qed.

(** C8: with the previous-export directory present, the comparator logs
    one classification per file name ending with [.csv] found in the
    new or in the previous directory, in increasing lexicographic order
    and without repeats: NEW for a name absent from the previous
    directory, MISSING for a name absent from the new one, and for a
    name in both UNCHANGED when the data-line counts (lines minus one)
    agree, else a change with the signed difference new minus old.
    Comparing a directory with an exact copy classifies every file
    UNCHANGED. *)
Theorem compare_classifies_sorted_union output_dir last_export_dir fs
    (old_dir : directory) :
  fs !! last_export_dir = Some old_dir ->
  exists names,
    compare_with_last_export output_dir last_export_dir fs
    = (SECTION, Comparing)
        :: (classify (default ∅ (fs !! output_dir)) old_dir <$> names)
    /\ StronglySorted String.le names /\ NoDup names
    /\ (forall name,
          name ∈ names
          <-> (exists stem, name = stem +:+ ".csv")
              /\ (is_Some (default ∅ (fs !! output_dir) !! name)
                  \/ is_Some (old_dir !! name)))
    /\ (forall name, name ∈ names ->
          (old_dir !! name = None ->
           classify (default ∅ (fs !! output_dir)) old_dir name
           = (INFO, NewFile name))
          /\ (is_Some (old_dir !! name) ->
              default ∅ (fs !! output_dir) !! name = None ->
              classify (default ∅ (fs !! output_dir)) old_dir name
              = (WARNING, MissingFile name))
          /\ (forall new_content old_content,
                default ∅ (fs !! output_dir) !! name = Some new_content ->
                old_dir !! name = Some old_content ->
                (count_lines new_content - 1
                 = count_lines old_content - 1 ->
                 classify (default ∅ (fs !! output_dir)) old_dir name
                 = (SUCCESS,
                    Unchanged name (count_lines new_content - 1)))
                /\ (count_lines new_content - 1
                    <> count_lines old_content - 1 ->
                    classify (default ∅ (fs !! output_dir)) old_dir name
                    = (WARNING,
                       (if count_lines new_content - 1
                           - (count_lines old_content - 1) >? 0
                        then Increased else Decreased)
                         name (count_lines new_content - 1)
                         (count_lines new_content - 1
                          - (count_lines old_content - 1))))))
    /\ (fs !! output_dir = Some old_dir ->
        forall name, name ∈ names ->
          exists content,
            old_dir !! name = Some content
            /\ classify (default ∅ (fs !! output_dir)) old_dir name
               = (SUCCESS, Unchanged name (count_lines content - 1))).
Proof.
  intros Hold. set (new_dir := default ∅ (fs !! output_dir)).
  destruct (sorted_names_spec new_dir old_dir) as (Hs & Hnd & Hin).
  exists (sorted_names new_dir old_dir).
  split. { unfold compare_with_last_export. now rewrite Hold. }
  split; [exact Hs |]. split; [exact Hnd |].
  assert (Hnames : forall name,
            name ∈ sorted_names new_dir old_dir
            <-> (exists stem, name = stem +:+ ".csv")
                /\ (is_Some (new_dir !! name) \/ is_Some (old_dir !! name))).
  { intros name. rewrite Hin, elem_of_union, !elem_of_glob_csv, endswith_iff.
    tauto. }
  split; [exact Hnames |].
  split.
  - intros name _.
    split; [| split].
    + intros Hno. unfold classify. now rewrite Hno.
    + intros [oc Ho] Hn. unfold classify. now rewrite Ho, Hn.
    + intros nc oc Hn Ho. unfold classify. rewrite Ho, Hn. split; intros Hc.
      * now rewrite (proj2 (Z.eqb_eq _ _) Hc).
      * rewrite (proj2 (Z.eqb_neq _ _) Hc). now destruct (_ >? 0).
  - intros Hsame name Hname. apply Hnames in Hname as [_ Hname].
    assert (Hnew : new_dir = old_dir) by (unfold new_dir; now rewrite Hsame).
    rewrite Hnew in Hname |- *.
    assert (Ho : is_Some (old_dir !! name)) by tauto.
    destruct Ho as [content Ho].
    exists content. split; [exact Ho |].
    unfold classify. rewrite Ho. now rewrite Z.eqb_refl.
Qed.

Lemma compare_classifies_sorted_union_witness :
  two_exports !! "Last CSV Export"
  = Some ({[ "orders.csv" := csv_with_rows 7; "gone.csv" := csv_with_rows 4;
             "same.csv" := csv_with_rows 2 ]} : directory)
  /\ exists names,
       compare_with_last_export "csv_export" "Last CSV Export" two_exports
       = (SECTION, Comparing)
           :: (classify (default ∅ (two_exports !! "csv_export"))
                 {[ "orders.csv" := csv_with_rows 7;
                    "gone.csv" := csv_with_rows 4;
                    "same.csv" := csv_with_rows 2 ]} <$> names)
       /\ "gone.csv" ∈ names /\ "new.csv" ∈ names /\ "orders.csv" ∈ names
       /\ ("notes.txt" ∉ names)
       /\ classify (default ∅ (two_exports !! "csv_export"))
            {[ "orders.csv" := csv_with_rows 7;
               "gone.csv" := csv_with_rows 4;
               "same.csv" := csv_with_rows 2 ]} "gone.csv"
          = (WARNING, MissingFile "gone.csv")
       /\ classify (default ∅ (two_exports !! "csv_export"))
            {[ "orders.csv" := csv_with_rows 7;
               "gone.csv" := csv_with_rows 4;
               "same.csv" := csv_with_rows 2 ]} "new.csv"
          = (INFO, NewFile "new.csv")
       /\ classify (default ∅ (two_exports !! "csv_export"))
            {[ "orders.csv" := csv_with_rows 7;
               "gone.csv" := csv_with_rows 4;
               "same.csv" := csv_with_rows 2 ]} "orders.csv"
          = (WARNING, Increased "orders.csv" 10 3).
Proof.
  assert (H : two_exports !! "Last CSV Export"
              = Some ({[ "orders.csv" := csv_with_rows 7;
                         "gone.csv" := csv_with_rows 4;
                         "same.csv" := csv_with_rows 2 ]} : directory))
    by (vm_compute; reflexivity).
  split; [exact H |].
  destruct (compare_classifies_sorted_union "csv_export" "Last CSV Export"
              two_exports _ H) as (names & Hc & _ & _ & Hin & Hcl & _).
  assert (Hgone : "gone.csv" ∈ names).
  { apply Hin. split; [exists "gone"; reflexivity |].
    right. vm_compute. eauto. }
  assert (Hnew : "new.csv" ∈ names).
  { apply Hin. split; [exists "new"; reflexivity |].
    left. vm_compute. eauto. }
  assert (Horders : "orders.csv" ∈ names).
  { apply Hin. split; [exists "orders"; reflexivity |].
    left. vm_compute. eauto. }
  exists names. split; [exact Hc |].
  split; [exact Hgone |]. split; [exact Hnew |]. split; [exact Horders |].
  split.
  { intros Hnotes. apply Hin in Hnotes as [Hstem _].
    apply endswith_iff in Hstem. discriminate Hstem. }
  split.
  { destruct (Hcl _ Hgone) as (_ & Hm & _). apply Hm.
    - vm_compute. eauto.
    - vm_compute. reflexivity. }
  split.
  { destruct (Hcl _ Hnew) as (Hn & _). apply Hn. vm_compute. reflexivity. }
  destruct (Hcl _ Horders) as (_ & _ & Hb).
  destruct (Hb (csv_with_rows 10) (csv_with_rows 7)) as [_ Hd];
    [vm_compute; reflexivity | vm_compute; reflexivity |].
  rewrite Hd by (vm_compute; discriminate). vm_compute. reflexivity.
Defined.

(** The scenario of the specification: ten rows against seven is
    reported as a change of +3, next to a missing, a new and an
    unchanged file, in name order. *)
Example compare_two_exports :
  compare_with_last_export "csv_export" "Last CSV Export" two_exports
  = [(SECTION, Comparing); (WARNING, MissingFile "gone.csv");
     (INFO, NewFile "new.csv"); (WARNING, Increased "orders.csv" 10 3);
     (SUCCESS, Unchanged "same.csv" 2)].
Proof. vm_compute. reflexivity. Qed.

(** ** What the loop logs *)

Lemma reported_app l1 l2 : reported (l1 ++ l2) = reported l1 + reported l2.
Proof.
  induction l1 as [|[lv m] l1 IH]; simpl; [lia |].
  destruct m; rewrite ?IH; lia.
Qed.

Lemma progress_log n st :
  exists extra,
    log (progress n st) = log st ++ extra
    /\ no_error extra /\ reported extra = 0.
Proof.
  unfold progress. destruct (_ =? _); simpl.
  - eexists. split; [reflexivity |]. split; [| reflexivity].
    repeat constructor. discriminate.
  - exists []. rewrite app_nil_r. repeat split. constructor.
Qed.

Section Logs.
Variable buffer_size : N.

(** One iteration only adds to the log, never an error entry, and adds
    to the total exactly the row count it reports. *)
Lemma step_log n line st :
  wf st ->
  exists st' extra,
    step buffer_size n line st = Continue st' /\ wf st'
    /\ log st' = log st ++ extra /\ no_error extra
    /\ total_rows st' = total_rows st + reported extra.
Proof.
  intros Hwf. pose proof (wf_progress n st Hwf) as Hwp.
  destruct (step_total buffer_size n line st Hwf) as (st' & Hstep & Hwf').
  exists st'.
  destruct (progress_log n st) as (pl & Hpl & Hpe & Hpr).
  destruct (progress_fields n st) as (_ & _ & _ & _ & Hin & _ & Htr).
  assert (Hdone : forall tail,
            log st' = log (progress n st) ++ tail -> no_error tail ->
            total_rows st' = total_rows (progress n st) + reported tail ->
            exists extra,
              step buffer_size n line st = Continue st' /\ wf st'
              /\ log st' = log st ++ extra /\ no_error extra
              /\ total_rows st' = total_rows st + reported extra).
  { intros tail Hl He Ht. exists (pl ++ tail).
    split; [exact Hstep |]. split; [exact Hwf' |].
    split; [now rewrite Hl, Hpl, app_assoc |].
    split; [now apply Forall_app |].
    rewrite reported_app, Hpr, Ht, Htr. lia. }
  destruct (header_of line) as [[t cols]|] eqn:Hh.
  - rewrite (step_header _ _ _ _ _ _ Hh) in Hstep.
    destruct (start_table_spec buffer_size t cols (progress n st))
      as (st1 & h & Hs1 & _ & _ & _ & _ & _ & _ & _ & Htr1 & Hl1 & _).
    rewrite Hs1 in Hstep. inversion Hstep; subst st1.
    apply (Hdone [(INFO, ExtractingTable t)]); [exact Hl1 | | simpl; lia].
    repeat constructor. discriminate.
  - destruct (in_copy_data st) eqn:Hi.
    + assert (Hin2 : in_copy_data (progress n st) = true) by congruence.
      destruct (decide (strip line = "\.")) as [Hs|Hs].
      * rewrite step_sentinel in Hstep by assumption.
        destruct (end_table_spec _ Hwp Hin2) as (t & content & _ & _ & He).
        rewrite He in Hstep. inversion Hstep; subst st'. simpl.
        apply (Hdone [(SUCCESS, RowsExported (count_lines content - 1))]);
          simpl; [reflexivity | | lia].
        repeat constructor. discriminate.
      * rewrite step_data in Hstep by assumption.
        pose proof (parse_data_row_fields line Hs) as Hp.
        assert (Hp' : parse_data_row line <> None)
          by (rewrite Hp; discriminate).
        destruct (data_row_spec buffer_size line _ Hwp Hin2 Hp')
          as (t & h & fields' & _ & _ & _
              & [(_ & h' & out' & _ & Hd & _) | (_ & Hd)]);
          rewrite Hd in Hstep; inversion Hstep; subst st'; simpl.
        -- apply (Hdone []); simpl; [now rewrite app_nil_r | constructor | lia].
        -- apply (Hdone [(WARNING, SkippingMalformedRow t)]);
             simpl; [reflexivity | | lia].
           repeat constructor. discriminate.
    + rewrite step_idle in Hstep by assumption.
      inversion Hstep; subst st'.
      apply (Hdone []); simpl; [now rewrite app_nil_r | constructor | lia].
Qed.

Lemma scan_log lines : forall n st,
  wf st ->
  exists st' extra,
    scan buffer_size n lines st = Continue st' /\ wf st'
    /\ log st' = log st ++ extra /\ no_error extra
    /\ total_rows st' = total_rows st + reported extra.
Proof.
  induction lines as [|line rest IH]; intros n st Hwf; simpl.
  - exists st, []. rewrite app_nil_r.
    split; [reflexivity |]. split; [exact Hwf |]. split; [reflexivity |].
    split; [constructor | simpl; lia].
  - destruct (step_log n line st Hwf) as (st1 & e1 & -> & Hwf1 & Hl1 & He1 & Ht1).
    destruct (IH (n + 1) st1 Hwf1) as (st2 & e2 & -> & Hwf2 & Hl2 & He2 & Ht2).
    exists st2, (e1 ++ e2). split; [reflexivity |]. split; [exact Hwf2 |].
    split; [now rewrite Hl2, Hl1, app_assoc |].
    split; [now apply Forall_app |].
    rewrite reported_app. lia.
Qed.

(** The log of a run that could open the dump: no error entry, and the
    total of the summary is the sum of the per-table counts reported
    before it. *)
Lemma process_dump_log dump_file text output_dir fs :
  exists extra,
    log (final (process_dump buffer_size dump_file (Some text) output_dir fs))
    = [(SECTION, ProcessingDump); (INFO, Source dump_file);
       (INFO, Output output_dir); (INFO, Scanning)]
      ++ extra
      ++ [(SECTION, ExportComplete);
          (SUCCESS, TablesExported
                      (tables_found (final (process_dump buffer_size dump_file
                                              (Some text) output_dir fs))));
          (SUCCESS, TotalRows (reported extra))]
    /\ no_error extra
    /\ total_rows (final (process_dump buffer_size dump_file (Some text)
                            output_dir fs)) = reported extra.
Proof.
  assert (Hwf0 : wf (add_log (INFO, Scanning)
                       (start_state dump_file output_dir fs)))
    by apply wf_add_log, wf_init.
  destruct (scan_log (readlines text) 1 _ Hwf0)
    as (st & extra & Hscan & Hwf & Hl & He & Ht).
  exists extra. unfold process_dump, run_scan. rewrite Hscan. simpl.
  assert (Hc : log (close_current st) = log st
               /\ total_rows (close_current st) = total_rows st
               /\ tables_found (close_current st) = tables_found st).
  { unfold close_current. destruct (current_csv st) as [h|]; [| auto].
    destruct (close h (out_files st)). simpl. auto. }
  destruct Hc as (-> & -> & ->). simpl in Ht, Hl.
  rewrite Hl, Ht. simpl. rewrite <- !app_assoc. simpl.
  rewrite Z.add_0_l. split; [reflexivity |]. split; [exact He | reflexivity].
Qed.

Lemma no_error_logged dump_file text output_dir fs e :
  e ∈ log (final (process_dump buffer_size dump_file (Some text)
                    output_dir fs)) ->
  e.1 <> ERROR.
Proof.
  destruct (process_dump_log dump_file text output_dir fs)
    as (extra & -> & He & _).
  intros Hin. repeat (apply elem_of_cons in Hin as [-> | Hin]; [discriminate |]).
  apply elem_of_app in Hin as [Hin | Hin].
  - unfold no_error in He. rewrite Forall_forall in He. now apply He.
  - repeat (apply elem_of_cons in Hin as [-> | Hin]; [discriminate |]).
    now apply elem_of_nil in Hin.
Qed.

(** Nothing the scanner logs is a message of the comparator. *)
Lemma step_messages n line st :
  wf st ->
  exists st' extra,
    step buffer_size n line st = Continue st' /\ wf st'
    /\ log st' = log st ++ extra
    /\ Forall (fun e => from_comparator e = false) extra.
Proof.
  intros Hwf. pose proof (wf_progress n st Hwf) as Hwp.
  destruct (step_total buffer_size n line st Hwf) as (st' & Hstep & Hwf').
  exists st'.
  assert (Hpl : exists pl, log (progress n st) = log st ++ pl
                           /\ Forall (fun e => from_comparator e = false) pl).
  { unfold progress. destruct (_ =? _); simpl.
    - eexists. split; [reflexivity |]. repeat constructor.
    - exists []. rewrite app_nil_r. split; [reflexivity | constructor]. }
  destruct Hpl as (pl & Hpl & Hpq).
  destruct (progress_fields n st) as (_ & _ & _ & _ & Hin & _).
  assert (Hdone : forall tail,
            log st' = log (progress n st) ++ tail ->
            Forall (fun e => from_comparator e = false) tail ->
            exists extra,
              step buffer_size n line st = Continue st' /\ wf st'
              /\ log st' = log st ++ extra
              /\ Forall (fun e => from_comparator e = false) extra).
  { intros tail Hl Hq. exists (pl ++ tail).
    split; [exact Hstep |]. split; [exact Hwf' |].
    split; [now rewrite Hl, Hpl, app_assoc | now apply Forall_app]. }
  destruct (header_of line) as [[t cols]|] eqn:Hh.
  - rewrite (step_header _ _ _ _ _ _ Hh) in Hstep.
    destruct (start_table_spec buffer_size t cols (progress n st))
      as (st1 & h & Hs1 & _ & _ & _ & _ & _ & _ & _ & _ & Hl1 & _).
    rewrite Hs1 in Hstep. inversion Hstep; subst st1.
    apply (Hdone [(INFO, ExtractingTable t)]); [exact Hl1 |].
    repeat constructor.
  - destruct (in_copy_data st) eqn:Hi.
    + assert (Hin2 : in_copy_data (progress n st) = true) by congruence.
      destruct (decide (strip line = "\.")) as [Hs|Hs].
      * rewrite step_sentinel in Hstep by assumption.
        destruct (end_table_spec _ Hwp Hin2) as (t & content & _ & _ & He).
        rewrite He in Hstep. inversion Hstep; subst st'. simpl.
        apply (Hdone [(SUCCESS, RowsExported (count_lines content - 1))]);
          simpl; [reflexivity |].
        repeat constructor.
      * rewrite step_data in Hstep by assumption.
        pose proof (parse_data_row_fields line Hs) as Hp.
        assert (Hp' : parse_data_row line <> None)
          by (rewrite Hp; discriminate).
        destruct (data_row_spec buffer_size line _ Hwp Hin2 Hp')
          as (t & h & fields' & _ & _ & _
              & [(_ & h' & out' & _ & Hd & _) | (_ & Hd)]);
          rewrite Hd in Hstep; inversion Hstep; subst st'; simpl.
        -- apply (Hdone []); simpl; [now rewrite app_nil_r | constructor].
        -- apply (Hdone [(WARNING, SkippingMalformedRow t)]);
             simpl; [reflexivity |].
           repeat constructor.
    + rewrite step_idle in Hstep by assumption.
      inversion Hstep; subst st'.
      apply (Hdone []); simpl; [now rewrite app_nil_r | constructor].
Qed.

Lemma scan_messages lines : forall n st,
  wf st ->
  exists st' extra,
    scan buffer_size n lines st = Continue st' /\ wf st'
    /\ log st' = log st ++ extra
    /\ Forall (fun e => from_comparator e = false) extra.
Proof.
  induction lines as [|line rest IH]; intros n st Hwf; simpl.
  - exists st, []. rewrite app_nil_r. auto.
  - destruct (step_messages n line st Hwf) as (st1 & e1 & -> & Hwf1 & Hl1 & He1).
    destruct (IH (n + 1) st1 Hwf1) as (st2 & e2 & -> & Hwf2 & Hl2 & He2).
    exists st2, (e1 ++ e2). split; [reflexivity |]. split; [exact Hwf2 |].
    split; [now rewrite Hl2, Hl1, app_assoc | now apply Forall_app].
Qed.

Lemma process_dump_messages dump_file text output_dir fs :
  Forall (fun e => from_comparator e = false)
    (log (final (process_dump buffer_size dump_file (Some text)
                   output_dir fs))).
Proof.
  assert (Hwf0 : wf (add_log (INFO, Scanning)
                       (start_state dump_file output_dir fs)))
    by apply wf_add_log, wf_init.
  destruct (scan_messages (readlines text) 1 _ Hwf0)
    as (st & extra & Hscan & Hwf & Hl & He).
  unfold process_dump, run_scan. rewrite Hscan. simpl.
  assert (Hc : log (close_current st) = log st).
  { unfold close_current. destruct (current_csv st) as [h|]; [| auto].
    now destruct (close h (out_files st)). }
  rewrite Hc, Hl. simpl.
  repeat (apply Forall_cons; split; [reflexivity |]).
  rewrite <- !app_assoc. apply Forall_app. split; [exact He |].
  repeat constructor.
Qed.

End Logs.

(** ** Claim C7: the end of the input inside a data block *)

(** C7, as stated, fails: at the end of a dump that stops inside the
    data of [orders] the output file is closed, with both rows in it,
    and the run succeeds, but the block is not finalized: no row count
    is reported for the table, the total stays 0, and the scanner is
    still inside the data block. *)
Lemma truncated_block_not_finalized_counterexample :
  readlines truncated_dump
  = [orders_header; "1" +:+ tb +:+ "9.99" +:+ nl; "2" +:+ tb +:+ "\N"]
  /\ ok (process_dump 8192 "Source Data" (Some truncated_dump)
           "csv_export" ∅) = true
  /\ (exists content,
        fs_after (process_dump 8192 "Source Data" (Some truncated_dump)
                    "csv_export" ∅) !! "csv_export"
          ≫= (fun d => d !! "orders.csv") = Some content
        /\ readlines content
           = ["id,total" +:+ nl; "1,9.99" +:+ nl; "2," +:+ nl]
        /\ count_lines content - 1 = 2)
  /\ log (final (process_dump 8192 "Source Data" (Some truncated_dump)
                   "csv_export" ∅))
     = [(SECTION, ProcessingDump); (INFO, Source "Source Data");
        (INFO, Output "csv_export"); (INFO, Scanning);
        (INFO, ExtractingTable "orders");
        (SECTION, ExportComplete); (SUCCESS, TablesExported 1);
        (SUCCESS, TotalRows 0)]
  /\ in_copy_data (final (process_dump 8192 "Source Data"
                            (Some truncated_dump) "csv_export" ∅)) = true.
Proof.
  split; [vm_compute; reflexivity |]. split; [vm_compute; reflexivity |].
  split.
  - eexists. split; [vm_compute; reflexivity |].
    split; vm_compute; reflexivity.
  - split; vm_compute; reflexivity.
Qed.

Section TruncatedBlock.
Variable buffer_size : N.

(** C7 (amended): when the last header of the dump is followed by data
    lines only, so that the input ends inside the data block of its
    table, no error is raised and [process_dump] returns [True]; the
    output file is closed and holds the header record and every accepted
    row.  The block is not finalized: the scanner is still inside it, no
    row count is logged after the header of the table, and the total of
    the summary is the sum of the counts reported before it. *)
Theorem truncated_block_closed_not_counted dump_file text output_dir fs
    pre hdr t cols rows :
  readlines text = pre ++ hdr :: rows ->
  header_of hdr = Some (t, cols) ->
  Forall data_line rows ->
  ok (process_dump buffer_size dump_file (Some text) output_dir fs) = true
  /\ no_error (log (final (process_dump buffer_size dump_file (Some text)
                             output_dir fs)))
  /\ current_csv (final (process_dump buffer_size dump_file (Some text)
                           output_dir fs))
     = Some {| h_name := csv_name t; h_pending := ""; h_buffer := "";
               h_closed := true |}
  /\ fs_after (process_dump buffer_size dump_file (Some text) output_dir fs)
       !! output_dir ≫= (fun d => d !! csv_name t)
     = Some (Csv.row cols +:+ rows_text cols rows)
  /\ in_copy_data (final (process_dump buffer_size dump_file (Some text)
                            output_dir fs)) = true
  /\ exists before tail,
       log (final (process_dump buffer_size dump_file (Some text)
                     output_dir fs))
       = before
         ++ (INFO, ExtractingTable t)
         :: tail
         ++ [(SECTION, ExportComplete);
             (SUCCESS,
              TablesExported
                (tables_found (final (process_dump buffer_size dump_file
                                        (Some text) output_dir fs))));
             (SUCCESS, TotalRows (reported before))]
       /\ no_count tail
       /\ total_rows (final (process_dump buffer_size dump_file (Some text)
                               output_dir fs))
          = reported before.
Proof.
  intros Hlines Hh Hrows.
  assert (Hwf0 : wf (add_log (INFO, Scanning)
                       (start_state dump_file output_dir fs)))
    by apply wf_add_log, wf_init.
  destruct (scan_log buffer_size pre 1 _ Hwf0)
    as (st0 & extra & Hpre & Hwf1 & Hl0 & _ & Ht0).
  set (n1 := 1 + Z.of_nat (length pre)).
  destruct (progress_log n1 st0) as (pl & Hpl & _ & Hpr).
  destruct (progress_fields n1 st0) as (_ & _ & _ & _ & _ & _ & Htrp).
  destruct (start_table_spec buffer_size t cols (progress n1 st0))
    as (st1 & h1 & Hst & Hcur1 & Hn1 & Htx1 & Ht1 & Hcols1 & Hin1 & _
        & Htr1 & Hl1 & Hwf2).
  destruct (scan_data_lines buffer_size rows (n1 + 1) st1 h1
              Hwf2 Hin1 Hcur1 Hrows)
    as (st2 & h2 & Hscan2 & Hwf3 & Hin2 & Hcur2 & Hn2 & Htx2 & Ht2 & _
        & Htr2 & _ & tail & Hl2 & Hnc).
  assert (Hscan : scan buffer_size 1 (readlines text)
                    (add_log (INFO, Scanning)
                       (start_state dump_file output_dir fs))
                  = Continue st2).
  { rewrite Hlines, scan_app, Hpre. simpl.
    rewrite (step_header _ _ _ _ _ _ Hh). fold n1. rewrite Hst.
    exact Hscan2. }
  destruct (process_dump_open_block _ _ _ _ _ _ Hscan Hwf3 Hin2)
    as (Hok & t' & h' & Ht' & Hcur' & Hclosed & Hfile & Hlog & Hin
        & Htotal & Hfound).
  assert (t' = t) as -> by congruence.
  assert (h' = h2) as -> by congruence.
  split; [exact Hok |].
  split.
  { apply Forall_forall. intros e He. revert He. apply no_error_logged. }
  split; [exact Hclosed |].
  split; [now rewrite Hfile, Htx2, Htx1, Hcols1 |].
  split; [exact Hin |].
  exists (log (progress n1 st0)), tail.
  assert (Hrep : reported (log (progress n1 st0)) = total_rows st2).
  { rewrite Hpl, Hl0, !reported_app, Hpr, Htr2, Htr1, Htrp, Ht0.
    simpl. lia. }
  split; [| split; [exact Hnc |]].
  - rewrite Hlog, Hfound, Hl2, Hl1, Hrep. now rewrite <- !app_assoc.
  - now rewrite Htotal, Hrep.
Qed.

End TruncatedBlock.

Lemma truncated_block_closed_not_counted_witness :
  readlines truncated_dump
  = [] ++ orders_header
       :: ["1" +:+ tb +:+ "9.99" +:+ nl; "2" +:+ tb +:+ "\N"]
  /\ header_of orders_header = Some ("orders", ["id"; "total"])
  /\ fs_after (process_dump 8192 "Source Data" (Some truncated_dump)
                 "csv_export" ∅) !! "csv_export"
       ≫= (fun d => d !! "orders.csv")
     = Some (Csv.row ["id"; "total"] +:+ Csv.row ["1"; "9.99"]
             +:+ Csv.row ["2"; ""])
  /\ in_copy_data (final (process_dump 8192 "Source Data"
                            (Some truncated_dump) "csv_export" ∅)) = true.
Proof.
  assert (H1 : readlines truncated_dump
               = [] ++ orders_header
                    :: ["1" +:+ tb +:+ "9.99" +:+ nl; "2" +:+ tb +:+ "\N"])
    by (vm_compute; reflexivity).
  assert (H2 : header_of orders_header = Some ("orders", ["id"; "total"]))
    by (vm_compute; reflexivity).
  assert (H3 : Forall data_line
                 ["1" +:+ tb +:+ "9.99" +:+ nl; "2" +:+ tb +:+ "\N"]).
  { repeat constructor; vm_compute; congruence. }
  split; [exact H1 |]. split; [exact H2 |].
  destruct (truncated_block_closed_not_counted 8192 "Source Data"
              truncated_dump "csv_export" ∅ _ _ _ _ _ H1 H2 H3)
    as (_ & _ & _ & Hfile & Hin & _).
  split; [| exact Hin].
  etransitivity; [exact Hfile | vm_compute; reflexivity].
Defined.

(** ** Claim C9: no previous export *)

Lemma fs_after_other_dir buffer_size dump_file dump output_dir fs d :
  d <> output_dir -> fs !! d = None ->
  fs_after (process_dump buffer_size dump_file dump output_dir fs) !! d = None.
Proof.
  intros Hne Hd. unfold process_dump. simpl.
  rewrite lookup_insert_ne by congruence.
  unfold mkdir_exist_ok. destruct (fs !! output_dir); [exact Hd |].
  now rewrite lookup_insert_ne by congruence.
Qed.

(** C9, as stated, fails: in a run whose previous-export directory
    does not exist the comparator is never called.  The console holds no
    warning about the missing directory, although the comparator, called
    on the file system the run leaves behind, would log one. *)
Lemma missing_last_export_no_warning_counterexample :
  fs_after (process_dump 8192 "Source Data" (Some orders_dump)
              "csv_export" ∅) !! "Last CSV Export" = None
  /\ compare_with_last_export "csv_export" "Last CSV Export"
       (fs_after (process_dump 8192 "Source Data" (Some orders_dump)
                    "csv_export" ∅))
     = [(WARNING, LastExportNotFound "Last CSV Export")]
  /\ exit_status (main 8192 "2024-01-01 00:00:00" "Source Data" "csv_export"
                    "Last CSV Export" false (Readable orders_dump) ∅) = 0
  /\ console (main 8192 "2024-01-01 00:00:00" "Source Data" "csv_export"
                "Last CSV Export" false (Readable orders_dump) ∅)
     = [(SECTION, Banner); (INFO, StartedAt "2024-01-01 00:00:00");
        (SECTION, ProcessingDump); (INFO, Source "Source Data");
        (INFO, Output "csv_export"); (INFO, Scanning);
        (INFO, ExtractingTable "orders"); (SUCCESS, RowsExported (-1));
        (SECTION, ExportComplete); (SUCCESS, TablesExported 1);
        (SUCCESS, TotalRows (-1)); (SUCCESS, Completed)]
  /\ (WARNING, LastExportNotFound "Last CSV Export")
     ∉ console (main 8192 "2024-01-01 00:00:00" "Source Data" "csv_export"
                  "Last CSV Export" false (Readable orders_dump) ∅).
Proof.
  assert (Hc : console (main 8192 "2024-01-01 00:00:00" "Source Data"
                          "csv_export" "Last CSV Export" false
                          (Readable orders_dump) ∅)
               = [(SECTION, Banner); (INFO, StartedAt "2024-01-01 00:00:00");
                  (SECTION, ProcessingDump); (INFO, Source "Source Data");
                  (INFO, Output "csv_export"); (INFO, Scanning);
                  (INFO, ExtractingTable "orders");
                  (SUCCESS, RowsExported (-1));
                  (SECTION, ExportComplete); (SUCCESS, TablesExported 1);
                  (SUCCESS, TotalRows (-1)); (SUCCESS, Completed)])
    by (vm_compute; reflexivity).
  split; [vm_compute; reflexivity |]. split; [vm_compute; reflexivity |].
  split; [vm_compute; reflexivity |]. split; [exact Hc |].
  rewrite Hc. intros Hin.
  repeat (apply elem_of_cons in Hin as [Hin | Hin]; [discriminate |]).
  now apply elem_of_nil in Hin.
Qed.

(** C9 (amended): when the previous-export directory does not exist,
    the comparator, if called, logs one warning and nothing else.  A run
    of [main] whose dump file can be read does not call it: the console
    holds the banner, the log of the scanner and the success message,
    hence no message of the comparator and no error, and the exit
    status is 0. *)
Theorem missing_last_export_comparator_not_called (buffer_size : N) now
    source_path output_path compare_path no_compare text (fs : filesystem) :
  fs !! compare_path = None ->
  compare_path <> output_path ->
  compare_with_last_export output_path compare_path
    (fs_after (process_dump buffer_size source_path (Some text)
                 output_path fs))
  = [(WARNING, LastExportNotFound compare_path)]
  /\ exit_status (main buffer_size now source_path output_path compare_path
                    no_compare (Readable text) fs) = 0
  /\ console (main buffer_size now source_path output_path compare_path
                no_compare (Readable text) fs)
     = [(SECTION, Banner); (INFO, StartedAt now)]
       ++ log (final (process_dump buffer_size source_path (Some text)
                        output_path fs))
       ++ [(SUCCESS, Completed)]
  /\ Forall (fun e => from_comparator e = false)
       (console (main buffer_size now source_path output_path compare_path
                   no_compare (Readable text) fs))
  /\ no_error (console (main buffer_size now source_path output_path
                          compare_path no_compare (Readable text) fs)).
Proof.
  intros Hnone Hne.
  pose proof (fs_after_other_dir buffer_size source_path (Some text)
                output_path fs compare_path Hne Hnone) as Hafter.
  assert (Hc : console (main buffer_size now source_path output_path
                          compare_path no_compare (Readable text) fs)
               = [(SECTION, Banner); (INFO, StartedAt now)]
                 ++ log (final (process_dump buffer_size source_path
                                  (Some text) output_path fs))
                 ++ [(SUCCESS, Completed)]).
  { unfold main. cbn [source_exists opened negb].
    rewrite process_dump_ok, Hafter.
    rewrite bool_decide_eq_false_2 by (intros [? ?]; discriminate).
    now rewrite andb_false_r. }
  split.
  { unfold compare_with_last_export. now rewrite Hafter. }
  split.
  { unfold main. cbn [source_exists opened negb].
    now rewrite process_dump_ok. }
  split; [exact Hc |]. rewrite Hc. split.
  - repeat (apply Forall_cons; split; [reflexivity |]).
    apply Forall_app. split; [apply process_dump_messages |].
    repeat constructor.
  - unfold no_error.
    repeat (apply Forall_cons; split; [discriminate |]).
    apply Forall_app. split.
    + apply Forall_forall. intros e He. revert He. apply no_error_logged.
    + repeat constructor. discriminate.
Qed.

Lemma missing_last_export_comparator_not_called_witness :
  (∅ : filesystem) !! "Last CSV Export" = None
  /\ "Last CSV Export" <> "csv_export"
  /\ exit_status (main 8192 "2024-01-01 00:00:00" "Source Data" "csv_export"
                    "Last CSV Export" false (Readable orders_dump) ∅) = 0
  /\ Forall (fun e => from_comparator e = false)
       (console (main 8192 "2024-01-01 00:00:00" "Source Data" "csv_export"
                   "Last CSV Export" false (Readable orders_dump) ∅)).
Proof.
  assert (H1 : (∅ : filesystem) !! "Last CSV Export" = None) by reflexivity.
  assert (H2 : "Last CSV Export" <> "csv_export") by discriminate.
  split; [exact H1 |]. split; [exact H2 |].
  destruct (missing_last_export_comparator_not_called 8192
              "2024-01-01 00:00:00" "Source Data" "csv_export"
              "Last CSV Export" false orders_dump ∅ H1 H2)
    as (_ & Hexit & _ & Hq & _).
  split; [exact Hexit | exact Hq].
Defined.

(** ** Examples *)

(** The scenarios of the specification. *)
Example header_ar_items :
  parse_copy_statement ("COPY ar.items (sku) FROM stdin;" +:+ nl)
  = Some ("ar_items", ["sku"]).
Proof. vm_compute. reflexivity. Qed.

Example header_public_orders :
  parse_copy_statement orders_header = Some ("orders", ["id"; "total"]).
Proof. vm_compute. reflexivity. Qed.

Example row_with_null :
  parse_data_row ("2" +:+ tb +:+ "\N" +:+ nl) = Some ["2"; ""].
Proof. vm_compute. reflexivity. Qed.

Example orders_file_when_closed :
  fs_after (process_dump 8192 "Source Data" (Some orders_dump)
              "csv_export" ∅) !! "csv_export"
    ≫= (fun d => d !! "orders.csv")
  = Some (Csv.row ["id"; "total"] +:+ Csv.row ["1"; "9.99"]
          +:+ Csv.row ["2"; ""]).
Proof. vm_compute. reflexivity. Qed.

(** Tables larger than the chunk of the text layer: the count read
    back at the end-of-data line is the number of rows that have reached
    the file by then.  It depends on the size of the buffer and on the
    number of bytes, not characters, of the rows; a row as large as the
    chunk goes through at once. *)
Example large_table_counts :
  map (fun b => reported (log (final (process_dump b "Source Data"
                                        (Some (table_dump 100 99 "x"))
                                        "csv_export" ∅))))
      [4096; 8192]%N
  = [81; -1]
  /\ map (fun b => reported (log (final (process_dump b "Source Data"
                                           (Some (table_dump 100 99 "233"))
                                           "csv_export" ∅))))
         [4096; 8192]%N
     = [80; 40]
  /\ map (fun b => reported (log (final (process_dump b "Source Data"
                                           (Some (table_dump 1 (N.to_nat 8192) "x"))
                                           "csv_export" ∅))))
         [4096; 8192]%N
     = [1; 1]
  /\ (fs_after (process_dump 4096 "Source Data"
                  (Some (table_dump 100 99 "x")) "csv_export" ∅)
        !! "csv_export" ≫= (fun d => d !! "t.csv"))
     = Some (Csv.row ["a"]
             +:+ repeat_string 100 (Csv.row [repeat_string 99 "x"])).
Proof. repeat split; vm_compute; reflexivity. Qed.

(** The pattern: lazy column group, quoted columns, the Unicode blanks
    and letters of the range, and lines it rejects. *)
Example header_lazy_columns :
  parse_copy_statement "COPY t (a) (b) FROM stdin" = Some ("t", ["a) (b"]).
Proof. vm_compute. reflexivity. Qed.

Example header_quoted_columns :
  parse_copy_statement
    ("COPY t (" +:+ String Char.dquote "a b" +:+ String Char.dquote ", "
     +:+ String Char.dquote ", c) FROM stdin")
  = Some ("t", ["a b"; ""; "c"]).
Proof. vm_compute. reflexivity. Qed.

Example header_latin1 :
  parse_copy_statement
    ("COPY" +:+ String "028" "t" +:+ String "160" "("
     +:+ String "233" ")" +:+ String "133" "FROM" +:+ tb +:+ "stdin")
  = Some ("t", [String "233" ""]).
Proof. vm_compute. reflexivity. Qed.

Example header_two_dots : parse_copy_statement "COPY a.b.c (x) FROM stdin" = None.
Proof. vm_compute. reflexivity. Qed.

Example header_no_blank_before_from :
  parse_copy_statement "COPY t(a)FROM stdin" = None.
Proof. vm_compute. reflexivity. Qed.

Example header_newline_in_columns :
  parse_copy_statement ("COPY t (a" +:+ nl +:+ ") FROM stdin") = None.
Proof. vm_compute. reflexivity. Qed.

(** The writer: quoting, doubled quotes, the lone empty field. *)
Example csv_rows :
  Csv.row [""] = String Char.dquote (String Char.dquote Csv.lineterminator)
  /\ Csv.row [""; ""] = "," +:+ Csv.lineterminator
  /\ Csv.row ["a,b"; String "c" (String Char.dquote "d"); " x "]
     = String Char.dquote "a,b" +:+ String Char.dquote ","
       +:+ String Char.dquote "c" +:+ String Char.dquote ""
       +:+ String Char.dquote "d" +:+ String Char.dquote ", x "
       +:+ Csv.lineterminator.
Proof. repeat split; vm_compute; reflexivity. Qed.

(** Universal newlines. *)
Example readlines_mixed :
  readlines ("a" +:+ String Char.cr (String Char.lf "b")
             +:+ String Char.cr "c" +:+ nl +:+ nl +:+ "d")
  = ["a" +:+ nl; "b" +:+ nl; "c" +:+ nl; nl; "d"].
Proof. vm_compute. reflexivity. Qed.

(** ** The run seen through the stored files *)

Section Views.
Variable buffer_size : N.

(** After a write, closing would store the old text followed by the
    new. *)
Lemma stored_after_write h data out h' out' :
  h_closed h = false ->
  write buffer_size h data out = Some (h', out') ->
  h_closed h' = false /\ h_name h' = h_name h
  /\ <[h_name h' := handle_text h' out']> out'
     = <[h_name h := handle_text h out +:+ data]> out.
Proof.
  intros Hc Hw.
  destruct (write_open buffer_size h data out Hc)
    as (h2 & out2 & Hw2 & Hn & Hcl & Ht & _ & _ & Hi).
  rewrite Hw in Hw2. inversion Hw2; subst h2 out2.
  split; [exact Hcl |]. split; [exact Hn |].
  now rewrite Hn, Ht, Hi.
Qed.

Lemma stored_open st h :
  current_csv st = Some h -> h_closed h = false ->
  stored st = <[h_name h := handle_text h (out_files st)]> (out_files st).
Proof.
  intros Hcur Hc. unfold stored, close_current.
  rewrite Hcur, (close_open h _ Hc). reflexivity.
Qed.

Lemma stored_add_log e st : stored (add_log e st) = stored st.
Proof.
  unfold stored, close_current. simpl.
  destruct (current_csv st) as [h|]; [| reflexivity].
  now destruct (close h (out_files st)).
Qed.

Lemma view_progress n st : view_of (progress n st) = view_of st.
Proof.
  unfold progress. destruct (_ =? _); [| reflexivity].
  unfold view_of. now rewrite stored_add_log.
Qed.

(** One iteration acts on the view as [view_step] says, whatever the
    buffer size. *)
Lemma step_view n line st :
  wf st ->
  exists st',
    step buffer_size n line st = Continue st' /\ wf st'
    /\ view_of st' = view_step (view_of st) line.
Proof.
  intros Hwf. pose proof (wf_progress n st Hwf) as Hwp.
  destruct (step_total buffer_size n line st Hwf) as (st' & Hstep & Hwf').
  exists st'. split; [exact Hstep |]. split; [exact Hwf' |].
  rewrite <- (view_progress n st).
  destruct (progress_fields n st) as (_ & _ & _ & _ & Hin & _).
  revert Hstep. unfold step. generalize dependent (progress n st).
  intros s Hws Hin. clear Hwf. unfold view_step. simpl.
  destruct (header_of line) as [[t cols]|] eqn:Hh.
  - unfold start_table, writerow.
    assert (Hout : match current_csv s with
                   | Some h => (close h (out_files s)).2
                   | None => out_files s
                   end = stored s).
    { unfold stored, close_current. destruct (current_csv s) as [h|]; [| reflexivity].
      now destruct (close h (out_files s)). }
    rewrite Hout. unfold open_w.
    destruct (write buffer_size _ _ _) as [[h' out3]|] eqn:Hw; [| discriminate].
    intros [= <-].
    apply stored_after_write in Hw as (Hc' & Hn' & Hst); [| reflexivity].
    unfold view_of. simpl. f_equal.
    erewrite (stored_open _ h'); [| reflexivity | exact Hc']. simpl.
    rewrite Hst. unfold handle_text. simpl.
    rewrite lookup_insert_eq. simpl. now rewrite insert_insert_eq.
  - destruct (in_copy_data s) eqn:Hi; [| now intros [= <-]].
    destruct Hws as [Ha Hb]. destruct (Hb Hi) as (t & h & Ht & Hcur & Hn).
    destruct (Ha h Hcur) as [Hc Hs].
    destruct (bool_decide (strip line = "\.")) eqn:Hsent.
    + unfold end_table.
      destruct (out_files s !! csv_name (fmt_table (current_table s)));
        [| discriminate].
      intros [= <-]. unfold view_of. simpl. f_equal.
      unfold stored, close_current. simpl. rewrite Hcur.
      now destruct (close h (out_files s)).
    + unfold data_row. rewrite Hcur.
      destruct (parse_data_row line) as [[|f fs]|] eqn:Hp.
      * exfalso. apply bool_decide_eq_false in Hsent.
        rewrite (parse_data_row_fields line Hsent) in Hp.
        inversion Hp as [Hp']. apply fmap_nil_inv in Hp'.
        revert Hp'. generalize (rstrip_newline line). intros x.
        destruct x as [|c x]; simpl; [discriminate |].
        destruct (bool_decide _); [discriminate |].
        destruct (split Char.tab x); discriminate.
      * destruct (bool_decide (length (f :: fs) = length (current_columns s)));
          [| intros [= <-]; unfold view_of; now rewrite stored_add_log].
        unfold writerow.
        destruct (write buffer_size _ _ _) as [[h' out']|] eqn:Hw; [| discriminate].
        intros [= <-].
        apply stored_after_write in Hw as (Hc' & Hn' & Hst); [| exact Hc].
        unfold view_of. simpl. rewrite Hi. f_equal.
        erewrite (stored_open _ h'); [| reflexivity | exact Hc']. simpl.
        rewrite Hst.
        rewrite (stored_open s h Hcur Hc), Ht. simpl.
        unfold append_file. rewrite <- Hn, lookup_insert_eq. simpl.
        now rewrite insert_insert_eq.
      * now intros [= <-].
Qed.

Lemma scan_view lines : forall n st,
  wf st ->
  exists st',
    scan buffer_size n lines st = Continue st' /\ wf st'
    /\ view_of st' = foldl view_step (view_of st) lines.
Proof.
  induction lines as [|line rest IH]; intros n st Hwf; simpl.
  - eauto.
  - destruct (step_view n line st Hwf) as (st1 & -> & Hwf1 & Hv).
    destruct (IH (n + 1) st1 Hwf1) as (st2 & Hs & Hwf2 & Hv2).
    exists st2. rewrite Hv2, Hv. auto.
Qed.

(** The directory a run leaves behind and the number of tables it
    found, as a fold of [view_step] over the lines of the dump. *)
Lemma process_dump_view dump_file text output_dir fs :
  fs_after (process_dump buffer_size dump_file (Some text) output_dir fs)
    !! output_dir
  = Some (v_files (foldl view_step
                     (view_of (start_state dump_file output_dir fs))
                     (readlines text)))
  /\ tables_found (final (process_dump buffer_size dump_file (Some text)
                            output_dir fs))
     = v_found (foldl view_step
                  (view_of (start_state dump_file output_dir fs))
                  (readlines text)).
Proof.
  assert (Hwf0 : wf (add_log (INFO, Scanning)
                       (start_state dump_file output_dir fs)))
    by apply wf_add_log, wf_init.
  destruct (scan_view (readlines text) 1 _ Hwf0) as (st & Hscan & Hwf & Hv).
  unfold process_dump, run_scan. rewrite Hscan. simpl.
  rewrite lookup_insert_eq.
  assert (Hv0 : view_of (add_log (INFO, Scanning)
                           (start_state dump_file output_dir fs))
                 = view_of (start_state dump_file output_dir fs))
    by (unfold view_of; now rewrite stored_add_log).
  rewrite Hv0 in Hv. rewrite <- Hv. split; [reflexivity |].
  unfold close_current. destruct (current_csv st) as [h|]; [| reflexivity].
  now destruct (close h (out_files st)).
Qed.

End Views.

(** ** Facts about folds of [view_step] *)

Lemma view_step_found v line :
  v_found (view_step v line)
  = v_found v + (if is_header line then 1 else 0).
Proof.
  unfold view_step, is_header.
  destruct (header_of line) as [[t cols]|]; simpl; [reflexivity |].
  destruct (v_in_copy v); [| lia].
  destruct (bool_decide _); simpl; [lia |].
  destruct (parse_data_row line); [| lia].
  destruct (bool_decide _); simpl; lia.
Qed.

Lemma table_files_length lines :
  length (table_files lines) = length (List.filter is_header lines).
Proof.
  induction lines as [|line rest IH]; [reflexivity |]. simpl.
  unfold is_header. destruct (header_of line) as [[t cols]|]; simpl; now rewrite IH.
Qed.

Lemma foldl_view_found lines : forall v,
  v_found (foldl view_step v lines)
  = v_found v + Z.of_nat (length (table_files lines)).
Proof.
  induction lines as [|line rest IH]; intros v; simpl; [lia |].
  rewrite IH, view_step_found. unfold is_header.
  destruct (header_of line) as [[t cols]|]; simpl; lia.
Qed.

(** A file that is neither the one being written nor named by a later
    header keeps its content. *)
Lemma foldl_view_other_file name lines : forall v,
  name ∉ table_files lines ->
  (v_in_copy v = true -> csv_name (fmt_table (v_table v)) <> name) ->
  v_files (foldl view_step v lines) !! name = v_files v !! name.
Proof.
  induction lines as [|line rest IH]; intros v Hnot Hcur; simpl; [reflexivity |].
  simpl in Hnot. unfold view_step.
  destruct (header_of line) as [[t cols]|] eqn:Hh.
  - apply not_elem_of_cons in Hnot as [Hne Hnot].
    rewrite IH; simpl; [| exact Hnot | intros _; congruence].
    now rewrite lookup_insert_ne by congruence.
  - destruct (v_in_copy v) eqn:Hi; [| apply IH; [exact Hnot | now rewrite Hi]].
    destruct (bool_decide (strip line = "\.")).
    + rewrite IH; simpl; [reflexivity | exact Hnot | discriminate].
    + destruct (parse_data_row line) as [fields|];
        [| apply IH; [exact Hnot | now rewrite Hi]].
      destruct (bool_decide _); [| apply IH; [exact Hnot | now rewrite Hi]].
      rewrite IH; simpl; [| exact Hnot | intros _; now apply Hcur].
      unfold append_file. rewrite lookup_insert_ne; [reflexivity |].
      now apply Hcur.
Qed.

(** Data lines inside the data block of [t] append their records to the
    file of [t]. *)
Lemma foldl_view_data_lines rows : forall v t,
  Forall data_line rows ->
  v_in_copy v = true -> v_table v = Some t ->
  foldl view_step v rows
  = {| v_files := append_file (csv_name t) (rows_text (v_columns v) rows)
                    (v_files v);
       v_table := Some t; v_columns := v_columns v; v_in_copy := true;
       v_found := v_found v |}
    \/ (rows_text (v_columns v) rows = "" /\ foldl view_step v rows = v).
Proof.
  induction rows as [|line rest IH]; intros v t Hall Hi Ht; simpl.
  - right. auto.
  - inversion Hall as [|? ? [Hh Hs] Hrest]; subst.
    assert (E : view_step v line
                = match parse_data_row line with
                  | Some fields =>
                      if bool_decide (length fields = length (v_columns v))
                      then
                        {| v_files := append_file
                                        (csv_name (fmt_table (v_table v)))
                                        (Csv.row fields) (v_files v);
                           v_table := v_table v; v_columns := v_columns v;
                           v_in_copy := true; v_found := v_found v |}
                      else v
                  | None => v
                  end).
    { unfold view_step. now rewrite Hh, Hi, (bool_decide_eq_false_2 _ Hs). }
    rewrite E. clear E.
    destruct (parse_data_row line) as [fields|]; [| now apply IH].
    destruct (bool_decide (length fields = length (v_columns v))) eqn:Hl;
      [| now apply IH].
    left.
    match goal with
    | |- foldl view_step ?v1 rest = _ =>
        destruct (IH v1 t Hrest eq_refl Ht) as [-> | [Hnil ->]]
    end; simpl.
    + f_equal. unfold append_file. rewrite Ht. simpl.
      rewrite lookup_insert_eq. simpl.
      now rewrite insert_insert_eq, string_app_assoc.
    + simpl in Hnil. rewrite Hnil, string_app_nil_r, Ht. reflexivity.
Qed.

Lemma foldl_view_data_lines_file rows v t :
  Forall data_line rows ->
  v_in_copy v = true -> v_table v = Some t ->
  is_Some (v_files v !! csv_name t) ->
  v_files (foldl view_step v rows) !! csv_name t
  = Some (default "" (v_files v !! csv_name t)
          +:+ rows_text (v_columns v) rows)
  /\ v_in_copy (foldl view_step v rows) = true
  /\ v_table (foldl view_step v rows) = Some t.
Proof.
  intros Hall Hi Ht [c Hc].
  destruct (foldl_view_data_lines rows v t Hall Hi Ht) as [-> | [Hnil ->]];
    simpl.
  - unfold append_file. now rewrite lookup_insert_eq.
  - rewrite Hnil, Hc. simpl. now rewrite string_app_nil_r.
Qed.

(** ** Further properties of [process_dump] *)

(** X1: the files a run leaves behind, the number of tables it finds
    and its success do not depend on the size of the buffer. *)
Theorem output_independent_of_buffer (b1 b2 : N) dump_file text output_dir
    (fs : filesystem) :
  fs_after (process_dump b1 dump_file (Some text) output_dir fs)
  = fs_after (process_dump b2 dump_file (Some text) output_dir fs)
  /\ tables_found (final (process_dump b1 dump_file (Some text)
                            output_dir fs))
     = tables_found (final (process_dump b2 dump_file (Some text)
                              output_dir fs))
  /\ ok (process_dump b1 dump_file (Some text) output_dir fs)
     = ok (process_dump b2 dump_file (Some text) output_dir fs).
Proof.
  destruct (process_dump_view b1 dump_file text output_dir fs) as [Hf1 Ht1].
  destruct (process_dump_view b2 dump_file text output_dir fs) as [Hf2 Ht2].
  split; [| split].
  - apply map_eq. intros d. destruct (decide (d = output_dir)) as [->|Hne].
    + now rewrite Hf1, Hf2.
    + unfold process_dump. simpl. now rewrite !lookup_insert_ne by congruence.
  - now rewrite Ht1, Ht2.
  - now rewrite !process_dump_ok.
Qed.

(** X2: the number of tables in the summary is the number of lines of
    the dump recognised as headers, a table that occurs twice being
    counted twice. *)
Theorem tables_found_counts_headers (buffer_size : N) dump_file text
    output_dir (fs : filesystem) :
  tables_found (final (process_dump buffer_size dump_file (Some text)
                         output_dir fs))
  = Z.of_nat (length (List.filter is_header (readlines text)))
  /\ (SUCCESS,
      TablesExported
        (Z.of_nat (length (List.filter is_header (readlines text)))))
     ∈ log (final (process_dump buffer_size dump_file (Some text)
                     output_dir fs)).
Proof.
  destruct (process_dump_view buffer_size dump_file text output_dir fs)
    as [_ Ht].
  assert (H : tables_found (final (process_dump buffer_size dump_file
                                     (Some text) output_dir fs))
              = Z.of_nat (length (List.filter is_header (readlines text)))).
  { rewrite Ht, foldl_view_found, table_files_length. simpl. lia. }
  split; [exact H |].
  destruct (process_dump_log buffer_size dump_file text output_dir fs)
    as (extra & -> & _). rewrite H.
  apply elem_of_app. right. apply elem_of_app. right.
  apply elem_of_cons. right. apply elem_of_cons. now left.
Qed.

Lemma start_files dump_file output_dir (fs : filesystem) name :
  v_files (view_of (start_state dump_file output_dir fs)) !! name
  = (fs !! output_dir) ≫= (fun d => d !! name).
Proof.
  unfold view_of, stored, start_state, mkdir_exist_ok. simpl.
  destruct (fs !! output_dir) as [d|] eqn:E; simpl.
  - now rewrite E.
  - now rewrite lookup_insert_eq.
Qed.

(** X3: a run writes only into the output directory, and there only to
    the files named after the tables whose headers occur in the dump:
    every other file of a directory that already existed is kept. *)
Theorem other_files_untouched (buffer_size : N) dump_file text output_dir
    (fs : filesystem) :
  (forall d, d <> output_dir ->
     fs_after (process_dump buffer_size dump_file (Some text) output_dir fs)
       !! d = fs !! d)
  /\ (forall name,
        name ∉ table_files (readlines text) ->
        fs_after (process_dump buffer_size dump_file (Some text)
                    output_dir fs) !! output_dir
          ≫= (fun d => d !! name)
        = (fs !! output_dir) ≫= (fun d => d !! name)).
Proof.
  split.
  - intros d Hne. unfold process_dump. simpl.
    rewrite lookup_insert_ne by congruence.
    unfold mkdir_exist_ok. destruct (fs !! output_dir); [reflexivity |].
    now rewrite lookup_insert_ne by congruence.
  - intros name Hnot.
    destruct (process_dump_view buffer_size dump_file text output_dir fs)
      as [-> _]. simpl.
    rewrite foldl_view_other_file; [apply start_files | exact Hnot |].
    discriminate.
Qed.

Lemma other_files_untouched_witness :
  ("notes.txt" ∉ table_files (readlines orders_dump))
  /\ fs_after (process_dump 8192 "Source Data" (Some orders_dump)
                 "csv_export" two_exports) !! "csv_export"
       ≫= (fun d => d !! "notes.txt")
     = Some "n".
Proof.
  assert (H : "notes.txt" ∉ table_files (readlines orders_dump)).
  { vm_compute. intros H. apply elem_of_cons in H as [H | H];
      [discriminate | now apply elem_of_nil in H]. }
  split; [exact H |].
  destruct (other_files_untouched 8192 "Source Data" orders_dump
              "csv_export" two_exports) as [_ Hfile].
  rewrite (Hfile _ H). vm_compute. reflexivity.
Defined.

(** The file of a table after its block, in terms of views. *)
Lemma foldl_block_file v pre hdr t cols rows post :
  header_of hdr = Some (t, cols) ->
  Forall data_line rows ->
  (forall l post', post = l :: post' -> ~ data_line l) ->
  csv_name t ∉ table_files post ->
  v_files (foldl view_step v (pre ++ hdr :: rows ++ post)) !! csv_name t
  = Some (Csv.row cols +:+ rows_text cols rows).
Proof.
  intros Hh Hrows Hpost Hnot.
  rewrite foldl_app. simpl. rewrite foldl_app.
  set (v0 := foldl view_step v pre).
  assert (Hv1 : view_step v0 hdr
                = {| v_files := <[csv_name t := Csv.row cols]> (v_files v0);
                     v_table := Some t; v_columns := cols;
                     v_in_copy := true; v_found := v_found v0 + 1 |}).
  { unfold view_step. now rewrite Hh. }
  rewrite Hv1.
  match goal with
  | |- v_files (foldl view_step (foldl view_step ?v1 rows) post) !! _ = _ =>
      destruct (foldl_view_data_lines_file rows v1 t Hrows eq_refl eq_refl)
        as (Hfile & Hi & Ht); [simpl; rewrite lookup_insert_eq; eauto |];
      set (v2 := foldl view_step v1 rows) in *
  end.
  simpl in Hfile. rewrite lookup_insert_eq in Hfile. simpl in Hfile.
  destruct post as [|l post']; simpl; [exact Hfile |].
  specialize (Hpost l post' eq_refl). simpl in Hnot.
  rewrite foldl_view_other_file.
  - unfold view_step. destruct (header_of l) as [[t' cols']|] eqn:Hl; simpl.
    + apply not_elem_of_cons in Hnot as [Hne _].
      rewrite lookup_insert_ne by congruence. exact Hfile.
    + rewrite Hi. destruct (decide (strip l = "\.")) as [Hs|Hs].
      * rewrite (bool_decide_eq_true_2 _ Hs). exact Hfile.
      * exfalso. apply Hpost. split; assumption.
  - destruct (header_of l) as [[t' cols']|]; [| exact Hnot].
    now apply not_elem_of_cons in Hnot as [_ Hnot].
  - unfold view_step. destruct (header_of l) as [[t' cols']|] eqn:Hl; simpl.
    + intros _. apply not_elem_of_cons in Hnot as [Hne _]. congruence.
    + rewrite Hi. destruct (decide (strip l = "\.")) as [Hs|Hs].
      * rewrite (bool_decide_eq_true_2 _ Hs). discriminate.
      * exfalso. apply Hpost. split; assumption.
Qed.

(** X4: the file of a table.  When the header of table [t] with columns
    [cols] is followed by the data lines [rows], and what comes after
    (if anything) starts with a line that is not a data line and holds
    no further header of a table with the same file name, the run leaves
    in the file of [t] the header record followed by the records of the
    rows whose field count is that of [cols], whatever came before. *)
Theorem table_file_content (buffer_size : N) dump_file text output_dir
    (fs : filesystem) pre hdr t cols rows post :
  readlines text = pre ++ hdr :: rows ++ post ->
  header_of hdr = Some (t, cols) ->
  Forall data_line rows ->
  (forall l post', post = l :: post' -> ~ data_line l) ->
  csv_name t ∉ table_files post ->
  fs_after (process_dump buffer_size dump_file (Some text) output_dir fs)
    !! output_dir ≫= (fun d => d !! csv_name t)
  = Some (Csv.row cols +:+ rows_text cols rows).
Proof.
  intros Hlines Hh Hrows Hpost Hnot.
  destruct (process_dump_view buffer_size dump_file text output_dir fs)
    as [-> _]. simpl. rewrite Hlines.
  now apply foldl_block_file.
Qed.

Lemma table_file_content_witness :
  readlines twice_dump
  = ["COPY t (a) FROM stdin;" +:+ nl; "1" +:+ nl; "\." +:+ nl]
    ++ ("COPY public.t (a) FROM stdin;" +:+ nl)
       :: ["2" +:+ nl; "3" +:+ nl] ++ ["\." +:+ nl]
  /\ header_of ("COPY public.t (a) FROM stdin;" +:+ nl) = Some ("t", ["a"])
  /\ Forall data_line ["2" +:+ nl; "3" +:+ nl]
  /\ fs_after (process_dump 8192 "Source Data" (Some twice_dump)
                 "csv_export" ∅) !! "csv_export"
       ≫= (fun d => d !! "t.csv")
     = Some (Csv.row ["a"] +:+ Csv.row ["2"] +:+ Csv.row ["3"]).
Proof.
  assert (H1 : readlines twice_dump
               = ["COPY t (a) FROM stdin;" +:+ nl; "1" +:+ nl; "\." +:+ nl]
                 ++ ("COPY public.t (a) FROM stdin;" +:+ nl)
                    :: ["2" +:+ nl; "3" +:+ nl] ++ ["\." +:+ nl])
    by (vm_compute; reflexivity).
  assert (H2 : header_of ("COPY public.t (a) FROM stdin;" +:+ nl)
               = Some ("t", ["a"])) by (vm_compute; reflexivity).
  assert (H3 : Forall data_line ["2" +:+ nl; "3" +:+ nl]).
  { repeat constructor; vm_compute; discriminate. }
  assert (H4 : forall l post', ["\." +:+ nl] = l :: post' -> ~ data_line l).
  { intros l post' [= <- <-] [_ H]. apply H. vm_compute. reflexivity. }
  assert (H5 : csv_name "t" ∉ table_files ["\." +:+ nl]).
  { vm_compute. apply not_elem_of_nil. }
  split; [exact H1 |]. split; [exact H2 |]. split; [exact H3 |].
  rewrite (table_file_content 8192 "Source Data" twice_dump "csv_export" ∅
             _ _ _ _ _ _ H1 H2 H3 H4 H5).
  vm_compute. reflexivity.
Defined.


(** ** [main] *)






(** ** Facts about [split], [join] and the stripping functions *)

Lemma contains_char_cons p c s :
  contains_char p (String c s) = p c || contains_char p s.
Proof. reflexivity. Qed.

Lemma contains_char_app p a b :
  contains_char p (a +:+ b) = contains_char p a || contains_char p b.
Proof.
  induction a as [|x a IH]; [reflexivity |].
  rewrite string_app_cons, !contains_char_cons, IH. now rewrite orb_assoc.
Qed.

Lemma free_of_cons p c s : free_of p (String c s) <-> p c = false /\ free_of p s.
Proof. unfold free_of. rewrite contains_char_cons. apply orb_false_iff. Qed.

Lemma free_of_app p a b : free_of p (a +:+ b) <-> free_of p a /\ free_of p b.
Proof. unfold free_of. rewrite contains_char_app. apply orb_false_iff. Qed.

Lemma free_of_nil p : free_of p "".
Proof. reflexivity. Qed.

Lemma string_all_free p q s :
  string_all p s = true -> (forall c, p c = true -> q c = false) -> free_of q s.
Proof.
  intros Hs Hpq. induction s as [|c s IH]; [reflexivity |].
  rewrite string_all_cons in Hs. apply andb_true_iff in Hs as [Hc Hs].
  apply free_of_cons. auto.
Qed.

Lemma split_not_nil sep s : split sep s <> [].
Proof.
  destruct s as [|c s]; simpl; [discriminate |].
  destruct (bool_decide _); [discriminate |].
  destruct (split sep s); discriminate.
Qed.

Lemma split_length sep s : length (split sep s) = S (count_char sep s).
Proof.
  induction s as [|c s IH]; [reflexivity |]. simpl.
  destruct (bool_decide (c = sep)); simpl; [now rewrite IH |].
  destruct (split sep s); simpl in *; [discriminate | exact IH].
Qed.

Lemma split_free_sep sep s : Forall (free_of (is_char sep)) (split sep s).
Proof.
  induction s as [|c s IH]; simpl; [repeat constructor |].
  destruct (bool_decide (c = sep)) eqn:E; [constructor; [reflexivity | exact IH] |].
  destruct (split sep s) as [|f fs]; [repeat constructor; now apply free_of_cons |].
  inversion IH; subst. constructor; [| assumption].
  apply free_of_cons. auto.
Qed.

Lemma split_free p sep s : free_of p s -> Forall (free_of p) (split sep s).
Proof.
  induction s as [|c s IH]; simpl; intros H; [repeat constructor |].
  apply free_of_cons in H as [Hc Hs]. specialize (IH Hs).
  destruct (bool_decide (c = sep)); [constructor; [reflexivity | exact IH] |].
  destruct (split sep s) as [|f fs]; [repeat constructor; now apply free_of_cons |].
  inversion IH; subst. constructor; [| assumption].
  apply free_of_cons. auto.
Qed.

Lemma join_split sep s : join (String sep "") (split sep s) = s.
Proof.
  induction s as [|c s IH]; [reflexivity |]. simpl.
  destruct (bool_decide (c = sep)) eqn:E.
  - apply bool_decide_eq_true in E. subst c.
    pose proof (split_not_nil sep s) as Hne.
    destruct (split sep s) as [|f fs]; [congruence |].
    change (join (String sep "") ("" :: f :: fs))
      with ("" +:+ String sep "" +:+ join (String sep "") (f :: fs)).
    now rewrite IH.
  - destruct (split sep s) as [|f fs]; [now destruct s |].
    destruct fs as [|g fs]; simpl in *; [now rewrite IH |].
    rewrite string_app_cons. now rewrite IH.
Qed.

Lemma lstrip_free p s : free_of p s -> free_of p (lstrip s).
Proof.
  induction s as [|c s IH]; simpl; intros H; [exact H |].
  destruct (Char.isspace c); [| exact H].
  apply free_of_cons in H as [_ H]. auto.
Qed.

Lemma rstrip_chars_free p q s : free_of p s -> free_of p (rstrip_chars q s).
Proof.
  induction s as [|c s IH]; simpl; intros H; [exact H |].
  apply free_of_cons in H as [Hc H]. specialize (IH H).
  destruct (rstrip_chars q s) as [|x r].
  - destruct (q c); [reflexivity | now apply free_of_cons].
  - apply free_of_cons. auto.
Qed.

Lemma substring_free p s : forall n m,
  free_of p s -> free_of p (String.substring n m s).
Proof.
  induction s as [|c s IH]; intros n m H.
  - destruct n, m; reflexivity.
  - apply free_of_cons in H as [Hc H].
    destruct n as [|n]; destruct m as [|m]; simpl; try reflexivity.
    + apply free_of_cons. auto.
    + now apply IH.
    + now apply IH.
Qed.

Lemma parse_column_free p col : free_of p col -> free_of p (parse_column col).
Proof.
  intros H. unfold parse_column, strip, slice_1_m1.
  assert (Hs : free_of p (lstrip (rstrip_chars Char.isspace col)))
    by now apply lstrip_free, rstrip_chars_free.
  destruct (_ && _); [now apply substring_free | exact Hs].
Qed.

(** ** Further properties of the two parsers *)

(** X7: the table name [parse_copy_statement] derives is never empty
    and is made of word characters only, so that the name of the output
    file holds no path separator. *)
Theorem derived_name_is_word line name cols :
  parse_copy_statement line = Some (name, cols) ->
  name <> ""
  /\ string_all Char.isword name = true
  /\ free_of (is_char "/") (csv_name name).
Proof.
  unfold parse_copy_statement.
  destruct (Re.rmatch true COPY_PATTERN line) as [m|] eqn:Hm; [| discriminate].
  destruct (copy_pattern_shape _ _ Hm) as (table & text & H2 & H3 & Hs).
  rewrite H2, H3. intros [= <- _].
  destruct Hs as (? & ? & ? & ? & ? & ? & ? & ? & _ & _ & _ & _ & _ & _ & _
                  & _ & [Htne Ht] & Hsch & _).
  assert (Hw : full_table_name (m !! 1%nat) table <> ""
               /\ string_all Char.isword (full_table_name (m !! 1%nat) table)
                  = true).
  { unfold full_table_name. destruct (m !! 1%nat) as [sch|]; [| auto].
    destruct (Hsch sch eq_refl) as [Hne Hw].
    destruct (_ && _); [| auto]. split.
    - destruct sch; [congruence | discriminate].
    - rewrite !string_all_app, Hw, Ht. reflexivity. }
  destruct Hw as [Hne Hw]. split; [exact Hne |]. split; [exact Hw |].
  unfold csv_name. apply free_of_app. split; [| reflexivity].
  apply (string_all_free _ _ _ Hw). intros c Hc. unfold is_char.
  apply bool_decide_eq_false. intros ->. discriminate.
Qed.

Lemma derived_name_is_word_witness :
  parse_copy_statement ("COPY ar.items (sku) FROM stdin;" +:+ nl)
  = Some ("ar_items", ["sku"])
  /\ string_all Char.isword "ar_items" = true
  /\ free_of (is_char "/") (csv_name "ar_items").
Proof.
  assert (H : parse_copy_statement ("COPY ar.items (sku) FROM stdin;" +:+ nl)
              = Some ("ar_items", ["sku"])) by (vm_compute; reflexivity).
  split; [exact H |].
  destruct (derived_name_is_word _ _ _ H) as (_ & Hw & Hf). auto.
Defined.

(** X8: the column list is the text between the parentheses cut at
    every comma, quoted or not: one column more than there are commas,
    at least one, and no column holds a comma or a line feed. *)
Theorem columns_split_on_commas line name cols :
  parse_copy_statement line = Some (name, cols) ->
  exists schema table text,
    Shape.header line schema table text
    /\ length cols = S (count_char Char.comma text)
    /\ Forall (free_of (is_char Char.comma)) cols
    /\ Forall (free_of (is_char Char.lf)) cols.
Proof.
  unfold parse_copy_statement.
  destruct (Re.rmatch true COPY_PATTERN line) as [m|] eqn:Hm; [| discriminate].
  destruct (copy_pattern_shape _ _ Hm) as (table & text & H2 & H3 & Hs).
  rewrite H2, H3. intros [= _ <-].
  exists (m !! 1%nat), table, text. split; [exact Hs |].
  split; [now rewrite length_fmap, split_length |].
  split.
  - apply Forall_fmap. eapply Forall_impl; [apply split_free_sep |].
    intros col Hc. now apply parse_column_free.
  - destruct Hs as (? & ? & ? & ? & ? & ? & ? & ? & _ & _ & _ & _ & _ & _ & _
                    & _ & _ & _ & Htext).
    assert (Hlf : free_of (is_char Char.lf) text).
    { apply (string_all_free _ _ _ Htext). intros c Hc. unfold is_char.
      now apply negb_true_iff in Hc. }
    apply Forall_fmap. eapply Forall_impl; [apply (split_free _ _ _ Hlf) |].
    intros col Hc. now apply parse_column_free.
Qed.

Lemma columns_split_on_commas_witness :
  parse_copy_statement
    ("COPY t (" +:+ String Char.dquote "a,b" +:+ String Char.dquote ", c"
     +:+ ") FROM stdin;")
  = Some ("t", [String Char.dquote "a"; "b" +:+ String Char.dquote ""; "c"])
  /\ exists schema table text,
       Shape.header
         ("COPY t (" +:+ String Char.dquote "a,b" +:+ String Char.dquote ", c"
          +:+ ") FROM stdin;") schema table text
       /\ 3%nat = S (count_char Char.comma text).
Proof.
  assert (H : parse_copy_statement
                ("COPY t (" +:+ String Char.dquote "a,b"
                 +:+ String Char.dquote ", c" +:+ ") FROM stdin;")
              = Some ("t", [String Char.dquote "a";
                            "b" +:+ String Char.dquote ""; "c"]))
    by (vm_compute; reflexivity).
  split; [exact H |].
  destruct (columns_split_on_commas _ _ _ H)
    as (schema & table & text & Hs & Hl & _).
  exists schema, table, text. split; [exact Hs | exact Hl].
Defined.

(** X9: a line that is not one of the two spellings of the end-of-data
    line always yields fields: one more than it has tabs, none holding
    a tab, none being the null marker; and when no field of the line is
    the null marker, joining the fields with tabs gives the line back
    without its trailing newlines. *)
Theorem data_row_round_trip line :
  (parse_data_row line = None
   <-> line = "\." +:+ String Char.lf "" \/ line = "\.")
  /\ forall fields,
       parse_data_row line = Some fields ->
       length fields = S (count_char Char.tab (rstrip_newline line))
       /\ Forall (free_of (is_char Char.tab)) fields
       /\ Forall (fun f => f <> "\N") fields
       /\ (Forall (fun f => f <> "\N")
             (split Char.tab (rstrip_newline line)) ->
           join (String Char.tab "") fields = rstrip_newline line).
Proof.
  unfold parse_data_row. split.
  - destruct (bool_decide (line = _)) eqn:E1; simpl.
    + apply bool_decide_eq_true in E1. tauto.
    + apply bool_decide_eq_false in E1.
      destruct (bool_decide (line = "\.")) eqn:E2.
      * apply bool_decide_eq_true in E2. tauto.
      * apply bool_decide_eq_false in E2. split; [discriminate | tauto].
  - intros fields. destruct (_ || _); [discriminate |]. intros [= <-].
    split; [now rewrite length_fmap, split_length |].
    split.
    { apply Forall_fmap. eapply Forall_impl; [apply split_free_sep |].
      intros f Hf. simpl. now destruct (bool_decide (f = "\N")). }
    split.
    { apply Forall_fmap, Forall_forall. intros f _. simpl.
      destruct (bool_decide (f = "\N")) eqn:E; [discriminate |].
      now apply bool_decide_eq_false in E. }
    intros Hno.
    rewrite <- (join_split Char.tab (rstrip_newline line)) at 2. f_equal.
    induction Hno as [|f fs Hf Hfs IH]; [reflexivity |]. simpl.
    rewrite (bool_decide_eq_false_2 _ Hf). now f_equal.
Qed.

Lemma data_row_round_trip_witness :
  parse_data_row ("1" +:+ tb +:+ "9.99" +:+ nl) = Some ["1"; "9.99"]
  /\ join (String Char.tab "") ["1"; "9.99"]
     = rstrip_newline ("1" +:+ tb +:+ "9.99" +:+ nl).
Proof.
  assert (H : parse_data_row ("1" +:+ tb +:+ "9.99" +:+ nl)
              = Some ["1"; "9.99"]) by (vm_compute; reflexivity).
  split; [exact H |].
  destruct (data_row_round_trip ("1" +:+ tb +:+ "9.99" +:+ nl)) as [_ Hf].
  destruct (Hf _ H) as (_ & _ & _ & Hj). apply Hj.
  vm_compute. repeat constructor; discriminate.
Defined.

(** ** A further property of the comparator *)

(** X10: comparing in the other direction visits the same names in the
    same order and mirrors every verdict: NEW (for a file that exists)
    becomes MISSING and back, UNCHANGED stays, and a change by [d] rows
    becomes a change by [-d].  A reported increase is always positive, a
    reported decrease always negative, and only these two and MISSING
    are logged as warnings. *)
Theorem compare_directions (new_dir old_dir : directory) name :
  sorted_names new_dir old_dir = sorted_names old_dir new_dir
  /\ match classify new_dir old_dir name with
     | (lv, NewFile f) =>
         lv = INFO /\ f = name /\ old_dir !! name = None
         /\ (is_Some (new_dir !! name) ->
             classify old_dir new_dir name = (WARNING, MissingFile name))
     | (lv, MissingFile f) =>
         lv = WARNING /\ f = name /\ new_dir !! name = None
         /\ classify old_dir new_dir name = (INFO, NewFile name)
     | (lv, Unchanged f n) =>
         lv = SUCCESS /\ f = name
         /\ classify old_dir new_dir name = (SUCCESS, Unchanged name n)
     | (lv, Increased f n d) =>
         lv = WARNING /\ f = name /\ 0 < d
         /\ classify old_dir new_dir name
            = (WARNING, Decreased name (n - d) (- d))
     | (lv, Decreased f n d) =>
         lv = WARNING /\ f = name /\ d < 0
         /\ classify old_dir new_dir name
            = (WARNING, Increased name (n - d) (- d))
     | _ => False
     end.
Proof.
  split.
  - unfold sorted_names. do 2 f_equal. apply (comm_L (∪)).
  - unfold classify.
    destruct (old_dir !! name) as [oc|] eqn:Ho.
    + destruct (new_dir !! name) as [nc|] eqn:Hn; [| auto].
      set (n := count_lines nc - 1). set (o := count_lines oc - 1).
      destruct (n =? o) eqn:E.
      * apply Z.eqb_eq in E. rewrite <- E, Z.eqb_refl. auto.
      * apply Z.eqb_neq in E.
        assert (E' : (o =? n) = false) by (apply Z.eqb_neq; lia).
        rewrite E'.
        destruct (n - o >? 0) eqn:G.
        -- assert (0 < n - o) by lia.
           assert (G' : (o - n >? 0) = false) by lia. rewrite G'.
           repeat split; try lia. f_equal. f_equal; lia.
        -- assert (n - o < 0) by lia.
           assert (G' : (o - n >? 0) = true) by lia. rewrite G'.
           repeat split; try lia. f_equal. f_equal; lia.
    + repeat split. intros [nc ->]. reflexivity.
Qed.

(** ** The header pattern accepts the headers [pg_dump] writes *)

Lemma word_not_space c : Char.isword c = true -> Char.isspace c = false.
Proof. destruct c as [[] [] [] [] [] [] [] []]; vm_compute; congruence. Qed.

Lemma word_not_dot c :
  Char.isword c = true -> Re.lit_matches true "." c = false.
Proof. destruct c as [[] [] [] [] [] [] [] []]; vm_compute; congruence. Qed.

Lemma lit_rparen c : Re.lit_matches true ")" c = true -> c = ")"%char.
Proof. destruct c as [[] [] [] [] [] [] [] []]; vm_compute; congruence. Qed.

Lemma lit_matches_same c : Re.lit_matches true c c = true.
Proof. unfold Re.lit_matches. now apply bool_decide_eq_true_2. Qed.

Lemma startswith_app p s : startswith (p +:+ s) p = true.
Proof.
  induction p as [|c p IH]; [now destruct s |].
  rewrite string_app_cons, startswith_cons.
  destruct (ascii_dec c c); [exact IH | congruence].
Qed.

Section Commit.
Context {R : Type}.
Variable ic : bool.
Implicit Types (k : string -> Re.captures -> option R) (w s : string).

Lemma star_greedy_commit p (k : string -> option R) w s x :
  string_all p w = true -> stops p s -> k s = Some x ->
  Re.star_greedy p k (w +:+ s) = Some x.
Proof.
  intros Hw Hs Hk. induction w as [|c w IH].
  - change ("" +:+ s) with s. destruct s as [|c s']; simpl; [exact Hk |].
    now rewrite (Hs c s' eq_refl).
  - rewrite string_all_cons in Hw. apply andb_true_iff in Hw as [Hc Hw].
    rewrite string_app_cons. simpl. rewrite Hc, (IH Hw). reflexivity.
Qed.

Lemma star_greedy_none p (k : string -> option R) w s :
  string_all p w = true -> stops p s ->
  (forall w1 w2, w = w1 +:+ w2 -> k (w2 +:+ s) = None) ->
  Re.star_greedy p k (w +:+ s) = None.
Proof.
  intros Hw Hs. induction w as [|c w IH]; intros Hk.
  - change ("" +:+ s) with s. pose proof (Hk "" "" eq_refl) as H0.
    change ("" +:+ s) with s in H0.
    destruct s as [|c s']; simpl; [exact H0 |].
    now rewrite (Hs c s' eq_refl).
  - rewrite string_all_cons in Hw. apply andb_true_iff in Hw as [Hc Hw].
    rewrite string_app_cons. simpl. rewrite Hc, (IH Hw).
    + simpl. exact (Hk "" (String c w) eq_refl).
    + intros w1 w2 ->. exact (Hk (String c w1) w2 eq_refl).
Qed.

Lemma star_lazy_commit p (k : string -> option R) w s x :
  string_all p w = true ->
  (forall w1 c w2, w = w1 +:+ String c w2 -> k (String c w2 +:+ s) = None) ->
  k s = Some x ->
  Re.star_lazy p k (w +:+ s) = Some x.
Proof.
  intros Hw Hno Hk. induction w as [|c w IH].
  - change ("" +:+ s) with s. destruct s; simpl; now rewrite Hk.
  - rewrite string_all_cons in Hw. apply andb_true_iff in Hw as [Hc Hw].
    rewrite string_app_cons. simpl.
    pose proof (Hno "" c w eq_refl) as H0. rewrite string_app_cons in H0.
    rewrite H0, Hc. simpl. apply (IH Hw).
    intros w1 c' w2 ->. exact (Hno (String c w1) c' w2 eq_refl).
Qed.

Lemma run_lit_commit p r c s caps k x :
  Re.lit_matches ic p c = true ->
  Re.run ic r s caps k = Some x ->
  Re.run ic (Re.Cat (Re.Lit p) r) (String c s) caps k = Some x.
Proof. intros Hm Hr. simpl. now rewrite Hm. Qed.

Lemma run_lit_none p r s caps k :
  (forall c s', s = String c s' -> Re.lit_matches ic p c = false) ->
  Re.run ic (Re.Cat (Re.Lit p) r) s caps k = None.
Proof.
  intros H. destruct s as [|c s']; simpl; [reflexivity |].
  now rewrite (H c s' eq_refl).
Qed.

Lemma run_plus_commit cl r w s caps k x :
  Shape.some_of (Re.in_class cl) w -> stops (Re.in_class cl) s ->
  Re.run ic r s caps k = Some x ->
  Re.run ic (Re.Cat (Re.Plus cl) r) (w +:+ s) caps k = Some x.
Proof.
  intros [Hne Hw] Hs Hr. destruct w as [|c w]; [congruence |].
  rewrite string_all_cons in Hw. apply andb_true_iff in Hw as [Hc Hw].
  rewrite string_app_cons. simpl. unfold Re.plus_greedy. rewrite Hc.
  now apply star_greedy_commit.
Qed.

Lemma run_star_commit cl r w s caps k x :
  Shape.all_of (Re.in_class cl) w -> stops (Re.in_class cl) s ->
  Re.run ic r s caps k = Some x ->
  Re.run ic (Re.Cat (Re.Star cl) r) (w +:+ s) caps k = Some x.
Proof. intros Hw Hs Hr. simpl. now apply star_greedy_commit. Qed.

Lemma run_group_plus_commit n cl r w s caps k x :
  Shape.some_of (Re.in_class cl) w -> stops (Re.in_class cl) s ->
  Re.run ic r s (<[n := w]> caps) k = Some x ->
  Re.run ic (Re.Cat (Re.Group n (Re.Plus cl)) r) (w +:+ s) caps k = Some x.
Proof.
  intros [Hne Hw] Hs Hr. destruct w as [|c w]; [congruence |].
  rewrite string_all_cons in Hw. apply andb_true_iff in Hw as [Hc Hw].
  simpl. unfold Re.plus_greedy. rewrite string_app_cons, Hc.
  apply star_greedy_commit; [exact Hw | exact Hs |].
  rewrite <- string_app_cons, consumed_app. exact Hr.
Qed.

Lemma run_group_plus_none n cl r w s caps k :
  Shape.some_of (Re.in_class cl) w -> stops (Re.in_class cl) s ->
  (forall w2 caps', string_all (Re.in_class cl) w2 = true ->
                    Re.run ic r (w2 +:+ s) caps' k = None) ->
  Re.run ic (Re.Cat (Re.Group n (Re.Plus cl)) r) (w +:+ s) caps k = None.
Proof.
  intros [Hne Hw] Hs Hr. destruct w as [|c w]; [congruence |].
  rewrite string_all_cons in Hw. apply andb_true_iff in Hw as [Hc Hw].
  simpl. unfold Re.plus_greedy. rewrite string_app_cons, Hc.
  apply star_greedy_none; [exact Hw | exact Hs |].
  intros w1 w2 E. apply Hr. subst w. rewrite string_all_app in Hw.
  now apply andb_true_iff in Hw as [_ Hw].
Qed.

Lemma run_group_lazy_commit n cl r w s caps k x :
  Shape.all_of (Re.in_class cl) w ->
  (forall c w2 caps', Re.run ic r (String c w2 +:+ s) caps' k = None
                      \/ ~ exists w1, w = w1 +:+ String c w2) ->
  Re.run ic r s (<[n := w]> caps) k = Some x ->
  Re.run ic (Re.Cat (Re.Group n (Re.LazyStar cl)) r) (w +:+ s) caps k
  = Some x.
Proof.
  intros Hw Hno Hr. simpl.
  apply star_lazy_commit; [exact Hw | | now rewrite consumed_app].
  intros w1 c w2 ->. destruct (Hno c w2 (<[n := Re.consumed
      ((w1 +:+ String c w2) +:+ s) (String c w2 +:+ s)]> caps)) as [H | H];
    [exact H | exfalso; apply H; eauto].
Qed.

Lemma run_opt_take r1 r2 s caps k x :
  Re.run ic (Re.Cat r1 r2) s caps k = Some x ->
  Re.run ic (Re.Cat (Re.Opt r1) r2) s caps k = Some x.
Proof. simpl. now intros ->. Qed.

Lemma run_opt_skip r1 r2 s caps k x :
  Re.run ic (Re.Cat r1 r2) s caps k = None ->
  Re.run ic r2 s caps k = Some x ->
  Re.run ic (Re.Cat (Re.Opt r1) r2) s caps k = Some x.
Proof. simpl. now intros -> ->. Qed.

End Commit.

Lemma run_lits_commit {R} kw : forall r s caps
    (k : string -> Re.captures -> option R) x,
  Re.run true r s caps k = Some x ->
  Re.run true (Re.lits kw r) (kw +:+ s) caps k = Some x.
Proof.
  induction kw as [|c kw IH]; intros r s caps k x Hr; [exact Hr |].
  rewrite string_app_cons. simpl Re.lits.
  apply run_lit_commit; [apply lit_matches_same | now apply IH].
Qed.

Lemma stops_cons p c s : p c = false -> stops p (String c s).
Proof. intros H c' s' [= <- _]. exact H. Qed.

Lemma stops_word_app p w s :
  Shape.some_of Char.isword w ->
  (forall c, Char.isword c = true -> p c = false) ->
  stops p (w +:+ s).
Proof.
  intros [Hne Hw] Hp. destruct w as [|c w]; [congruence |].
  rewrite string_all_cons in Hw. apply andb_true_iff in Hw as [Hc _].
  rewrite string_app_cons. apply stops_cons. auto.
Qed.

Section Canonical.
Variables (t cols rest : string).
Hypothesis Ht : Shape.some_of Char.isword t.
Hypothesis Hparen : free_of (is_char ")") cols.
Hypothesis Hlf : free_of (is_char Char.lf) cols.

(** From the table identifier on, with the captures made so far. *)
Lemma run_from_table (caps : Re.captures) :
  Re.run true
    (Re.Cat (Re.Group 2 (Re.Plus Re.Word))
    (Re.Cat (Re.Star Re.Space)
    (Re.Cat (Re.Lit "(")
    (Re.Cat (Re.Group 3 (Re.LazyStar Re.AnyChar))
    (Re.Cat (Re.Lit ")")
    (Re.Cat (Re.Plus Re.Space)
    (Re.lits "FROM"
    (Re.Cat (Re.Plus Re.Space)
    (Re.lits "stdi" (Re.Lit "n"))))))))))
    (t +:+ " " +:+ String "(" (cols +:+ String ")"
       (" " +:+ "FROM" +:+ " " +:+ "stdi" +:+ String "n" rest)))
    caps (fun _ c => Some c)
  = Some (<[3%nat := cols]> (<[2%nat := t]> caps)).
Proof.
  apply run_group_plus_commit; [exact Ht | now apply stops_cons |].
  apply (run_star_commit _ _ _ " ");
    [reflexivity | now apply stops_cons |].
  apply run_lit_commit; [reflexivity |].
  apply run_group_lazy_commit.
  - induction cols as [|c s IH]; [reflexivity |].
    apply free_of_cons in Hlf as [Hc Hs]. apply free_of_cons in Hparen as [_ Hp].
    unfold Shape.all_of. rewrite string_all_cons. apply andb_true_iff.
    split; [| apply IH; assumption].
    simpl. unfold is_char in Hc. now rewrite Hc.
  - intros c w2 caps'. destruct (decide (c = ")"%char)) as [->|Hne].
    + right. intros [w1 ->]. apply free_of_app in Hparen as [_ H].
      apply free_of_cons in H as [H _]. discriminate H.
    + left. rewrite string_app_cons. apply run_lit_none.
      intros c' s' [= <- _].
      destruct (Re.lit_matches true ")" c) eqn:E; [| reflexivity].
      now apply lit_rparen in E.
  - apply run_lit_commit; [reflexivity |].
    apply (run_plus_commit _ _ _ " ");
      [split; [discriminate | reflexivity] | now apply stops_cons |].
    apply run_lits_commit.
    apply (run_plus_commit _ _ _ " ");
      [split; [discriminate | reflexivity] | now apply stops_cons |].
    apply run_lits_commit. reflexivity.
Qed.

Lemma rmatch_unqualified :
  Re.rmatch true COPY_PATTERN
    ("COPY " +:+ t +:+ " (" +:+ cols +:+ ") FROM stdin" +:+ rest)
  = Some (<[3%nat := cols]> (<[2%nat := t]> ∅)).
Proof.
  unfold Re.rmatch, COPY_PATTERN.
  change ("COPY " +:+ t +:+ " (" +:+ cols +:+ ") FROM stdin" +:+ rest)
    with ("COPY" +:+ " " +:+ t +:+ " " +:+ String "(" (cols +:+ String ")"
            (" " +:+ "FROM" +:+ " " +:+ "stdi" +:+ String "n" rest))).
  apply run_lits_commit.
  apply (run_plus_commit _ _ _ " ");
    [split; [discriminate | reflexivity]
    | apply (stops_word_app _ _ _ Ht), word_not_space |].
  apply run_opt_skip; [| apply run_from_table].
  change (Re.run true (Re.Cat (Re.Cat ?a ?b) ?c) ?s ?caps ?k)
    with (Re.run true (Re.Cat a (Re.Cat b c)) s caps k).
  apply run_group_plus_none; [exact Ht | now apply stops_cons |].
  intros w2 caps' Hw2. apply run_lit_none. intros c s' E.
  destruct w2 as [|c2 w2].
  - inversion E; subst. reflexivity.
  - rewrite string_app_cons in E. inversion E; subst.
    rewrite string_all_cons in Hw2. apply andb_true_iff in Hw2 as [Hc _].
    now apply word_not_dot.
Qed.

Lemma rmatch_qualified sch :
  Shape.some_of Char.isword sch ->
  Re.rmatch true COPY_PATTERN
    ("COPY " +:+ sch +:+ "." +:+ t +:+ " (" +:+ cols +:+ ") FROM stdin"
     +:+ rest)
  = Some (<[3%nat := cols]> (<[2%nat := t]> (<[1%nat := sch]> ∅))).
Proof.
  intros Hsch. unfold Re.rmatch, COPY_PATTERN.
  change ("COPY " +:+ sch +:+ "." +:+ t +:+ " (" +:+ cols
          +:+ ") FROM stdin" +:+ rest)
    with ("COPY" +:+ " " +:+ sch +:+ String "." (t +:+ " " +:+ String "("
            (cols +:+ String ")"
               (" " +:+ "FROM" +:+ " " +:+ "stdi" +:+ String "n" rest)))).
  apply run_lits_commit.
  apply (run_plus_commit _ _ _ " ");
    [split; [discriminate | reflexivity]
    | apply (stops_word_app _ _ _ Hsch), word_not_space |].
  apply run_opt_take.
  change (Re.run true (Re.Cat (Re.Cat ?a ?b) ?c) ?s ?caps ?k)
    with (Re.run true (Re.Cat a (Re.Cat b c)) s caps k).
  apply run_group_plus_commit; [exact Hsch | now apply stops_cons |].
  apply run_lit_commit; [reflexivity |].
  apply run_from_table.
Qed.

End Canonical.

(** X11: the headers [pg_dump] writes are recognised.  For a table
    identifier and, when present, a schema identifier made of word
    characters, and a column text free of closing parentheses and line
    feeds, the line [COPY schema.table (columns) FROM stdin] followed by
    anything is recognised by the loop as the header of the table with
    the derived name and the columns cut at the commas; so is the line
    without the qualifier. *)
Theorem canonical_header_recognised sch t cols rest :
  Shape.some_of Char.isword t ->
  free_of (is_char ")") cols -> free_of (is_char Char.lf) cols ->
  header_of ("COPY " +:+ t +:+ " (" +:+ cols +:+ ") FROM stdin" +:+ rest)
  = Some (t, parse_column <$> split Char.comma cols)
  /\ (Shape.some_of Char.isword sch ->
      header_of ("COPY " +:+ sch +:+ "." +:+ t +:+ " (" +:+ cols
                 +:+ ") FROM stdin" +:+ rest)
      = Some (if bool_decide (lower sch = "public") then t
              else sch +:+ "_" +:+ t,
              parse_column <$> split Char.comma cols)).
Proof.
  intros Ht Hp Hl. split.
  - unfold header_of. rewrite startswith_app.
    unfold parse_copy_statement.
    rewrite (rmatch_unqualified t cols rest Ht Hp Hl).
    now simplify_map_eq.
  - intros Hsch. unfold header_of. rewrite startswith_app.
    unfold parse_copy_statement.
    rewrite (rmatch_qualified t cols rest Ht Hp Hl sch Hsch).
    simplify_map_eq. do 2 f_equal. unfold full_table_name.
    destruct Hsch as [Hne _]. rewrite (bool_decide_eq_false_2 _ Hne). simpl.
    now destruct (bool_decide (lower sch = "public")).
Qed.

Lemma canonical_header_recognised_witness :
  Shape.some_of Char.isword "items" /\ Shape.some_of Char.isword "ar"
  /\ free_of (is_char ")") "sku, qty"
  /\ free_of (is_char Char.lf) "sku, qty"
  /\ header_of ("COPY " +:+ "ar" +:+ "." +:+ "items" +:+ " (" +:+ "sku, qty"
                +:+ ") FROM stdin" +:+ ";" +:+ nl)
     = Some ("ar_items", ["sku"; "qty"]).
Proof.
  assert (H1 : Shape.some_of Char.isword "items")
    by (split; [discriminate | reflexivity]).
  assert (H2 : Shape.some_of Char.isword "ar")
    by (split; [discriminate | reflexivity]).
  assert (H3 : free_of (is_char ")") "sku, qty") by reflexivity.
  assert (H4 : free_of (is_char Char.lf) "sku, qty") by reflexivity.
  repeat (split; [assumption |]).
  destruct (canonical_header_recognised "ar" "items" "sku, qty" (";" +:+ nl)
              H1 H3 H4) as [_ Hq].
  rewrite (Hq H2). vm_compute. reflexivity.
Defined.

(** ** One record, one line *)

Lemma free_eol_iff s :
  free_of is_eol s
  <-> free_of (is_char Char.cr) s /\ free_of (is_char Char.lf) s.
Proof.
  induction s as [|c s IH]; [split; auto; intros; reflexivity |].
  rewrite !free_of_cons, IH. unfold is_eol. rewrite orb_false_iff. tauto.
Qed.

Lemma readlines_other c s :
  is_eol c = false ->
  readlines (String c s)
  = match readlines s with
    | l :: ls => String c l :: ls
    | [] => [String c ""]
    end.
Proof.
  unfold is_eol, is_char. intros H. apply orb_false_iff in H as [Hcr Hlf].
  simpl. now rewrite Hlf, Hcr.
Qed.

Lemma clean_line_cons c l : is_eol c = false -> clean_line l -> clean_line (String c l).
Proof.
  intros Hc (body & Hb & [-> | [-> Hne]]).
  - exists (String c body). split; [now apply free_of_cons |]. now left.
  - exists (String c body). split; [now apply free_of_cons |]. right.
    split; [reflexivity | discriminate].
Qed.

Lemma clean_line_lf : clean_line (String Char.lf "").
Proof. exists "". split; [reflexivity |]. now left. Qed.

Lemma readlines_clean_le n : forall s,
  (String.length s <= n)%nat -> Forall clean_line (readlines s).
Proof.
  induction n as [|n IH]; intros s Hn.
  - destruct s; [constructor | simpl in Hn; lia].
  - destruct s as [|c s]; [constructor |]. simpl in Hn.
    destruct (is_eol c) eqn:Hc.
    + unfold is_eol, is_char in Hc. simpl.
      destruct (bool_decide (c = Char.lf)) eqn:Hlf.
      * constructor; [apply clean_line_lf | apply IH; lia].
      * rewrite orb_false_r in Hc. rewrite Hc.
        destruct s as [|c2 s]; [repeat constructor; apply clean_line_lf |].
        simpl in Hn.
        destruct (bool_decide (c2 = Char.lf));
          (constructor; [apply clean_line_lf | apply IH; simpl; lia]).
    + rewrite (readlines_other _ _ Hc).
      assert (Hs : Forall clean_line (readlines s)) by (apply IH; lia).
      destruct (readlines s) as [|l ls].
      * repeat constructor. exists (String c "").
        split; [now apply free_of_cons |]. right. split; [reflexivity | discriminate].
      * inversion Hs; subst. constructor; [now apply clean_line_cons | assumption].
Qed.

(** Every line of a file read in text mode is clean. *)
Lemma readlines_clean text : Forall clean_line (readlines text).
Proof. now apply (readlines_clean_le (String.length text)). Qed.

Lemma readlines_crlf body rest :
  free_of is_eol body ->
  readlines (body +:+ String Char.cr (String Char.lf rest))
  = (body +:+ String Char.lf "") :: readlines rest.
Proof.
  induction body as [|c body IH]; intros H; [reflexivity |].
  apply free_of_cons in H as [Hc H].
  rewrite !string_app_cons, (readlines_other _ _ Hc), (IH H). reflexivity.
Qed.

Lemma rstrip_chars_id p s : free_of p s -> rstrip_chars p s = s.
Proof.
  induction s as [|c s IH]; intros H; [reflexivity |].
  apply free_of_cons in H as [Hc H]. simpl. rewrite (IH H), Hc.
  now destruct s.
Qed.

Lemma rstrip_chars_snoc p s c :
  free_of p s -> p c = true -> rstrip_chars p (s +:+ String c "") = s.
Proof.
  induction s as [|x s IH]; intros H Hc; [simpl; now rewrite Hc |].
  apply free_of_cons in H as [Hx H].
  rewrite string_app_cons. simpl. rewrite (IH H Hc), Hx. now destruct s.
Qed.

Lemma rstrip_newline_clean l :
  clean_line l ->
  exists body, rstrip_newline l = body /\ free_of is_eol body.
Proof.
  intros (body & Hb & [-> | [-> _]]); exists body; (split; [| exact Hb]);
    apply free_eol_iff in Hb as [_ Hlf]; unfold rstrip_newline.
  - apply (rstrip_chars_snoc (is_char Char.lf)); [exact Hlf | reflexivity].
  - now apply (rstrip_chars_id (is_char Char.lf)).
Qed.

Lemma fields_clean line fields :
  clean_line line -> parse_data_row line = Some fields ->
  Forall (free_of is_eol) fields.
Proof.
  intros Hl. destruct (rstrip_newline_clean line Hl) as (body & Hr & Hb).
  unfold parse_data_row. destruct (_ || _); [discriminate |].
  intros [= <-]. rewrite Hr. apply Forall_fmap.
  eapply Forall_impl; [apply (split_free _ _ _ Hb) |].
  intros f Hf. simpl. now destruct (bool_decide (f = "\N")).
Qed.

Lemma escape_free p f :
  free_of p f -> free_of p (Csv.escape f).
Proof.
  induction f as [|c f IH]; intros H; [reflexivity |].
  apply free_of_cons in H as [Hc H]. simpl.
  destruct (bool_decide (c = Char.dquote)); repeat (apply free_of_cons; split; auto).
Qed.

Lemma field_free f : free_of is_eol f -> free_of is_eol (Csv.field f).
Proof.
  intros H. unfold Csv.field. destruct (contains_char Csv.special f); [| exact H].
  unfold Csv.quote. apply free_of_cons. split; [reflexivity |].
  apply free_of_app. split; [now apply escape_free | reflexivity].
Qed.

Lemma join_free p sep l :
  free_of p sep -> Forall (free_of p) l -> free_of p (join sep l).
Proof.
  intros Hsep Hl. induction Hl as [|x l Hx Hl IH]; [reflexivity |].
  destruct l as [|y l]; [exact Hx |].
  change (join sep (x :: y :: l)) with (x +:+ sep +:+ join sep (y :: l)).
  apply free_of_app. split; [exact Hx |]. apply free_of_app. auto.
Qed.

Lemma record_free fields :
  Forall (free_of is_eol) fields -> free_of is_eol (Csv.record fields).
Proof.
  intros H. unfold Csv.record. destruct (_ && _); [reflexivity |].
  apply join_free; [reflexivity |]. apply Forall_fmap.
  eapply Forall_impl; [exact H |]. intros f. apply field_free.
Qed.

(** A record of fields without line breaks is one line of the file. *)
Lemma count_lines_row fields rest :
  Forall (free_of is_eol) fields ->
  count_lines (Csv.row fields +:+ rest) = 1 + count_lines rest.
Proof.
  intros H. unfold Csv.row, Csv.lineterminator, count_lines.
  rewrite string_app_assoc. rewrite !string_app_cons.
  change ("" +:+ rest) with rest.
  rewrite (readlines_crlf _ _ (record_free _ H)). simpl length. lia.
Qed.

Lemma rows_text_lines cols rows :
  Forall clean_line rows ->
  count_lines (rows_text cols rows)
  = Z.of_nat (length (List.filter (accepted cols) rows)).
Proof.
  induction 1 as [|line rows Hl Hrows IH]; [reflexivity |].
  simpl. unfold accepted at 1.
  destruct (parse_data_row line) as [fields|] eqn:Hp; [| exact IH].
  destruct (bool_decide (length fields = length cols)); [| exact IH].
  rewrite (count_lines_row _ _ (fields_clean _ _ Hl Hp)), IH.
  simpl length. lia.
Qed.

Lemma columns_clean hdr t cols :
  clean_line hdr -> parse_copy_statement hdr = Some (t, cols) ->
  Forall (free_of is_eol) cols.
Proof.
  intros Hc. unfold parse_copy_statement.
  destruct (Re.rmatch true COPY_PATTERN hdr) as [m|] eqn:Hm; [| discriminate].
  destruct (copy_pattern_shape _ _ Hm) as (table & text & H2 & H3 & Hs).
  rewrite H2, H3. intros [= _ <-].
  assert (Hcr : free_of (is_char Char.cr) hdr).
  { destruct Hc as (body & Hb & [-> | [-> _]]);
      apply free_eol_iff in Hb as [Hb _]; [| exact Hb].
    apply free_of_app. split; [exact Hb | reflexivity]. }
  destruct Hs as (kw & ws1 & ws2 & ws3 & kwf & ws4 & kws & rest & -> & _ & _
                  & _ & _ & _ & _ & _ & _ & _ & Htext).
  assert (Ht : free_of is_eol text).
  { apply free_eol_iff. split.
    - do 5 (apply free_of_app in Hcr as [_ Hcr]).
      apply free_of_app in Hcr as [_ Hcr].
      now apply free_of_app in Hcr as [Hcr _].
    - apply (string_all_free _ _ _ Htext). intros c H. unfold is_char.
      now apply negb_true_iff in H. }
  apply Forall_fmap. eapply Forall_impl; [apply (split_free _ _ _ Ht) |].
  intros col. apply parse_column_free.
Qed.

(** X12: one record, one line.  Under the conditions of X4 the file of
    the table, read back line by line as the comparator does, has one
    header line and one data line per row of the block whose field
    count is that of the header. *)
Theorem one_line_per_record (buffer_size : N) dump_file text output_dir
    (fs : filesystem) pre hdr t cols rows post :
  readlines text = pre ++ hdr :: rows ++ post ->
  header_of hdr = Some (t, cols) ->
  Forall data_line rows ->
  (forall l post', post = l :: post' -> ~ data_line l) ->
  csv_name t ∉ table_files post ->
  exists content,
    fs_after (process_dump buffer_size dump_file (Some text) output_dir fs)
      !! output_dir ≫= (fun d => d !! csv_name t) = Some content
    /\ count_lines content - 1
       = Z.of_nat (length (List.filter (accepted cols) rows)).
Proof.
  intros Hlines Hh Hrows Hpost Hnot.
  exists (Csv.row cols +:+ rows_text cols rows). split.
  - destruct (process_dump_view buffer_size dump_file text output_dir fs)
      as [-> _]. simpl. rewrite Hlines. now apply foldl_block_file.
  - pose proof (readlines_clean text) as Hclean. rewrite Hlines in Hclean.
    apply Forall_app in Hclean as [_ Hclean].
    apply Forall_cons in Hclean as [Hhdr Hclean].
    apply Forall_app in Hclean as [Hclean _].
    assert (Hcols : Forall (free_of is_eol) cols).
    { apply (columns_clean hdr t); [exact Hhdr |].
      unfold header_of in Hh. now destruct (startswith hdr "COPY "). }
    rewrite (count_lines_row _ _ Hcols), (rows_text_lines _ _ Hclean). lia.
Qed.

Lemma one_line_per_record_witness :
  readlines twice_dump
  = ["COPY t (a) FROM stdin;" +:+ nl; "1" +:+ nl; "\." +:+ nl]
    ++ ("COPY public.t (a) FROM stdin;" +:+ nl)
       :: ["2" +:+ nl; "3" +:+ nl] ++ ["\." +:+ nl]
  /\ header_of ("COPY public.t (a) FROM stdin;" +:+ nl) = Some ("t", ["a"])
  /\ Forall data_line ["2" +:+ nl; "3" +:+ nl]
  /\ exists content,
       fs_after (process_dump 8192 "Source Data" (Some twice_dump)
                   "csv_export" ∅) !! "csv_export"
         ≫= (fun d => d !! "t.csv") = Some content
       /\ count_lines content - 1 = 2.
Proof.
  assert (H1 : readlines twice_dump
               = ["COPY t (a) FROM stdin;" +:+ nl; "1" +:+ nl; "\." +:+ nl]
                 ++ ("COPY public.t (a) FROM stdin;" +:+ nl)
                    :: ["2" +:+ nl; "3" +:+ nl] ++ ["\." +:+ nl])
    by (vm_compute; reflexivity).
  assert (H2 : header_of ("COPY public.t (a) FROM stdin;" +:+ nl)
               = Some ("t", ["a"])) by (vm_compute; reflexivity).
  assert (H3 : Forall data_line ["2" +:+ nl; "3" +:+ nl]).
  { repeat constructor; vm_compute; discriminate. }
  assert (H4 : forall l post', ["\." +:+ nl] = l :: post' -> ~ data_line l).
  { intros l post' [= <- <-] [_ H]. apply H. vm_compute. reflexivity. }
  assert (H5 : csv_name "t" ∉ table_files ["\." +:+ nl]).
  { vm_compute. apply not_elem_of_nil. }
  split; [exact H1 |]. split; [exact H2 |]. split; [exact H3 |].
  destruct (one_line_per_record 8192 "Source Data" twice_dump "csv_export" ∅
              _ _ _ _ _ _ H1 H2 H3 H4 H5) as (content & Hfile & Hcount).
  exists content. split; [exact Hfile |]. rewrite Hcount. reflexivity.
Defined.

(** ** Column lists *)

Lemma rstrip_chars_last p s c :
  p c = false -> rstrip_chars p (s +:+ String c "") = s +:+ String c "".
Proof.
  intros Hc. induction s as [|x s IH]; [simpl; now rewrite Hc |].
  rewrite string_app_cons. simpl. rewrite IH.
  destruct (s +:+ String c "") eqn:E; [| reflexivity].
  destruct s; discriminate.
Qed.

Lemma lstrip_blanks lead s :
  string_all Char.isspace lead = true -> lstrip (lead +:+ s) = lstrip s.
Proof.
  induction lead as [|c lead IH]; intros H; [reflexivity |].
  rewrite string_all_cons in H. apply andb_true_iff in H as [Hc H].
  rewrite string_app_cons. simpl. rewrite Hc. auto.
Qed.

Lemma string_snoc_inv s : s <> "" -> exists s' c, s = s' +:+ String c "".
Proof.
  induction s as [|x s IH]; [congruence |]. intros _.
  destruct s as [|y s]; [exists "", x; reflexivity |].
  destruct IH as (s' & c & E); [discriminate |].
  exists (String x s'), c. now rewrite string_app_cons, <- E.
Qed.

Lemma rev_app_snoc s : forall acc c,
  String.rev_app (s +:+ String c "") acc
  = String.rev_app (String c "") (String.rev_app s acc).
Proof.
  induction s as [|x s IH]; intros acc c; [reflexivity |].
  rewrite string_app_cons. simpl. now rewrite IH.
Qed.

Lemma endswith_snoc s c : endswith (s +:+ String c "") (String c "") = true.
Proof.
  unfold endswith, String.rev. rewrite rev_app_snoc. simpl.
  destruct (ascii_dec c c); [| congruence].
  now destruct (String.rev_app s "").
Qed.

(** A quoted name comes back without its quotes, whatever blanks
    precede it. *)
Lemma parse_column_quoted lead w :
  string_all Char.isspace lead = true ->
  parse_column (lead +:+ String Char.dquote (w +:+ String Char.dquote ""))
  = w.
Proof.
  intros Hl. unfold parse_column, strip.
  rewrite <- string_app_cons, <- string_app_assoc.
  rewrite rstrip_chars_last by reflexivity.
  rewrite string_app_assoc, (lstrip_blanks _ _ Hl), string_app_cons.
  simpl lstrip. rewrite startswith_cons.
  destruct (ascii_dec Char.dquote Char.dquote); [| congruence].
  change (startswith (w +:+ String Char.dquote "") "") with
    (String.prefix "" (w +:+ String Char.dquote "")).
  assert (Hp : forall x, String.prefix "" x = true) by (intros []; reflexivity).
  rewrite Hp. rewrite <- string_app_cons, endswith_snoc. simpl andb.
  unfold slice_1_m1. rewrite string_length_app. simpl String.length.
  replace (S (String.length w) + 1 - 2)%nat with (String.length w) by lia.
  rewrite string_app_cons. simpl. apply substring_app_l.
Qed.

(** A bare word comes back as it is. *)
Lemma parse_column_word lead w :
  string_all Char.isspace lead = true -> Shape.some_of Char.isword w ->
  parse_column (lead +:+ w) = w.
Proof.
  intros Hl [Hne Hw]. unfold parse_column, strip.
  destruct (string_snoc_inv w Hne) as (w' & c & ->).
  assert (Hc : Char.isword c = true).
  { rewrite string_all_app in Hw. apply andb_true_iff in Hw as [_ Hw].
    rewrite string_all_cons in Hw. now apply andb_true_iff in Hw as [Hw _]. }
  rewrite <- string_app_assoc, rstrip_chars_last by now apply word_not_space.
  rewrite string_app_assoc, (lstrip_blanks _ _ Hl).
  destruct (w' +:+ String c "") as [|x r] eqn:E; [now destruct w' |].
  assert (Hx : Char.isword x = true).
  { rewrite <- E in Hne. rewrite string_all_cons in Hw.
    now apply andb_true_iff in Hw as [Hw _]. }
  simpl lstrip. rewrite (word_not_space _ Hx), startswith_cons.
  destruct (ascii_dec Char.dquote x) as [<-|]; [discriminate Hx | reflexivity].
Qed.

Lemma parse_column_render lead c :
  string_all Char.isspace lead = true ->
  (c.1 = false -> Shape.some_of Char.isword c.2) ->
  parse_column (lead +:+ render_column c) = c.2.
Proof.
  intros Hl Hw. unfold render_column. destruct c as [[] w]; simpl in *.
  - now apply parse_column_quoted.
  - now apply parse_column_word; auto.
Qed.

Lemma split_app_sep sep x s :
  free_of (is_char sep) x ->
  split sep (x +:+ String sep s) = x :: split sep s.
Proof.
  induction x as [|c x IH]; intros H.
  - simpl. now rewrite bool_decide_eq_true_2.
  - apply free_of_cons in H as [Hc H]. rewrite string_app_cons. simpl.
    unfold is_char in Hc. rewrite Hc, (IH H). reflexivity.
Qed.

Lemma split_one sep x : free_of (is_char sep) x -> split sep x = [x].
Proof.
  induction x as [|c x IH]; intros H; [reflexivity |].
  apply free_of_cons in H as [Hc H]. simpl.
  unfold is_char in Hc. rewrite Hc, (IH H). reflexivity.
Qed.

Lemma render_column_free c :
  free_of (is_char Char.comma) c.2 ->
  free_of (is_char Char.comma) (render_column c).
Proof.
  intros H. unfold render_column. destruct c as [[] w]; simpl in *; [| exact H].
  apply free_of_cons. split; [reflexivity |].
  apply free_of_app. split; [exact H | reflexivity].
Qed.

Lemma space_not_comma c :
  Char.isspace c = true -> is_char Char.comma c = false.
Proof. destruct c as [[] [] [] [] [] [] [] []]; vm_compute; congruence. Qed.

Lemma blanks_free_of_comma lead :
  string_all Char.isspace lead = true -> free_of (is_char Char.comma) lead.
Proof.
  induction lead as [|c lead IH]; intros H; [reflexivity |].
  rewrite string_all_cons in H. apply andb_true_iff in H as [Hc H].
  apply free_of_cons. split; [now apply space_not_comma | auto].
Qed.

(** X13: the column list round trip.  A list of column names, each a
    bare word or any comma-free text between double quotes, written
    with the separator [, ] as [pg_dump] does and preceded by any
    blanks, is parsed back to the names, quotes removed. *)
Theorem column_list_round_trip lead (names : list (bool * string)) :
  string_all Char.isspace lead = true ->
  names <> [] ->
  Forall (fun c => free_of (is_char Char.comma) c.2
                   /\ (c.1 = false -> Shape.some_of Char.isword c.2)) names ->
  parse_column
    <$> split Char.comma (lead +:+ join ", " (render_column <$> names))
  = snd <$> names.
Proof.
  intros Hl Hne Hall. revert lead Hl.
  induction Hall as [|c rest [Hc Hw] Hrest IH]; [congruence |].
  intros lead Hl. clear Hne.
  assert (Hfree : free_of (is_char Char.comma) (lead +:+ render_column c)).
  { apply free_of_app. split;
      [now apply blanks_free_of_comma | now apply render_column_free]. }
  destruct rest as [|c' rest].
  - cbn [fmap list_fmap join]. rewrite (split_one _ _ Hfree).
    cbn [fmap list_fmap]. now rewrite parse_column_render.
  - change (join ", " (render_column <$> c :: c' :: rest))
      with (render_column c
              +:+ ", " +:+ join ", " (render_column <$> c' :: rest)).
    rewrite <- string_app_assoc.
    change (", " +:+ join ", " (render_column <$> c' :: rest))
      with (String Char.comma
              (" " +:+ join ", " (render_column <$> c' :: rest))).
    rewrite (split_app_sep _ _ _ Hfree).
    change (parse_column <$> ?x :: ?l)
      with (parse_column x :: (parse_column <$> l)).
    rewrite parse_column_render by assumption.
    rewrite IH by (reflexivity || discriminate).
    reflexivity.
Qed.

Lemma column_list_round_trip_witness :
  parse_column
    <$> split Char.comma
          (" " +:+ join ", " (render_column
                                <$> [(false, "id"); (true, "Order Total")]))
  = ["id"; "Order Total"].
Proof.
  apply (column_list_round_trip " " [(false, "id"); (true, "Order Total")]).
  - reflexivity.
  - discriminate.
  - repeat constructor; simpl; try reflexivity; discriminate.
Defined.
